(* ===== verification/_CoqProject ===== *)
-Q . S2P
Prelude.v
JsValue.v
Canvas.v
Json.v
Transfer.v
Session.v
Formula.v
Render.v
Page.v
