(* ===== verification/Prelude.v ===== *)
(** * A verification development of WebProgrammingAssignments

    The repository holds three independent browser exercises:

    - [src/HW1/script.js]: every [<formula evaluator="...">] element of
      a page is bound to the [<input>] fields whose ids occur in the
      expression.  The identifiers are found with the global regular
      expression [/[a-zA-Z]\w*/g]; on every [input] event the expression
      is rewritten by substituting [(value)] for each identifier and
      handed to [eval].
    - [src/HW2/src/App.tsx]: a React shape canvas.  The [App] component
      keeps a title, a list of shapes, the selected tool and the tool
      being dragged; its handlers place a shape on a click or a drop,
      delete a shape on a double click, count the shapes per type,
      export the painting as a JSON data URL and import a JSON file.
    - [src/HW3/frontend/src/App.tsx]: the same canvas extended with an
      [AuthModal] (sign up and log in against [localhost:8080]), a held
      bearer token, and remote save and restore of the painting.

    ** Library layout (files in dependency order)

    - [Prelude] (this file): the notation scope [webapp_scope], the
      tactics ([invc], [bool_hyps], [decide_by_eval]), the hint
      databases [webapp] and [webapp_rw], generic lemmas on strings,
      lists, membership and sums, and [inevitable]: the liveness
      predicate "every run of a step relation reaches P".
    - [JsValue]: the JavaScript values the programs manipulate (what
      [JSON.parse] produces and what the components store), with the
      pieces of ECMAScript semantics the source relies on: truthiness,
      property access (which throws a [TypeError] on [null]), [String()]
      conversion, strict equality, [Array.isArray], [filter] and
      [reduce] with throwing callbacks, a completion type [res] for code
      that may throw, and the effects a handler asks of the browser.
    - [Json]: [JSON.stringify(v, null, gap)] and [JSON.parse]
      (ECMA-262/ECMA-404), with the round trip [JSON_parse_stringify],
      the well-formedness of what the parser produces, and the adequacy
      of its fuel.
    - [Canvas] (Module [Canvas]): the HW2 [App] state as a record and
      one function per handler ([handleCanvasClick], [handleDragStart],
      [handleDrop], [handleDeleteShape], [shapeCounts]), the reachable
      states and the unique-id invariant; [shape_of] reads a value at
      the TypeScript interface [Shape].
    - [Transfer] (Module [Transfer]): [handleExport] (data URL with
      [encodeURIComponent], file name from the title),
      [handleImportClick], [handleFileChange] and [reader.onload], and
      the browser side of a download and a re-import (percent decoding,
      UTF-8).
    - [Session] (Module [Session]): the HW3 [App] and [AuthModal]: the
      token, the modal and its fields, the async handlers split at
      [await fetch] into a request and a continuation run when the
      response arrives, in any order; the HW2 handlers lifted to the
      session; the events the page offers and the reachable sessions;
      the moves of the network ([net_step]) and the declared types of
      the document ([doc_typed]).
    - [Formula] (Module [Formula]): HW1: the scan of the global regular
      expression, [getInputIds], [evaluateFormula] for any [eval] (a
      Section variable), the set-up loop and the [input] events.
    - [Render] (Module [Render]): React's synthetic events as
      [dispatch] (bubbling from the target, [stopPropagation],
      [preventDefault]); [Header] (both versions), [Toolbar], [Canvas],
      [Shape], [Footer] and the [AuthModal] markup as functions from
      props to a virtual DOM tree whose handlers name the callback they
      call.
    - [Page] (Module [Page]): the HW3 [App] markup ([App_view]) wired to
      the session's handlers, and [page_reachable]: the sessions a user
      reaches by DOM events on it and by the browser's callbacks.

    ** What the theorems show (claim ids of the manifest)

    - C1-C4, canvas: reachable documents keep unique ids; deletion
      removes exactly the shape named; the counts; an abandoned drag.
    - C5-C11, export and import: the export/import round trip through
      the data URL and the file; the classification of every outcome
      of [reader.onload]; the file name against an independent
      specification of [replace(/\s+/g, "_")] ([ws_collapse]); and the
      findings ([null] shapes, duplicate ids, an empty title, a numeric
      title).
    - C12-C24, session: requests to [/painting] carry the held token;
      the session invariant on reachable sessions (token, request
      table, JSON document); save then restore returns the saved
      document; the error categories (404 against 500, an error body
      that is not JSON); last-response-wins; responses after logout or
      after closing the modal; the authentication outcomes with their
      alert texts; the request body of a submission; the dead
      empty-field alert; liveness: every run of responses settles
      every request (C23); type preservation: only a file read and a
      restore answer can break the declared types of the document
      (C24).
    - C25-C30, formula: the scan matches the identifiers a one-pass
      lexer reads; [getInputIds]; the outcomes of [evaluateFormula];
      after a complete set-up every formula tracks its inputs; after
      any run of digits the scan matches an identifier (so [1e3] names
      [e3]); a missing element aborts the set-up.
    - C31-C36, rendering: every session the page reaches is a session
      of [Session.sreachable] (refinement: the theorems on [sreachable]
      hold of the page); the Header's buttons are exactly the events
      [Session.enabled] allows, each raised by the button labelled with
      it; a click on a shape or inside the modal stops there; the
      Footer's counts for a document of shapes, and for any imported
      array (values of another type are counted nowhere).

    ** Fuel and measures

    - [JSON_parse] runs its parser with fuel [S (length text)]: every
      call of the parser consumes at least one character
      ([parse_consumes]), so a result found with any fuel is found with
      as much fuel as characters it consumed ([parse_fuel]);
      [JSON_parse_fuel_adequate] says the bounded parser accepts
      exactly what the unbounded grammar does.  [jsize_le_length] gives the same bound for the text of a
      well-formed value, which the round trip uses.
    - [N_to_dec] splits digits with fuel [N.size n], the binary size,
      which bounds the number of decimal digits ([N_size_digits]).
    - [segments] (the regular-expression scan) is defined by
      well-founded recursion on the length of the string (Equations);
      it is total and computes on closed strings.
    - Liveness (C23) assumes only that responses arrive: [net_step]
      lets the network answer any pending request with any response,
      and [inevitable] requires every such run to end; the measure is
      the number of pending requests.

    ** Modelling choices

    - Strings are Stdlib [string]s; a character is one code unit in
      0..255 (JavaScript strings are UTF-16; code units above 255 are
      outside the model).
    - Numbers are integers ([Z]): the coordinates a click produces and
      the counts the footer shows.  Fractional numbers are outside the
      model; [JSON.parse] rejects a fraction or an exponent.
    - Non-determinism of the host ([crypto.randomUUID()], the screen to
      SVG coordinate transform, the moment a file read or an HTTP
      response completes) is an input of the event that triggers the
      handler, so every handler is a total function.
    - Objects and arrays are compared by value where JavaScript compares
      references; the programs compare only strings read from shapes.
    - An object is its own properties only: [Object.prototype] is not
      modelled, so the counts accumulator reads a key such as
      [toString] or [constructor] (possible only as the type of an
      imported shape) as missing, where JavaScript reads the inherited
      function.
    - An asynchronous handler is a synchronous part and a continuation;
      a response is an event of its own, so every interleaving of
      responses and user events is a sequence of steps.

    ** Not modelled

    - Styling, icons' drawings and the CSS (including whether the
      modal overlay covers the header, so [page_reachable] lets a user
      click the header while the modal is open): they change no state.
    - The hidden file input's reset ([event.target.value = ""]):
      DOM-only, no state of the program.
    - Rendering of a document whose shapes lack their declared types
      (possible only after an import or a restore; [App_view] is then
      [None]), and numbers that are not integers: JavaScript number
      arithmetic on such values is outside the model.
    - The HW2 [App] markup: the HW3 one without the session buttons and
      the modal; its components are modelled ([Header2] and the shared
      ones) and its wiring is [Canvas.canvas_dispatch].
    - The server of HW3: its answers are inputs of the response events.
    - [eval]: an arbitrary function of the expression; the theorems
      hold for every such function.
*)

From Stdlib Require Import String Ascii ZArith Lia.
From stdpp Require Import base list strings.

Declare Scope webapp_scope.
Delimit Scope webapp_scope with web.

Create HintDb webapp discriminated.
Create Rewrite HintDb webapp_rw.

(** ** Tactics *)

Ltac invc H := inversion H; subst; clear H.

(** Split a boolean conjunction or disjunction hypothesis into Props. *)
Ltac bool_hyps :=
  repeat match goal with
  | H : (_ && _)%bool = true |- _ => apply andb_prop in H as [? ?]
  | H : (_ || _)%bool = false |- _ => apply orb_false_elim in H as [? ?]
  | H : negb _ = true |- _ => apply negb_true_iff in H
  | H : negb _ = false |- _ => apply negb_false_iff in H
  end.

(** ** Strings *)

Section Strings.
Local Open Scope string_scope.

(** Every character of [s] satisfies [p]. *)
Fixpoint str_forall (p : ascii -> bool) (s : string) : bool :=
  match s with
  | EmptyString => true
  | String c s' => p c && str_forall p s'
  end.

(** stdpp makes [String.append] [simpl never]; these two equations
    are its computation rules. *)
Lemma string_app_nil_l (b : string) : "" ++ b = b.
Proof. reflexivity. Qed.

Lemma string_app_cons x (a b : string) : String x a ++ b = String x (a ++ b).
Proof. reflexivity. Qed.

Lemma string_app_assoc (a b c : string) :
  (a ++ b) ++ c = a ++ (b ++ c).
Proof. induction a as [|x a IH]; [done|]. rewrite !string_app_cons. by f_equal. Qed.

Lemma string_app_nil_r (a : string) : a ++ "" = a.
Proof. induction a as [|x a IH]; [done|]. rewrite string_app_cons. by f_equal. Qed.

Lemma string_length_app (a b : string) :
  String.length (a ++ b) = String.length a + String.length b.
Proof. induction a as [|x a IH]; [done|]. rewrite string_app_cons. simpl. lia. Qed.

Lemma str_forall_app p (a b : string) :
  str_forall p (a ++ b) = str_forall p a && str_forall p b.
Proof.
  induction a as [|x a IH]; [done|].
  rewrite string_app_cons. simpl. by rewrite IH, andb_assoc.
Qed.

(** [String.concat] on a list that is not empty. *)
Lemma string_concat_cons sep (x y : string) l :
  String.concat sep (x :: y :: l) = x ++ sep ++ String.concat sep (y :: l).
Proof. reflexivity. Qed.
End Strings.

#[export] Hint Rewrite string_app_nil_l string_app_cons string_app_assoc
  string_app_nil_r str_forall_app
    : webapp_rw.

(** ** Lists *)

Section Lists.
Context {A : Type}.

Lemma filter_length_le (f : A -> bool) (l : list A) :
  length (List.filter f l) <= length l.
Proof.
  induction l as [|x l IH]; simpl; [lia|].
  destruct (f x); simpl; lia.
Qed.

Lemma filter_In_iff (f : A -> bool) (l : list A) x :
  List.In x (List.filter f l) <-> List.In x l /\ f x = true.
Proof. apply filter_In. Qed.

Lemma filter_all_true (f : A -> bool) (l : list A) :
  Forall (fun x => f x = true) l -> List.filter f l = l.
Proof. induction 1 as [|x l Hx _ IH]; simpl; [done|]. by rewrite Hx, IH. Qed.

Lemma filter_app_bool (f : A -> bool) (l1 l2 : list A) :
  List.filter f (l1 ++ l2) = List.filter f l1 ++ List.filter f l2.
Proof. induction l1 as [|x l1 IH]; simpl; [done|]. destruct (f x); simpl; by rewrite IH. Qed.
Lemma forallb_Forall (f : A -> bool) (l : list A) :
  forallb f l = true <-> Forall (fun x => f x = true) l.
Proof. rewrite forallb_forall, Forall_forall. setoid_rewrite list_elem_of_In. done. Qed.

Lemma forallb_false_exists (f : A -> bool) (l : list A) :
  forallb f l = false -> exists x, x ∈ l /\ f x = false.
Proof.
  induction l as [|x l IH]; [done|]. simpl. destruct (f x) eqn:Ex; simpl.
  - intros (y & Hy & Hf)%IH. exists y. split; [by apply elem_of_cons; right|done].
  - intros _. exists x. split; [apply elem_of_cons; by left|done].
Qed.

Lemma Forall_filter_bool (P : A -> Prop) (f : A -> bool) (l : list A) :
  Forall P l -> Forall P (List.filter f l).
Proof. induction 1; simpl; [done|]. destruct (f _); auto. Qed.
End Lists.

#[export] Hint Resolve filter_length_le Forall_filter_bool : webapp.
#[export] Hint Rewrite @filter_app_bool : webapp_rw.

Section NoDupLemmas.
Context {A B : Type}.

(** Keeping a sublist keeps the images distinct. *)
Lemma NoDup_map_filter (f : A -> B) (p : A -> bool) (l : list A) :
  NoDup (map f l) -> NoDup (map f (List.filter p l)).
Proof.
  induction l as [|x l IH]; simpl; [done|].
  rewrite !NoDup_cons. intros [Hx Hl].
  destruct (p x); simpl; [|by apply IH].
  rewrite NoDup_cons. split; [|by apply IH].
  rewrite list_elem_of_In in Hx |- *. intros Hin. apply Hx.
  apply in_map_iff in Hin as (y & Hy & Hin). apply filter_In in Hin as [Hin _].
  apply in_map_iff. eauto.
Qed.

(** Appending a new image keeps the images distinct. *)
Lemma NoDup_map_snoc (f : A -> B) (l : list A) (x : A) :
  NoDup (map f l) -> f x ∉ map f l -> NoDup (map f (l ++ [x])).
Proof.
  intros Hl Hx. rewrite map_app. simpl.
  apply NoDup_app. repeat split; [done| |by apply NoDup_singleton].
  intros y Hy ->%list_elem_of_singleton. done.
Qed.
End NoDupLemmas.

#[export] Hint Resolve NoDup_map_filter NoDup_map_snoc : webapp.

(** ** Membership and distinctness of strings, by evaluation

    stdpp decides string equality through proofs that [vm_compute]
    does not unfold; these boolean versions compute. *)

Definition str_mem (x : string) (l : list string) : bool :=
  existsb (String.eqb x) l.

Fixpoint str_nodup (l : list string) : bool :=
  match l with
  | [] => true
  | x :: l' => negb (str_mem x l') && str_nodup l'
  end.

Lemma str_mem_spec x l : str_mem x l = true <-> x ∈ l.
Proof.
  unfold str_mem. rewrite existsb_exists, list_elem_of_In. split.
  - intros (y & Hy & Heq%String.eqb_eq). by subst.
  - intros Hin. exists x. by rewrite String.eqb_refl.
Qed.

Lemma str_not_mem x l : str_mem x l = false -> x ∉ l.
Proof. intros H Hin%str_mem_spec. congruence. Qed.

Lemma str_nodup_spec l : str_nodup l = true -> NoDup l.
Proof.
  induction l as [|x l IH]; simpl; [constructor|].
  intros H. bool_hyps. constructor; [by apply str_not_mem | by apply IH].
Qed.

(** Close a membership or distinctness goal on concrete strings. *)
Ltac decide_by_eval :=
  first [ apply str_not_mem; vm_compute; reflexivity
        | apply str_mem_spec; vm_compute; reflexivity
        | apply str_nodup_spec; vm_compute; reflexivity ].

(** ** Lengths and sums *)

Section Sums.
Context {A : Type}.

Lemma sum_list_with_S (g : A -> nat) (l : list A) :
  sum_list_with (fun x => S (g x)) l = length l + sum_list_with g l.
Proof. induction l as [|x l IH]; simpl; [done|]. rewrite IH. lia. Qed.

Lemma sum_list_with_add_const (c : nat) (g : A -> nat) (l : list A) :
  sum_list_with (fun x => c + g x) l = c * length l + sum_list_with g l.
Proof. induction l as [|x l IH]; simpl; [lia|]. rewrite IH. lia. Qed.

Lemma sum_list_with_le (g h : A -> nat) (l : list A) :
  Forall (fun x => g x <= h x) l -> sum_list_with g l <= sum_list_with h l.
Proof. induction 1; simpl; lia. Qed.

Lemma sum_list_with_map {B} (g : B -> nat) (f : A -> B) (l : list A) :
  sum_list_with g (map f l) = sum_list_with (fun x => g (f x)) l.
Proof. induction l as [|x l IH]; simpl; [done|]. by rewrite IH. Qed.
End Sums.

(** [String.concat] with a non-empty separator is at least as long as
    its parts and one character between each two. *)
Lemma string_concat_length (sep : string) (l : list string) :
  1 <= String.length sep -> l <> [] ->
  sum_list_with String.length l + length l - 1 <= String.length (String.concat sep l).
Proof.
  intros Hsep. induction l as [|a [|b l] IH]; intros Hne; [done| simpl; lia |].
  rewrite string_concat_cons, !string_length_app.
  specialize (IH ltac:(done)). simpl in *. lia.
Qed.

(** ** Liveness over a step relation

    [inevitable step P s]: [P] holds in [s], or [s] can take a step and
    every step leads to a state from which [P] is inevitable; so
    every run of [step] from [s] reaches [P]. *)

Section Inevitable.
Context {S : Type} (step : S -> S -> Prop).

Inductive inevitable (P : S -> Prop) : S -> Prop :=
| inevitable_done s : P s -> inevitable P s
| inevitable_step s :
    (exists s', step s s') -> (forall s', step s s' -> inevitable P s') -> inevitable P s.

(** A run that can always go on until [P] holds and that decreases a
    measure at every step reaches [P]. *)
Lemma inevitable_measure (P : S -> Prop) (m : S -> nat) :
  (forall s, P s \/ exists s', step s s') ->
  (forall s s', step s s' -> m s' < m s) ->
  forall s, inevitable P s.
Proof.
  intros Hprog Hdec s.
  induction s as [s IH] using (induction_ltof1 _ m). unfold ltof in IH.
  destruct (Hprog s) as [HP|Hs]; [by apply inevitable_done|].
  apply inevitable_step; [done|]. intros s' Hst. apply IH. by apply Hdec.
Qed.
End Inevitable.
