(* ===== verification/JsValue.v ===== *)
(** * JavaScript values and the ECMAScript operations the programs use

    [jval] is a JavaScript value built from JSON data: what [JSON.parse]
    returns, what the React state of the canvas holds (the title, the
    shapes, the token), and what the components read with property
    accesses such as [importedData.title] or [shape.type].  A JavaScript
    value that may also be [undefined] (the result of reading a missing
    property) is an [option jval], [None] being [undefined].

    Code that may throw returns a [res]: [Ok] with the value, or [Throw]
    with the error.  [res] is a monad through stdpp's [MRet] and [MBind]
    classes, so handlers read [x ← get_prop v "title"; ...].

    The operations follow ECMA-262: [truthy] is ToBoolean, [get_prop] is
    a property read ([null.title] throws a TypeError), [js_to_string] is
    String(v) as a template literal uses it, [strict_eq] is [===] on the
    values the programs compare, [is_array] is [Array.isArray]. *)

From S2P Require Import Prelude.
From Stdlib Require Import String Ascii ZArith Lia DecimalString.
From stdpp Require Import base list strings.

(** ** Values *)

#[local] Set Warnings "-register-all".

Inductive jval : Type :=
| JNull
| JBool (b : bool)
| JNum (n : Z)
| JStr (s : string)
| JArr (xs : list jval)
| JObj (fields : list (string * jval)).

(** The induction principle Rocq derives for [jval] has no hypothesis
    for the elements of an array or the members of an object; this one
    does. *)
Section jval_ind_nested.
Variable P : jval -> Prop.
Hypothesis P_null : P JNull.
Hypothesis P_bool : forall b, P (JBool b).
Hypothesis P_num : forall n, P (JNum n).
Hypothesis P_str : forall s, P (JStr s).
Hypothesis P_arr : forall xs, Forall P xs -> P (JArr xs).
Hypothesis P_obj : forall fs, Forall (fun kv => P kv.2) fs -> P (JObj fs).

Fixpoint jval_ind_nested (v : jval) : P v :=
  match v with
  | JNull => P_null
  | JBool b => P_bool b
  | JNum n => P_num n
  | JStr s => P_str s
  | JArr xs =>
      P_arr xs ((fix go (l : list jval) : Forall P l :=
                   match l with
                   | [] => @List.Forall_nil _ P
                   | x :: l' => @List.Forall_cons _ P x l' (jval_ind_nested x) (go l')
                   end) xs)
  | JObj fs =>
      P_obj fs ((fix go (l : list (string * jval)) : Forall (fun kv => P kv.2) l :=
                   match l with
                   | [] => @List.Forall_nil _ _
                   | kv :: l' => @List.Forall_cons _ _ kv l' (jval_ind_nested kv.2) (go l')
                   end) fs)
  end.
End jval_ind_nested.

(** Structural equality, decided by a boolean function. *)
Fixpoint jval_eqb (x y : jval) : bool :=
  match x, y with
  | JNull, JNull => true
  | JBool a, JBool b => Bool.eqb a b
  | JNum a, JNum b => Z.eqb a b
  | JStr a, JStr b => String.eqb a b
  | JArr xs, JArr ys =>
      (fix go (xs ys : list jval) : bool :=
         match xs, ys with
         | [], [] => true
         | a :: xs', b :: ys' => jval_eqb a b && go xs' ys'
         | _, _ => false
         end) xs ys
  | JObj xs, JObj ys =>
      (fix go (xs ys : list (string * jval)) : bool :=
         match xs, ys with
         | [], [] => true
         | (k, a) :: xs', (k', b) :: ys' =>
             String.eqb k k' && jval_eqb a b && go xs' ys'
         | _, _ => false
         end) xs ys
  | _, _ => false
  end.

(** ** Completions: values or thrown errors *)

Inductive js_error : Type :=
| TypeError
| SyntaxError.

Inductive res (A : Type) : Type :=
| Ok (a : A)
| Throw (e : js_error).
Arguments Ok {A} a.
Arguments Throw {A} e.

#[export] Instance res_ret : MRet res := @Ok.
#[export] Instance res_bind : MBind res :=
  fun A B (k : A -> res B) (r : res A) =>
    match r with
    | Ok a => k a
    | Throw e => Throw e
    end.

(** ** ECMAScript operations *)

(** Number::toString for an integer: decimal digits, most significant
    first, a leading [-] when negative.  [N_digits] splits off the last
    digit until one digit is left; the binary size of [n] bounds the
    number of its decimal digits, so that many steps suffice. *)
Fixpoint N_digits (fuel : nat) (n : N) : list N :=
  match fuel with
  | O => [n]
  | S f => if (n <? 10)%N then [n] else N_digits f (n / 10)%N ++ [(n mod 10)%N]
  end.

Definition digit_char (d : N) : ascii := ascii_of_N (48 + d).

Definition digits_string (ds : list N) : string :=
  fold_right (fun d s => String (digit_char d) s) EmptyString ds.

Definition N_to_dec (n : N) : string :=
  digits_string (N_digits (N.to_nat (N.size n)) n).

Definition Z_to_dec (z : Z) : string :=
  match z with
  | Zneg p => String "-" (N_to_dec (Npos p))
  | _ => N_to_dec (Z.to_N z)
  end.

(** ToBoolean on a value that may be [undefined]. *)
Definition truthy (v : option jval) : bool :=
  match v with
  | None => false
  | Some JNull => false
  | Some (JBool b) => b
  | Some (JNum n) => negb (Z.eqb n 0)
  | Some (JStr s) => negb (String.eqb s "")
  | Some (JArr _) => true
  | Some (JObj _) => true
  end.

(** The value of the own property [k] of an object's member list; an
    object built by [JSON.parse] or by a literal has each key once. *)
Fixpoint prop_lookup {V} (k : string) (fs : list (string * V)) : option V :=
  match fs with
  | [] => None
  | (k', v) :: fs' => if String.eqb k k' then Some v else prop_lookup k fs'
  end.

(** [v.k] for the keys the programs read ([title], [shapes], [token],
    [message], [id], [type], [x], [y]): none of them is an array index,
    [length] or a member of [Object.prototype], so a value other than
    an object has no such property, and [null] throws. *)
Definition get_prop (v : jval) (k : string) : res (option jval) :=
  match v with
  | JNull => Throw TypeError
  | JObj fs => Ok (prop_lookup k fs)
  | _ => Ok None
  end.

(** [Array.isArray]. *)
Definition is_array (v : option jval) : bool :=
  match v with
  | Some (JArr _) => true
  | _ => false
  end.

(** [typeof v === "string"]. *)
Definition is_string (v : option jval) : bool :=
  match v with
  | Some (JStr _) => true
  | _ => false
  end.

(** String(v) for a defined value: arrays join their elements with
    [","], writing [null] elements as the empty string. *)
Fixpoint jval_to_string (v : jval) : string :=
  match v with
  | JNull => "null"
  | JBool true => "true"
  | JBool false => "false"
  | JNum n => Z_to_dec n
  | JStr s => s
  | JArr xs =>
      String.concat ","
        (map (fun x => match x with JNull => "" | _ => jval_to_string x end) xs)
  | JObj _ => "[object Object]"
  end.

(** String(v), and the property key [acc[v]] denotes. *)
Definition js_to_string (v : option jval) : string :=
  match v with
  | None => "undefined"
  | Some x => jval_to_string x
  end.

(** [a === b].  Primitives compare by value; two objects or arrays
    compare by reference, and the values compared here are never the
    same reference, so they are unequal. *)
Definition strict_eq (a b : option jval) : bool :=
  match a, b with
  | None, None => true
  | Some JNull, Some JNull => true
  | Some (JBool x), Some (JBool y) => Bool.eqb x y
  | Some (JNum x), Some (JNum y) => Z.eqb x y
  | Some (JStr x), Some (JStr y) => String.eqb x y
  | _, _ => false
  end.

(** [obj[k] = v] on a plain object: an existing key keeps its position
    and takes the new value, a new key is appended. *)
Fixpoint obj_set {V} (k : string) (v : V) (fs : list (string * V))
  : list (string * V) :=
  match fs with
  | [] => [(k, v)]
  | (k', w) :: fs' =>
      if String.eqb k k' then (k', v) :: fs' else (k', w) :: obj_set k v fs'
  end.

(** A JavaScript object has each key once. *)
Definition keys_unique {V} (fs : list (string * V)) : Prop :=
  NoDup (map fst fs).

(** ** Array methods with callbacks that may throw *)

(** [l.filter(f)]: the callback runs on the elements from left to
    right; the first exception aborts the call. *)
Fixpoint js_filter {A} (f : A -> res bool) (l : list A) : res (list A) :=
  match l with
  | [] => Ok []
  | x :: l' =>
      b ← f x;
      r ← js_filter f l';
      Ok (if (b : bool) then x :: r else r)
  end.

(** [l.reduce(f, acc)]. *)
Fixpoint js_reduce {A B} (f : B -> A -> res B) (l : list A) (acc : B) : res B :=
  match l with
  | [] => Ok acc
  | x :: l' => acc' ← f acc x; js_reduce f l' acc'
  end.

(** ** What handlers ask of the browser *)

(** A file the user picked: its MIME type ([file.type]) and the text
    [reader.readAsText(file)] yields. *)
Record File : Type := mkFile {
  file_name : string;
  file_type : string;
  file_text : string
}.

(** An HTTP request made with [fetch]: method, URL, headers, body. *)
Record Request : Type := mkRequest {
  req_method : string;
  req_url : string;
  req_headers : list (string * string);
  req_body : option string
}.

(** The observable effects of a handler, in the order it performs them. *)
Inductive effect : Type :=
| Alert (msg : string)                     (** [alert(msg)] *)
| ConsoleError (msg : string)              (** [console.error(msg, error)] *)
| Download (name href : string)            (** [link.click()] on an [<a download>] *)
| OpenFilePicker                           (** [fileInputRef.current?.click()] *)
| ReadAsText (f : File)                    (** [reader.readAsText(file)] *)
| Fetch (r : Request).                     (** [fetch(url, init)] *)

(** ** Lemmas on the array methods *)

(** [obj[k'] = v] then [obj[k]]. *)
Lemma prop_lookup_obj_set {V} k k' (v : V) fs :
  prop_lookup k (obj_set k' v fs) = if String.eqb k k' then Some v else prop_lookup k fs.
Proof.
  induction fs as [|[k'' w] fs IH]; simpl; [done|].
  destruct (String.eqb_spec k' k'') as [<-|Hne]; simpl.
  - by destruct (String.eqb k k').
  - rewrite IH. destruct (String.eqb_spec k k'') as [->|]; [|done].
    destruct (String.eqb_spec k'' k'); [congruence|done].
Qed.

(** [l.filter(f)] keeps a sublist: what holds of every element of [l]
    holds of every element of the result. *)
Lemma js_filter_Forall {A} (P : A -> Prop) f l l' :
  Forall P l -> js_filter f l = Ok l' -> Forall P l'.
Proof.
  intros Hl. revert l'. induction Hl as [|x l Hx Hl IH]; simpl; intros l'; [by intros [= <-]|].
  destruct (f x) as [[]|]; cbn [mbind res_bind]; [| |done];
    destruct (js_filter f l) as [r|]; cbn [mbind res_bind]; try done;
    intros [= <-]; [constructor|]; auto.
Qed.
