(* ===== verification/Canvas.v ===== *)
(** * The canvas document model: the [App] component of HW2

    Models [src/HW2/src/App.tsx].  The component's [useState] hooks
    become the fields of the record [App]; each handler becomes a
    function from the state (and the event's data) to the next state.
    React's functional updates ([setShapes(prev => ...)]) read the
    latest state, so applying a handler to the current record is their
    exact meaning.

    The title and the shapes are JavaScript values ([jval]): the
    component stores what [JSON.parse] returned on import, whatever its
    shape, so the model does too.  A shape placed by a click or a drop
    is the object literal [{id, type, x, y}] ([shape_obj]).

    The data each event brings from the host is an argument of its
    handler: [uuid] is the value of [crypto.randomUUID()], and [(x, y)]
    is the point [pt.matrixTransform(svg.getScreenCTM()?.inverse())]
    computed from the mouse position. *)

From S2P Require Import Prelude JsValue.
From Stdlib Require Import String Ascii ZArith Lia.
From stdpp Require Import base list strings.

Module Canvas.

(** ** Data *)

(** [type ShapeType = "circle" | "square" | "triangle"] *)
Inductive ShapeType : Type :=
| circle
| square
| triangle.

#[export] Instance ShapeType_eq_dec : EqDecision ShapeType.
Proof. solve_decision. Defined.

(** The string each member of the union type is. *)
Definition shape_type_name (t : ShapeType) : string :=
  match t with
  | circle => "circle"
  | square => "square"
  | triangle => "triangle"
  end.

(** [interface Shape { id: string; type: ShapeType; x: number; y: number }] *)
Record Shape : Type := mkShape {
  shape_id : string;
  shape_type : ShapeType;
  shape_x : Z;
  shape_y : Z
}.

(** The object literal [{ id, type, x, y }] a placement builds. *)
Definition shape_obj (s : Shape) : jval :=
  JObj [("id", JStr (shape_id s));
        ("type", JStr (shape_type_name (shape_type s)));
        ("x", JNum (shape_x s));
        ("y", JNum (shape_y s))].

(** The state hooks of [App]. *)
Record App : Type := mkApp {
  title : jval;                      (** [useState<string>("Untitled")] *)
  shapes : list jval;                (** [useState<Shape[]>([])] *)
  selectedShape : ShapeType;         (** [useState<ShapeType>("circle")] *)
  draggedShape : option ShapeType    (** [useState<ShapeType | null>(null)] *)
}.

Definition initial_app : App :=
  {| title := JStr "Untitled"; shapes := [];
     selectedShape := circle; draggedShape := None |}.

(** Record updates, one per state setter. *)
Definition setTitle (v : jval) (a : App) : App :=
  {| title := v; shapes := shapes a;
     selectedShape := selectedShape a; draggedShape := draggedShape a |}.

Definition setShapes (l : list jval) (a : App) : App :=
  {| title := title a; shapes := l;
     selectedShape := selectedShape a; draggedShape := draggedShape a |}.

Definition setSelectedShape (t : ShapeType) (a : App) : App :=
  {| title := title a; shapes := shapes a;
     selectedShape := t; draggedShape := draggedShape a |}.

Definition setDraggedShape (t : option ShapeType) (a : App) : App :=
  {| title := title a; shapes := shapes a;
     selectedShape := selectedShape a; draggedShape := t |}.

(** ** Handlers *)

(** [handleCanvasClick]: the guard [if (!selectedShape) return;], then
    a new shape of the selected type at the transformed point is
    appended. *)
Definition handleCanvasClick (uuid : string) (pt : Z * Z) (a : App) : App :=
  if negb (truthy (Some (JStr (shape_type_name (selectedShape a))))) then a
  else
    let newShape := mkShape uuid (selectedShape a) pt.1 pt.2 in
    setShapes (shapes a ++ [shape_obj newShape]) a.

(** [handleDragStart]: remembers the tool being dragged. *)
Definition handleDragStart (t : ShapeType) (a : App) : App :=
  setDraggedShape (Some t) a.

(** [handleDrop]: without a dragged tool the drop is ignored; otherwise
    a shape of the dragged type is appended and the dragged tool is
    cleared. *)
Definition handleDrop (uuid : string) (pt : Z * Z) (a : App) : App :=
  match draggedShape a with
  | None => a
  | Some t =>
      let newShape := mkShape uuid t pt.1 pt.2 in
      setDraggedShape None (setShapes (shapes a ++ [shape_obj newShape]) a)
  end.

(** The callback [(shape) => shape.id !== id]; reading [id] of a
    [null] element throws. *)
Definition keep_shape (id : jval) (shape : jval) : res bool :=
  sid ← get_prop shape "id";
  Ok (negb (strict_eq sid (Some id))).

(** [handleDeleteShape]: [prevShapes.filter((shape) => shape.id !== id)]. *)
Definition handleDeleteShape (id : jval) (a : App) : res App :=
  l ← js_filter (keep_shape id) (shapes a);
  Ok (setShapes l a).

(** ** The per-type counts ([shapeCounts]) *)

(** The accumulator object: [{ circle: 0, square: 0, triangle: 0 }],
    extended with a key for every other type value met. *)
Definition ShapeCounts := list (string * Z).

Definition initial_counts : ShapeCounts :=
  [("circle", 0%Z); ("square", 0%Z); ("triangle", 0%Z)].

(** [(acc, shape) => { acc[shape.type] = (acc[shape.type] || 0) + 1;
    return acc; }]: the key is String(shape.type); the counts stored
    are numbers, so [|| 0] maps a missing key to 0. *)
Definition count_step (acc : ShapeCounts) (shape : jval) : res ShapeCounts :=
  ty ← get_prop shape "type";
  let key := js_to_string ty in
  let old := match prop_lookup key acc with
             | Some n => if Z.eqb n 0 then 0%Z else n
             | None => 0%Z
             end in
  Ok (obj_set key (old + 1)%Z acc).

(** [shapeCounts = shapes.reduce(count_step, {circle: 0, ...})]. *)
Definition shapeCounts (l : list jval) : res ShapeCounts :=
  js_reduce count_step l initial_counts.

(** The count the footer shows for one tool: [counts.circle] etc. *)
Definition count_of (t : ShapeType) (c : ShapeCounts) : Z :=
  match prop_lookup (shape_type_name t) c with
  | Some n => n
  | None => 0%Z
  end.

(** ** Events and reachable states *)

(** The events the canvas handles locally, one per handler. *)
Inductive canvas_event : Type :=
| EvSetTitle (s : string)                  (** [Header]'s [onChange] *)
| EvSelectShape (t : ShapeType)            (** [Toolbar]'s [onClick] *)
| EvDragStart (t : ShapeType)              (** [Toolbar]'s [onDragStart] *)
| EvCanvasClick (uuid : string) (pt : Z * Z)
| EvDrop (uuid : string) (pt : Z * Z)
| EvDeleteShape (id : jval).               (** [Shape]'s [onDoubleClick] *)

Definition canvas_dispatch (e : canvas_event) (a : App) : res App :=
  match e with
  | EvSetTitle s => Ok (setTitle (JStr s) a)
  | EvSelectShape t => Ok (setSelectedShape t a)
  | EvDragStart t => Ok (handleDragStart t a)
  | EvCanvasClick u pt => Ok (handleCanvasClick u pt a)
  | EvDrop u pt => Ok (handleDrop u pt a)
  | EvDeleteShape id => handleDeleteShape id a
  end.

(** The string id of a shape object, if it has one. *)
Definition jval_id (v : jval) : option string :=
  match v with
  | JObj fs => match prop_lookup "id" fs with
               | Some (JStr s) => Some s
               | _ => None
               end
  | _ => None
  end.

(** The member of [ShapeType] a string is, if it is one. *)
Definition shape_type_of (t : string) : option ShapeType :=
  if String.eqb t "circle" then Some circle
  else if String.eqb t "square" then Some square
  else if String.eqb t "triangle" then Some triangle
  else None.

(** A value read at the TypeScript interface [Shape]: an object whose
    [id] is a string, whose [type] is a member of [ShapeType] and whose
    [x] and [y] are numbers ([None]: the value does not have the type). *)
Definition shape_of (v : jval) : option Shape :=
  match v with
  | JObj fs =>
      match prop_lookup "id" fs, prop_lookup "type" fs, prop_lookup "x" fs, prop_lookup "y" fs with
      | Some (JStr i), Some (JStr t), Some (JNum x), Some (JNum y) =>
          match shape_type_of t with
          | Some ty => Some (mkShape i ty x y)
          | None => None
          end
      | _, _, _, _ => None
      end
  | _ => None
  end.

(** [crypto.randomUUID()] returned an id no shape has. *)
Definition fresh_for (e : canvas_event) (a : App) : Prop :=
  match e with
  | EvCanvasClick u _ | EvDrop u _ => u ∉ omap jval_id (shapes a)
  | _ => True
  end.

(** The document invariant: the shapes are shape objects, with pairwise
    distinct ids. *)
Definition wf_doc (l : list jval) : Prop :=
  exists ss, l = map shape_obj ss /\ NoDup (map shape_id ss).

(** States the canvas reaches from its initial state through its local
    handlers, with identifiers from [crypto.randomUUID()] that are new. *)
Inductive reachable : App -> Prop :=
| reach_init : reachable initial_app
| reach_step a e a' :
    reachable a -> fresh_for e a -> canvas_dispatch e a = Ok a' -> reachable a'.

(** The number of shapes of type [t], as a JavaScript number. *)
Definition count_type (t : ShapeType) (ss : list Shape) : Z :=
  Z.of_nat (length (List.filter (fun s => bool_decide (shape_type s = t)) ss)).

(** The accumulator holding exactly the three tool counts. *)
Definition counts3 (c s t : Z) : ShapeCounts :=
  [("circle", c); ("square", s); ("triangle", t)].

(** [n] clicks on the canvas, each with its identifier and point. *)
Definition place_all (cs : list (string * (Z * Z))) (a : App) : App :=
  foldl (fun a c => handleCanvasClick c.1 c.2 a) a cs.

(** Events that leave the dragged tool alone. *)
Definition keeps_drag (e : canvas_event) : bool :=
  match e with
  | EvDragStart _ | EvDrop _ _ => false
  | _ => true
  end.

(** Run events in order, stopping at the first exception. *)
Fixpoint run_events (es : list canvas_event) (a : App) : res App :=
  match es with
  | [] => Ok a
  | e :: es' => a' ← canvas_dispatch e a; run_events es' a'
  end.

(** ** Lemmas on shape objects *)

Lemma get_prop_shape_id s :
  get_prop (shape_obj s) "id" = Ok (Some (JStr (shape_id s))).
Proof. reflexivity. Qed.

Lemma get_prop_shape_type s :
  get_prop (shape_obj s) "type" = Ok (Some (JStr (shape_type_name (shape_type s)))).
Proof. reflexivity. Qed.

Lemma shape_of_obj s : shape_of (shape_obj s) = Some s.
Proof. by destruct s as [? [] ? ?]. Qed.

Lemma jval_id_shape_obj s : jval_id (shape_obj s) = Some (shape_id s).
Proof. reflexivity. Qed.

Lemma omap_jval_id_shapes ss : omap jval_id (map shape_obj ss) = map shape_id ss.
Proof. induction ss as [|s ss IH]; [done|]. simpl. f_equal. exact IH. Qed.

#[export] Hint Rewrite get_prop_shape_id get_prop_shape_type jval_id_shape_obj
  omap_jval_id_shapes : webapp_rw.

(** The filter of [handleDeleteShape] on shape objects never throws and
    keeps the shapes whose id differs. *)
Lemma js_filter_keep_shape id ss :
  js_filter (keep_shape id) (map shape_obj ss) =
  Ok (map shape_obj
        (List.filter (fun s => negb (strict_eq (Some (JStr (shape_id s))) (Some id))) ss)).
Proof.
  induction ss as [|s ss IH]; [done|]. cbn [map js_filter]. rewrite IH.
  cbn. by destruct (negb _).
Qed.

Lemma js_or_zero (n : Z) : (if Z.eqb n 0 then 0%Z else n) = n.
Proof. by destruct (Z.eqb_spec n 0). Qed.

(** One step of the reduction on a shape object bumps its tool's count. *)
Lemma count_step_shape c sq t s :
  count_step (counts3 c sq t) (shape_obj s) =
  Ok (match shape_type s with
      | circle => counts3 (c + 1) sq t
      | square => counts3 c (sq + 1) t
      | triangle => counts3 c sq (t + 1)
      end).
Proof.
  unfold count_step. rewrite get_prop_shape_type. simpl.
  destruct (shape_type s); simpl; by rewrite js_or_zero.
Qed.

Lemma js_reduce_counts ss c sq t :
  js_reduce count_step (map shape_obj ss) (counts3 c sq t) =
  Ok (counts3 (c + count_type circle ss) (sq + count_type square ss)
              (t + count_type triangle ss)).
Proof.
  revert c sq t. induction ss as [|s ss IH]; intros c sq t.
  - simpl. unfold counts3, count_type. simpl. by rewrite !Z.add_0_r.
  - cbn [map js_reduce]. rewrite count_step_shape. unfold count_type.
    destruct (shape_type s) eqn:Ht; cbn [res_bind mbind]; rewrite IH;
      unfold count_type; cbn [List.filter]; rewrite Ht;
      repeat (case_bool_decide; try congruence); cbn [length];
      f_equal; f_equal; lia.
Qed.

(** A [null] element makes the reduction throw, whatever the rest. *)
Lemma js_reduce_count_null l acc :
  JNull ∈ l -> js_reduce count_step l acc = Throw TypeError.
Proof.
  revert acc. induction l as [|v l IH]; intros acc Hin; [by apply not_elem_of_nil in Hin|].
  apply elem_of_cons in Hin as [<-|Hin]; [done|]. simpl.
  destruct (count_step acc v) as [acc'|e] eqn:He; simpl; [by apply IH|].
  unfold count_step in He. destruct v; simpl in He; congruence.
Qed.

(** ** Lemmas on the handlers *)

Lemma strict_eq_str a b : strict_eq (Some (JStr a)) (Some (JStr b)) = String.eqb a b.
Proof. reflexivity. Qed.

(** The guard [if (!selectedShape) return;] never fires: a click always
    places a shape. *)
Lemma handleCanvasClick_eq u pt a :
  handleCanvasClick u pt a =
  setShapes (shapes a ++ [shape_obj (mkShape u (selectedShape a) pt.1 pt.2)]) a.
Proof. unfold handleCanvasClick. by destruct (selectedShape a). Qed.

Lemma handleCanvasClick_shapes u pt a :
  shapes (handleCanvasClick u pt a) =
  shapes a ++ [shape_obj (mkShape u (selectedShape a) pt.1 pt.2)].
Proof. by rewrite handleCanvasClick_eq. Qed.

Lemma handleCanvasClick_selected u pt a :
  selectedShape (handleCanvasClick u pt a) = selectedShape a.
Proof. by rewrite handleCanvasClick_eq. Qed.

Lemma handleCanvasClick_dragged u pt a :
  draggedShape (handleCanvasClick u pt a) = draggedShape a.
Proof. by rewrite handleCanvasClick_eq. Qed.

(** Removing one id from a list where ids are distinct removes exactly
    one element. *)
Lemma filter_remove_unique i ss :
  NoDup (map shape_id ss) -> i ∈ map shape_id ss ->
  length (List.filter (fun s => negb (String.eqb (shape_id s) i)) ss) = length ss - 1.
Proof.
  induction ss as [|s ss IH]; simpl; intros Hnd Hin; [by apply not_elem_of_nil in Hin|].
  apply NoDup_cons in Hnd as [Hs Hnd].
  destruct (String.eqb_spec (shape_id s) i) as [<-|Hne]; simpl.
  - rewrite filter_all_true; [lia|]. apply Forall_forall. intros s' Hs'.
    destruct (String.eqb_spec (shape_id s') (shape_id s)) as [Heq|]; [|done].
    exfalso. apply Hs. rewrite list_elem_of_In, <- Heq. apply in_map.
    by apply list_elem_of_In.
  - apply elem_of_cons in Hin as [->|Hin]; [done|].
    rewrite IH; [|done|done]. destruct ss; [by apply not_elem_of_nil in Hin|]. simpl. lia.
Qed.

Lemma filter_removes_id i ss :
  i ∉ map shape_id (List.filter (fun s => negb (String.eqb (shape_id s) i)) ss).
Proof.
  rewrite list_elem_of_In. intros (s & Hs & Hin)%in_map_iff.
  apply filter_In in Hin as [_ Hf]. rewrite Hs, String.eqb_refl in Hf. discriminate.
Qed.

(** [handleDeleteShape] on a document of shape objects. *)
Lemma handleDeleteShape_doc i ss a :
  shapes a = map shape_obj ss ->
  handleDeleteShape (JStr i) a =
  Ok (setShapes (map shape_obj
       (List.filter (fun s => negb (String.eqb (shape_id s) i)) ss)) a).
Proof.
  intros Hs. unfold handleDeleteShape. rewrite Hs, js_filter_keep_shape. done.
Qed.

(** Each local handler keeps the document invariant, given a fresh id. *)
Lemma canvas_dispatch_wf e a a' :
  wf_doc (shapes a) -> fresh_for e a -> canvas_dispatch e a = Ok a' ->
  wf_doc (shapes a').
Proof.
  intros (ss & Hs & Hnd) Hfresh Hd.
  destruct e as [s|t|t|u pt|u pt|id]; simpl in Hd, Hfresh.
  - injection Hd as <-. by exists ss.
  - injection Hd as <-. by exists ss.
  - injection Hd as <-. by exists ss.
  - injection Hd as <-. rewrite handleCanvasClick_shapes, Hs.
    exists (ss ++ [mkShape u (selectedShape a) pt.1 pt.2]).
    rewrite Hs, omap_jval_id_shapes in Hfresh.
    split; [by rewrite map_app | by apply NoDup_map_snoc].
  - injection Hd as <-. unfold handleDrop. destruct (draggedShape a) as [t|]; [|by exists ss].
    exists (ss ++ [mkShape u t pt.1 pt.2]). simpl.
    rewrite Hs, omap_jval_id_shapes in Hfresh.
    split; [by rewrite Hs, map_app | by apply NoDup_map_snoc].
  - unfold handleDeleteShape in Hd. rewrite Hs, js_filter_keep_shape in Hd.
    injection Hd as <-. eexists. split; [reflexivity|]. by apply NoDup_map_filter.
Qed.

Lemma count_type_total ss :
  (count_type circle ss + count_type square ss + count_type triangle ss)%Z =
  Z.of_nat (length ss).
Proof.
  unfold count_type. induction ss as [|s ss IH]; [done|]. simpl.
  destruct (shape_type s); repeat (case_bool_decide; try congruence); simpl; lia.
Qed.

Lemma place_all_shapes cs a :
  shapes (place_all cs a) =
  shapes a ++ map (fun c => shape_obj (mkShape c.1 (selectedShape a) c.2.1 c.2.2)) cs
  /\ selectedShape (place_all cs a) = selectedShape a.
Proof.
  revert a. induction cs as [|c cs IH]; intros a; simpl.
  - by rewrite app_nil_r.
  - destruct (IH (handleCanvasClick c.1 c.2 a)) as [H1 H2].
    rewrite H1, H2, handleCanvasClick_shapes, handleCanvasClick_selected.
    by rewrite <- app_assoc.
Qed.

Lemma keeps_drag_dispatch e a a' :
  keeps_drag e = true -> canvas_dispatch e a = Ok a' -> draggedShape a' = draggedShape a.
Proof.
  destruct e; simpl; intros Hk Hd; try discriminate.
  all: try (injection Hd as <-; first [reflexivity | apply handleCanvasClick_dragged]).
  unfold handleDeleteShape in Hd.
  destruct (js_filter _ _); simpl in Hd; [by injection Hd as <- | discriminate].
Qed.

Lemma run_events_keeps_drag es a a' :
  Forall (fun e => keeps_drag e = true) es -> run_events es a = Ok a' ->
  draggedShape a' = draggedShape a.
Proof.
  intros Hall. revert a. induction Hall as [|e es He _ IH]; intros a Hr; simpl in Hr.
  - by injection Hr as <-.
  - destruct (canvas_dispatch e a) as [a1|] eqn:Hd; simpl in Hr; [|discriminate].
    rewrite (IH _ Hr). by eapply keeps_drag_dispatch.
Qed.

(** ** Properties *)

(** C1. Invariant: in every state the canvas reaches through its
    handlers, with fresh identifiers from [crypto.randomUUID()], the
    shapes are shape objects [{id, type, x, y}] whose ids are pairwise
    distinct. *)
Theorem reachable_wf_doc a : reachable a -> wf_doc (shapes a).
Proof.
  induction 1 as [|a e a' _ IH Hfresh Hd].
  - exists []. split; [done | constructor].
  - by eapply canvas_dispatch_wf.
Qed.

(** Witness of C1: a click and a drop with fresh ids reach a state. *)
Lemma reachable_wf_doc_witness :
  reachable (handleDrop "b" (5, 6)%Z (handleDragStart square
    (handleCanvasClick "a" (1, 2)%Z initial_app))) /\
  wf_doc (shapes (handleDrop "b" (5, 6)%Z (handleDragStart square
    (handleCanvasClick "a" (1, 2)%Z initial_app)))).
Proof.
  assert (H : reachable (handleDrop "b" (5, 6)%Z (handleDragStart square
    (handleCanvasClick "a" (1, 2)%Z initial_app)))).
  { apply (reach_step (handleDragStart square (handleCanvasClick "a" (1, 2)%Z initial_app))
                       (EvDrop "b" (5, 6)%Z)); [|cbn [fresh_for]; decide_by_eval|reflexivity].
    apply (reach_step (handleCanvasClick "a" (1, 2)%Z initial_app) (EvDragStart square));
      [|exact I|reflexivity].
    apply (reach_step initial_app (EvCanvasClick "a" (1, 2)%Z));
      [exact reach_init|cbn [fresh_for]; decide_by_eval|reflexivity]. }
  split; [exact H | exact (reachable_wf_doc _ H)].
Defined.

(** C2. Deletion ([handleDeleteShape]): on a document whose shapes have
    distinct ids, deleting an id that occurs never throws, removes
    exactly one shape, leaves no shape with that id, and keeps the
    other shapes in their order. *)
Theorem handleDeleteShape_removes_one i ss a :
  shapes a = map shape_obj ss -> NoDup (map shape_id ss) -> i ∈ map shape_id ss ->
  exists ss',
    handleDeleteShape (JStr i) a = Ok (setShapes (map shape_obj ss') a) /\
    ss' = List.filter (fun s => negb (String.eqb (shape_id s) i)) ss /\
    length ss' = length ss - 1 /\
    i ∉ map shape_id ss'.
Proof.
  intros Hs Hnd Hin. eexists. split; [by apply handleDeleteShape_doc|].
  split; [reflexivity|]. split; [by apply filter_remove_unique | apply filter_removes_id].
Qed.

(** Witness of C2: three shapes, the middle one deleted. *)
Lemma handleDeleteShape_removes_one_witness :
  exists ss',
    handleDeleteShape (JStr "b")
      (place_all [("a", (0, 0)%Z); ("b", (1, 1)%Z); ("c", (2, 2)%Z)] initial_app) =
      Ok (setShapes (map shape_obj ss')
            (place_all [("a", (0, 0)%Z); ("b", (1, 1)%Z); ("c", (2, 2)%Z)] initial_app)) /\
    ss' = List.filter (fun s => negb (String.eqb (shape_id s) "b"))
            [mkShape "a" circle 0 0; mkShape "b" circle 1 1; mkShape "c" circle 2 2] /\
    length ss' = 2 /\ "b" ∉ map shape_id ss'.
Proof.
  apply (handleDeleteShape_removes_one "b"
           [mkShape "a" circle 0 0; mkShape "b" circle 1 1; mkShape "c" circle 2 2]).
  - reflexivity.
  - decide_by_eval.
  - decide_by_eval.
Defined.

(** Placing then deleting (spec, section 8): after [n] clicks on
    the initial canvas with distinct identifiers, deleting one of them
    leaves exactly [n - 1] shapes, none with the deleted id. *)
Theorem place_then_delete cs u :
  NoDup (map fst cs) -> u ∈ map fst cs ->
  exists a', handleDeleteShape (JStr u) (place_all cs initial_app) = Ok a' /\
             length (shapes a') = length cs - 1 /\
             u ∉ omap jval_id (shapes a').
Proof.
  intros Hnd Hin.
  set (ss := map (fun c => mkShape c.1 circle c.2.1 c.2.2) cs).
  assert (Hss : shapes (place_all cs initial_app) = map shape_obj ss).
  { rewrite (proj1 (place_all_shapes cs initial_app)). simpl. subst ss. by rewrite map_map. }
  assert (Hids : map shape_id ss = map fst cs) by (subst ss; by rewrite map_map).
  eexists. split; [by apply handleDeleteShape_doc|]. simpl.
  rewrite length_map, omap_jval_id_shapes, filter_remove_unique by congruence.
  split; [subst ss; by rewrite length_map | apply filter_removes_id].
Qed.

(** Witness of C3. *)
Lemma place_then_delete_witness :
  exists a', handleDeleteShape (JStr "y")
               (place_all [("x", (3, 4)%Z); ("y", (7, 8)%Z)] initial_app) = Ok a' /\
             length (shapes a') = 1 /\ "y" ∉ omap jval_id (shapes a').
Proof.
  apply (place_then_delete [("x", (3, 4)%Z); ("y", (7, 8)%Z)] "y").
  - decide_by_eval.
  - decide_by_eval.
Defined.

(** C3. The footer counts ([shapeCounts]): on a document of shape
    objects the reduction never throws, yields exactly the three keys
    [circle], [square], [triangle] holding the number of shapes of each
    type, and the three counts add up to the number of shapes. *)
Theorem shapeCounts_doc ss :
  shapeCounts (map shape_obj ss) =
    Ok (counts3 (count_type circle ss) (count_type square ss) (count_type triangle ss)) /\
  (count_of circle (counts3 (count_type circle ss) (count_type square ss) (count_type triangle ss)) +
   count_of square (counts3 (count_type circle ss) (count_type square ss) (count_type triangle ss)) +
   count_of triangle (counts3 (count_type circle ss) (count_type square ss) (count_type triangle ss)))%Z
  = Z.of_nat (length ss).
Proof.
  split.
  - unfold shapeCounts. exact (js_reduce_counts ss 0 0 0).
  - apply count_type_total.
Qed.

(** C4. The dragged tool is never cleared except by a drop: after
    [handleDragStart t], any sequence of clicks, tool selections, title
    edits and deletions leaves [draggedShape = t], so the next drop on
    the canvas places a [t] even when the drag that set it ended
    elsewhere (there is no [onDragEnd] handler). *)
Theorem abandoned_drag_places_shape t es a a' u pt :
  Forall (fun e => keeps_drag e = true) es ->
  run_events es (handleDragStart t a) = Ok a' ->
  shapes (handleDrop u pt a') = shapes a' ++ [shape_obj (mkShape u t pt.1 pt.2)] /\
  draggedShape (handleDrop u pt a') = None.
Proof.
  intros Hall Hr. pose proof (run_events_keeps_drag _ _ _ Hall Hr) as Hdr.
  simpl in Hdr. unfold handleDrop. by rewrite Hdr.
Qed.

(** Witness of C4: drag a triangle, click twice elsewhere, then drop. *)
Lemma abandoned_drag_places_shape_witness :
  let a' := handleCanvasClick "p2" (3, 3)%Z (handleCanvasClick "p1" (2, 2)%Z
              (handleDragStart triangle initial_app)) in
  Forall (fun e => keeps_drag e = true)
    [EvCanvasClick "p1" (2, 2)%Z; EvCanvasClick "p2" (3, 3)%Z] /\
  shapes (handleDrop "d" (9, 9)%Z a') =
    shapes a' ++ [shape_obj (mkShape "d" triangle 9 9)] /\
  draggedShape (handleDrop "d" (9, 9)%Z a') = None.
Proof.
  intros a'. split; [repeat constructor|].
  apply (abandoned_drag_places_shape triangle
           [EvCanvasClick "p1" (2, 2)%Z; EvCanvasClick "p2" (3, 3)%Z]
           initial_app a' "d" (9, 9)%Z); [repeat constructor | reflexivity].
Defined.

End Canvas.
