(* ===== verification/Json.v ===== *)
(** * JSON.stringify and JSON.parse

    The painting is serialised with [JSON.stringify(data, null, 2)] by
    [handleExport] and with [JSON.stringify(paintingData)] by
    [handleSave]; it is read back with [JSON.parse] by the file reader's
    [onload] and by [response.json()].  These are host functions, so
    they are modelled from ECMA-262 (SerializeJSONProperty,
    QuoteJSONString, SerializeJSONObject, SerializeJSONArray) and from
    the JSON grammar of ECMA-404.

    [ser gap indent v] is SerializeJSONProperty with the gap string
    [gap] and the current indentation [indent].  The parser is a set of
    mutually recursive functions on a fuel argument; [JSON_parse] gives
    it one unit per input character plus one, which is enough because
    every nesting level and every element consumes a character.

    Numbers are integers (see the root file): a number with a fraction
    or an exponent is outside the model and [parse_number] rejects it.
    A [\u] escape above [00ff] denotes a code unit outside the model
    and is rejected as well. *)

From S2P Require Import Prelude JsValue.
From Stdlib Require Import String Ascii ZArith NArith Lia.
From stdpp Require Import base list strings.

Module Json.

(** ** Characters *)

Definition dq : ascii := "034"%char.   (** the double quote *)
Definition bs : ascii := "092"%char.   (** the backslash *)

Definition is_digit (c : ascii) : bool :=
  (48 <=? N_of_ascii c)%N && (N_of_ascii c <=? 57)%N.

Definition digit_val (c : ascii) : N := (N_of_ascii c - 48)%N.

(** JSON whitespace: tab, line feed, carriage return, space. *)
Definition is_ws (c : ascii) : bool :=
  match N_of_ascii c with
  | 9%N | 10%N | 13%N | 32%N => true
  | _ => false
  end.

Definition hex_char (n : N) : ascii :=
  if (n <? 10)%N then ascii_of_N (48 + n) else ascii_of_N (87 + n).

(** The value of a hexadecimal digit of either case. *)
Definition hex_val (c : ascii) : option N :=
  let n := N_of_ascii c in
  if (48 <=? n)%N && (n <=? 57)%N then Some (n - 48)%N
  else if (97 <=? n)%N && (n <=? 102)%N then Some (n - 87)%N
  else if (65 <=? n)%N && (n <=? 70)%N then Some (n - 55)%N
  else None.

(** ** Serialisation *)

(** QuoteJSONString, one code unit. *)
Definition quote_char (c : ascii) : string :=
  match N_of_ascii c with
  | 8%N => String bs "b"
  | 9%N => String bs "t"
  | 10%N => String bs "n"
  | 12%N => String bs "f"
  | 13%N => String bs "r"
  | 34%N => String bs (String dq EmptyString)
  | 92%N => String bs (String bs EmptyString)
  | n => if (n <? 32)%N
         then String bs (String "u" (String "0" (String "0"
                (String (hex_char (n / 16)) (String (hex_char (n mod 16)) EmptyString)))))
         else String c EmptyString
  end.

Fixpoint quote_body (s : string) : string :=
  match s with
  | EmptyString => EmptyString
  | String c s' => quote_char c ++ quote_body s'
  end.

Definition quote (s : string) : string :=
  String dq (quote_body s ++ String dq EmptyString).

Section Stringify.
Variable gap : string.

(** A line break and an indentation, when the gap is not empty. *)
Definition lf (indent : string) : string :=
  match gap with
  | EmptyString => EmptyString
  | _ => String "010"%char indent
  end.

(** The separator between a key and its value. *)
Definition colon : string :=
  match gap with
  | EmptyString => ":"
  | _ => ": "
  end.

Fixpoint ser (indent : string) (v : jval) : string :=
  match v with
  | JNull => "null"
  | JBool true => "true"
  | JBool false => "false"
  | JNum n => Z_to_dec n
  | JStr s => quote s
  | JArr [] => "[]"
  | JArr xs =>
      "[" ++ lf (indent ++ gap) ++
        String.concat ("," ++ lf (indent ++ gap)) (map (ser (indent ++ gap)) xs) ++
        lf indent ++ "]"
  | JObj [] => "{}"
  | JObj fs =>
      "{" ++ lf (indent ++ gap) ++
        String.concat ("," ++ lf (indent ++ gap))
          (map (fun kv => quote kv.1 ++ colon ++ ser (indent ++ gap) kv.2) fs) ++
        lf indent ++ "}"
  end%string.
End Stringify.

(** [JSON.stringify(v, null, gap)]; [JSON.stringify(v)] has the empty gap. *)
Definition JSON_stringify (v : jval) (gap : string) : string := ser gap "" v.

(** ** Parsing *)

Fixpoint skip_ws (s : string) : string :=
  match s with
  | String c s' => if is_ws c then skip_ws s' else s
  | EmptyString => EmptyString
  end.

(** The characters of a string literal after its opening quote, up to
    and including the closing quote. *)
Fixpoint parse_string_body (s : string) : option (string * string) :=
  match s with
  | EmptyString => None
  | String c s' =>
      if Ascii.eqb c dq then Some (EmptyString, s')
      else if Ascii.eqb c bs then
        match s' with
        | String e s'' =>
            let esc r := match parse_string_body s'' with
                         | Some (t, rest) => Some (String r t, rest)
                         | None => None
                         end in
            match N_of_ascii e with
            | 34%N => esc dq
            | 92%N => esc bs
            | 47%N => esc "/"%char
            | 98%N => esc "008"%char
            | 102%N => esc "012"%char
            | 110%N => esc "010"%char
            | 114%N => esc "013"%char
            | 116%N => esc "009"%char
            | 117%N =>
                match s'' with
                | String h1 (String h2 (String h3 (String h4 s4))) =>
                    match hex_val h1, hex_val h2, hex_val h3, hex_val h4 with
                    | Some a, Some b, Some c3, Some d =>
                        let code := (((a * 16 + b) * 16 + c3) * 16 + d)%N in
                        if (code <? 256)%N then
                          match parse_string_body s4 with
                          | Some (t, rest) => Some (String (ascii_of_N code) t, rest)
                          | None => None
                          end
                        else None
                    | _, _, _, _ => None
                    end
                | _ => None
                end
            | _ => None
            end
        | EmptyString => None
        end
      else if (N_of_ascii c <? 32)%N then None
      else match parse_string_body s' with
           | Some (t, rest) => Some (String c t, rest)
           | None => None
           end
  end.

(** The digits following a first digit, accumulated into a value. *)
Fixpoint scan_digits (s : string) (acc : N) : N * string :=
  match s with
  | String c s' => if is_digit c then scan_digits s' (acc * 10 + digit_val c)%N else (acc, s)
  | EmptyString => (acc, EmptyString)
  end.

(** A number is followed by something other than a fraction or an
    exponent. *)
Definition integer_end (s : string) : bool :=
  match s with
  | String c _ => negb (Ascii.eqb c "."%char || Ascii.eqb c "e"%char || Ascii.eqb c "E"%char)
  | EmptyString => true
  end.

(** [0 | [1-9][0-9]*], the digits of an integer. *)
Definition parse_digits (s : string) : option (N * string) :=
  match s with
  | String c s' =>
      if Ascii.eqb c "0"%char then Some (0%N, s')
      else if is_digit c then Some (scan_digits s' (digit_val c))
      else None
  | EmptyString => None
  end.

(** [-? (0 | [1-9][0-9]* )], not followed by a fraction or an exponent. *)
Definition parse_number (s : string) : option (Z * string) :=
  let '(neg, s1) := match s with
                    | String c s' => if Ascii.eqb c "-"%char then (true, s') else (false, s)
                    | EmptyString => (false, s)
                    end in
  match parse_digits s1 with
  | Some (n, rest) =>
      if integer_end rest then Some ((if neg then - Z.of_N n else Z.of_N n)%Z, rest)
      else None
  | None => None
  end.

(** [s] starts with the literal [lit]; the rest follows. *)
Fixpoint expect (lit s : string) : option string :=
  match lit, s with
  | EmptyString, _ => Some s
  | String a lit', String b s' => if Ascii.eqb a b then expect lit' s' else None
  | String _ _, EmptyString => None
  end.

Fixpoint parse_value (fuel : nat) (s : string) {struct fuel} : option (jval * string) :=
  match fuel with
  | O => None
  | S f =>
      match s with
      | String c s' =>
          if Ascii.eqb c "n"%char then option_map (fun r => (JNull, r)) (expect "ull" s')
          else if Ascii.eqb c "t"%char then option_map (fun r => (JBool true, r)) (expect "rue" s')
          else if Ascii.eqb c "f"%char then option_map (fun r => (JBool false, r)) (expect "alse" s')
          else if Ascii.eqb c dq then
            option_map (fun p => (JStr p.1, p.2)) (parse_string_body s')
          else if Ascii.eqb c "["%char then
            match skip_ws s' with
            | String d rest =>
                if Ascii.eqb d "]"%char then Some (JArr [], rest)
                else parse_elems f (String d rest) []
            | EmptyString => None
            end
          else if Ascii.eqb c "{"%char then
            match skip_ws s' with
            | String d rest =>
                if Ascii.eqb d "}"%char then Some (JObj [], rest)
                else parse_members f (String d rest) []
            | EmptyString => None
            end
          else option_map (fun p => (JNum p.1, p.2)) (parse_number s)
      | EmptyString => None
      end
  end
(** The elements of an array after [[], [acc] holding those read. *)
with parse_elems (fuel : nat) (s : string) (acc : list jval) {struct fuel}
  : option (jval * string) :=
  match fuel with
  | O => None
  | S f =>
      match parse_value f s with
      | Some (v, s1) =>
          match skip_ws s1 with
          | String d s2 =>
              if Ascii.eqb d ","%char then parse_elems f (skip_ws s2) (acc ++ [v])
              else if Ascii.eqb d "]"%char then Some (JArr (acc ++ [v]), s2)
              else None
          | EmptyString => None
          end
      | None => None
      end
  end
(** The members of an object after [{]; a repeated key keeps its first
    position and takes the last value (CreateDataProperty). *)
with parse_members (fuel : nat) (s : string) (acc : list (string * jval)) {struct fuel}
  : option (jval * string) :=
  match fuel with
  | O => None
  | S f =>
      match s with
      | String c s' =>
          if Ascii.eqb c dq then
            match parse_string_body s' with
            | Some (k, s1) =>
                match skip_ws s1 with
                | String d s2 =>
                    if Ascii.eqb d ":"%char then
                      match parse_value f (skip_ws s2) with
                      | Some (v, s3) =>
                          match skip_ws s3 with
                          | String e s4 =>
                              if Ascii.eqb e ","%char then
                                parse_members f (skip_ws s4) (obj_set k v acc)
                              else if Ascii.eqb e "}"%char then
                                Some (JObj (obj_set k v acc), s4)
                              else None
                          | EmptyString => None
                          end
                      | None => None
                      end
                    else None
                | EmptyString => None
                end
            | None => None
            end
          else None
      | EmptyString => None
      end
  end.

(** [JSON.parse(text)]: one value between optional whitespace, or a
    SyntaxError. *)
Definition JSON_parse (text : string) : res jval :=
  match parse_value (S (String.length text)) (skip_ws text) with
  | Some (v, rest) =>
      match skip_ws rest with
      | EmptyString => Ok v
      | _ => Throw SyntaxError
      end
  | None => Throw SyntaxError
  end.

(** ** Measures and side conditions of the round trip *)

(** The value of a digit list, most significant first, after [acc]. *)
Definition digits_value (ds : list N) (acc : N) : N :=
  fold_left (fun a d => (a * 10 + d)%N) ds acc.

(** A size bounding the fuel the parser needs for [v]. *)
Fixpoint jsize (v : jval) : nat :=
  match v with
  | JArr xs => S (sum_list_with (fun x => S (jsize x)) xs)
  | JObj fs => S (sum_list_with (fun kv => S (jsize kv.2)) fs)
  | _ => 1
  end.

(** A JavaScript value: every object has each key once. *)
Fixpoint jval_wf (v : jval) : bool :=
  match v with
  | JArr xs => forallb jval_wf xs
  | JObj fs => str_nodup (map fst fs) && forallb (fun kv => jval_wf kv.2) fs
  | _ => true
  end.

(** What may follow a serialised value: nothing, or a character that
    cannot continue a number. *)
Definition safe_rest (s : string) : bool :=
  match s with
  | EmptyString => true
  | String c _ => negb (is_digit c) && integer_end s
  end.

(** [v] is read back from its serialisation at any whitespace
    indentation, whatever safely follows it. *)
Definition parses_back (gap : string) (v : jval) : Prop :=
  jval_wf v = true ->
  forall ind f rest,
    str_forall is_ws ind = true -> jsize v <= f -> safe_rest rest = true ->
    parse_value f (ser gap ind v ++ rest)%string = Some (v, rest).

(** The characters a serialised value can start with. *)
Definition value_start (c : ascii) : bool :=
  Ascii.eqb c "n"%char || Ascii.eqb c "t"%char || Ascii.eqb c "f"%char ||
  Ascii.eqb c dq || Ascii.eqb c "["%char || Ascii.eqb c "{"%char ||
  Ascii.eqb c "-"%char || is_digit c.

(** ** Characters and whitespace *)

Lemma skip_ws_app_ws w s : str_forall is_ws w = true -> skip_ws (w ++ s)%string = skip_ws s.
Proof.
  induction w as [|c w IH]; [done|]. rewrite string_app_cons. simpl.
  intros H. bool_hyps. rewrite H. by apply IH.
Qed.

Lemma skip_ws_non_ws c s : is_ws c = false -> skip_ws (String c s) = String c s.
Proof. simpl. by intros ->. Qed.

(** Every character of a string is rendered by [quote_char] in a form
    [parse_string_body] reads back. *)
Lemma parse_quote_char c t :
  parse_string_body (quote_char c ++ t)%string =
  match parse_string_body t with
  | Some (r, rest) => Some (String c r, rest)
  | None => None
  end.
Proof. destruct c as [[] [] [] [] [] [] [] []]; reflexivity. Qed.

Lemma parse_quote_body s rest :
  parse_string_body (quote_body s ++ String dq rest)%string = Some (s, rest).
Proof.
  induction s as [|c s IH]; [done|]. simpl.
  rewrite string_app_assoc, parse_quote_char, IH. done.
Qed.

Lemma quote_app s rest :
  (quote s ++ rest)%string = String dq (quote_body s ++ String dq rest)%string.
Proof. unfold quote. rewrite string_app_cons, string_app_assoc. done. Qed.

(** ** Numbers *)

Lemma digits_value_snoc ds d acc :
  digits_value (ds ++ [d]) acc = (digits_value ds acc * 10 + d)%N.
Proof. unfold digits_value. by rewrite fold_left_app. Qed.

Lemma N_digits_nonempty fuel n : N_digits fuel n <> [].
Proof.
  revert n. induction fuel as [|f IH]; intros n; simpl; [done|].
  destruct (n <? 10)%N; [done|]. intros H. apply app_eq_nil in H as [_ H]. done.
Qed.

(** With enough steps, [N_digits] yields decimal digits whose value is
    [n] and whose first digit is not 0 unless [n] is. *)
Lemma N_digits_spec fuel n :
  (n < 10 ^ N.of_nat fuel)%N ->
  Forall (fun d => d < 10)%N (N_digits fuel n) /\
  digits_value (N_digits fuel n) 0 = n /\
  (n <> 0%N -> head (N_digits fuel n) <> Some 0%N).
Proof.
  revert n. induction fuel as [|f IH]; intros n Hn; simpl.
  - assert (n = 0%N) as -> by (simpl in Hn; lia).
    split; [by repeat constructor | split; done].
  - destruct (N.ltb_spec n 10) as [Hlt|Hge].
    + split; [by repeat constructor | split; [simpl; lia | simpl; congruence]].
    + rewrite Nat2N.inj_succ, N.pow_succ_r' in Hn.
      assert (Hq : (n / 10 < 10 ^ N.of_nat f)%N) by (apply N.Div0.div_lt_upper_bound; lia).
      destruct (IH _ Hq) as (Hd & Hv & Hh).
      split; [|split].
      * apply Forall_app. split; [done|]. repeat constructor. apply N.mod_lt. lia.
      * rewrite digits_value_snoc, Hv. pose proof (N.div_mod n 10). lia.
      * intros _. destruct (N_digits f (n / 10)) as [|d ds] eqn:E;
          [by apply N_digits_nonempty in E|].
        simpl in *. apply Hh. intros H0. apply N.div_small_iff in H0; lia.
Qed.

Lemma N_size_digits n : (n < 10 ^ N.of_nat (N.to_nat (N.size n)))%N.
Proof.
  rewrite N2Nat.id. eapply N.lt_le_trans; [apply N.size_gt|].
  apply N.pow_le_mono_l. lia.
Qed.

Lemma digit_char_spec d :
  (d < 10)%N -> is_digit (digit_char d) = true /\ digit_val (digit_char d) = d.
Proof.
  intros Hd. unfold is_digit, digit_val, digit_char.
  rewrite N_ascii_embedding by lia. split; [apply andb_true_intro; split; apply N.leb_le |]; lia.
Qed.

Lemma scan_digits_string ds acc rest :
  Forall (fun d => d < 10)%N ds -> safe_rest rest = true ->
  scan_digits (digits_string ds ++ rest)%string acc = (digits_value ds acc, rest).
Proof.
  intros Hds. revert acc. induction Hds as [|d ds Hd _ IH]; intros acc Hr.
  - destruct rest as [|c r]; [done|]. simpl in Hr |- *. bool_hyps.
    match goal with H : is_digit c = false |- _ => by rewrite H end.
  - change (digits_string (d :: ds)) with (String (digit_char d) (digits_string ds)).
    rewrite string_app_cons. simpl.
    destruct (digit_char_spec d Hd) as [-> ->]. by apply IH.
Qed.

Lemma safe_rest_integer_end rest : safe_rest rest = true -> integer_end rest = true.
Proof.
  destruct rest as [|c r]; [done|]. intros H. simpl in H. by apply andb_prop in H as [_ H].
Qed.

Lemma digit_char_facts d :
  (d < 10)%N ->
  Ascii.eqb (digit_char d) "-"%char = false /\
  (Ascii.eqb (digit_char d) "0"%char = true -> d = 0%N).
Proof.
  intros Hd. assert (d = 0 \/ d = 1 \/ d = 2 \/ d = 3 \/ d = 4 \/ d = 5 \/ d = 6 \/
                     d = 7 \/ d = 8 \/ d = 9)%N as Hc by lia.
  repeat destruct Hc as [->|Hc]; split; try done; subst; done.
Qed.

Lemma parse_digits_N_to_dec n rest :
  safe_rest rest = true ->
  parse_digits (N_to_dec n ++ rest)%string = Some (n, rest).
Proof.
  intros Hr. destruct (N.eq_dec n 0%N) as [->|Hn]; [done|].
  unfold N_to_dec.
  destruct (N_digits_spec _ n (N_size_digits n)) as (Hd & Hv & Hh).
  destruct (N_digits (N.to_nat (N.size n)) n) as [|d ds] eqn:E;
    [by apply N_digits_nonempty in E|].
  apply Forall_cons in Hd as [Hd0 Hds].
  destruct (digit_char_spec d Hd0) as [Hdig Hval].
  destruct (digit_char_facts d Hd0) as [_ Hz].
  change (digits_string (d :: ds)) with (String (digit_char d) (digits_string ds)).
  rewrite string_app_cons. unfold parse_digits.
  destruct (Ascii.eqb (digit_char d) "0"%char) eqn:E0.
  { specialize (Hz eq_refl) as ->. exfalso. by apply Hh. }
  rewrite Hdig, Hval, scan_digits_string by done.
  unfold digits_value in *. simpl in Hv. rewrite N.add_0_l in Hv. by rewrite Hv.
Qed.

Lemma N_to_dec_first n :
  exists d s, N_to_dec n = String (digit_char d) s /\ (d < 10)%N.
Proof.
  destruct (N_digits_spec _ n (N_size_digits n)) as (Hd & _).
  unfold N_to_dec. destruct (N_digits (N.to_nat (N.size n)) n) as [|d ds] eqn:E;
    [by apply N_digits_nonempty in E|].
  apply Forall_cons in Hd as [Hd0 _]. by exists d, (digits_string ds).
Qed.

Lemma parse_number_N_to_dec n rest :
  safe_rest rest = true ->
  parse_number (N_to_dec n ++ rest)%string = Some (Z.of_N n, rest).
Proof.
  intros Hr. pose proof (safe_rest_integer_end _ Hr) as Hend.
  destruct (N_to_dec_first n) as (d & s & E & Hd).
  destruct (digit_char_facts d Hd) as [Hm _].
  pose proof (parse_digits_N_to_dec n rest Hr) as Hp.
  rewrite E, string_app_cons in Hp |- *. unfold parse_number. cbv beta iota.
  rewrite Hm. cbv beta iota. by rewrite Hp, Hend.
Qed.

(** The digits and sign [Z_to_dec] prints are read back, whatever
    safely follows them. *)
Lemma parse_Z_to_dec z rest :
  safe_rest rest = true ->
  parse_number (Z_to_dec z ++ rest)%string = Some (z, rest).
Proof.
  intros Hr. pose proof (safe_rest_integer_end _ Hr) as Hend.
  destruct z as [|p|p]; simpl Z_to_dec.
  - by apply (parse_number_N_to_dec 0%N).
  - by apply (parse_number_N_to_dec (Npos p)).
  - rewrite string_app_cons. unfold parse_number. cbv beta iota. simpl Ascii.eqb.
    cbv beta iota. by rewrite parse_digits_N_to_dec, Hend.
Qed.

(** ** The first character of a serialised value *)

Lemma value_start_facts c :
  value_start c = true ->
  is_ws c = false /\ Ascii.eqb c "]"%char = false /\ Ascii.eqb c "}"%char = false /\
  Ascii.eqb c ","%char = false.
Proof. destruct c as [[] [] [] [] [] [] [] []]; vm_compute; intros H; try discriminate; repeat split. Qed.

(** Numbers start with [-] or a digit, which no other value does. *)
Lemma num_start_facts c :
  Ascii.eqb c "-"%char || is_digit c = true ->
  value_start c = true /\ Ascii.eqb c "n"%char = false /\ Ascii.eqb c "t"%char = false /\
  Ascii.eqb c "f"%char = false /\ Ascii.eqb c dq = false /\ Ascii.eqb c "["%char = false /\
  Ascii.eqb c "{"%char = false.
Proof. destruct c as [[] [] [] [] [] [] [] []]; vm_compute; intros H; try discriminate; repeat split. Qed.

Lemma Z_to_dec_start z :
  exists c s, Z_to_dec z = String c s /\ Ascii.eqb c "-"%char || is_digit c = true.
Proof.
  destruct z as [|p|p]; simpl.
  - by exists "0"%char, EmptyString.
  - destruct (N_to_dec_first (Npos p)) as (d & s & -> & Hd). exists (digit_char d), s.
    split; [done|]. destruct (digit_char_spec d Hd) as [-> _]. apply orb_true_r.
  - by eexists _, _.
Qed.

Lemma ser_start gap ind v : exists c s, ser gap ind v = String c s /\ value_start c = true.
Proof.
  destruct v as [| [] | n | s | [|x xs] | [|kv fs]]; try by eexists _, _.
  destruct (Z_to_dec_start n) as (c & s & E & Hc). exists c, s. simpl. rewrite E.
  split; [done|]. by apply num_start_facts.
Qed.

Lemma skip_ws_ser gap ind v rest :
  skip_ws (ser gap ind v ++ rest)%string = (ser gap ind v ++ rest)%string.
Proof.
  destruct (ser_start gap ind v) as (c & s & E & Hc). rewrite E, string_app_cons.
  apply skip_ws_non_ws. apply (value_start_facts _ Hc).
Qed.

(** ** How the parser dispatches on the first character *)

Lemma parse_value_dq f s :
  parse_value (S f) (String dq s) = option_map (fun p => (JStr p.1, p.2)) (parse_string_body s).
Proof. reflexivity. Qed.

Lemma parse_value_lbracket f s :
  parse_value (S f) (String "[" s) =
  match skip_ws s with
  | String d rest => if Ascii.eqb d "]"%char then Some (JArr [], rest)
                     else parse_elems f (String d rest) []
  | EmptyString => None
  end.
Proof. reflexivity. Qed.

Lemma parse_value_lbrace f s :
  parse_value (S f) (String "{" s) =
  match skip_ws s with
  | String d rest => if Ascii.eqb d "}"%char then Some (JObj [], rest)
                     else parse_members f (String d rest) []
  | EmptyString => None
  end.
Proof. reflexivity. Qed.

Lemma parse_value_num f z rest :
  safe_rest rest = true ->
  parse_value (S f) (Z_to_dec z ++ rest)%string = Some (JNum z, rest).
Proof.
  intros Hr. pose proof (parse_Z_to_dec z rest Hr) as Hp.
  destruct (Z_to_dec_start z) as (c & s & E & Hc).
  destruct (num_start_facts c Hc) as (_ & Hn & Ht & Hf & Hq & Hb & Hl).
  rewrite E, string_app_cons in Hp |- *. simpl parse_value.
  rewrite Hn, Ht, Hf, Hq, Hb, Hl, Hp. done.
Qed.

Lemma parse_members_dq f s acc :
  parse_members (S f) (String dq s) acc =
  match parse_string_body s with
  | Some (k, s1) =>
      match skip_ws s1 with
      | String d s2 =>
          if Ascii.eqb d ":"%char then
            match parse_value f (skip_ws s2) with
            | Some (v, s3) =>
                match skip_ws s3 with
                | String e s4 =>
                    if Ascii.eqb e ","%char then parse_members f (skip_ws s4) (obj_set k v acc)
                    else if Ascii.eqb e "}"%char then Some (JObj (obj_set k v acc), s4)
                    else None
                | EmptyString => None
                end
            | None => None
            end
          else None
      | EmptyString => None
      end
  | None => None
  end.
Proof. reflexivity. Qed.

(** ** Objects built member by member *)

Lemma obj_set_fresh {V} k (v : V) acc :
  k ∉ map fst acc -> obj_set k v acc = acc ++ [(k, v)].
Proof.
  induction acc as [|[k' w] acc IH]; intros Hk; [done|]. simpl in *.
  apply not_elem_of_cons in Hk as [Hne Hk].
  destruct (String.eqb_spec k k') as [->|_]; [done|]. by rewrite IH.
Qed.

(** [JSON.parse] throws only SyntaxErrors. *)
Lemma JSON_parse_error s e : JSON_parse s = Throw e -> e = SyntaxError.
Proof. unfold JSON_parse. repeat case_match; congruence. Qed.

(** ** The fuel [JSON_parse] gives is enough *)

Lemma ser_arr_cons_any gap ind x xs :
  ser gap ind (JArr (x :: xs)) =
  ("[" ++ lf gap (ind ++ gap) ++
   String.concat ("," ++ lf gap (ind ++ gap)) (map (ser gap (ind ++ gap)) (x :: xs)) ++
   lf gap ind ++ "]")%string.
Proof. reflexivity. Qed.

Lemma ser_obj_cons_any gap ind kv fs :
  ser gap ind (JObj (kv :: fs)) =
  ("{" ++ lf gap (ind ++ gap) ++
   String.concat ("," ++ lf gap (ind ++ gap))
     (map (fun kv => quote kv.1 ++ colon gap ++ ser gap (ind ++ gap) kv.2) (kv :: fs)) ++
   lf gap ind ++ "}")%string.
Proof. reflexivity. Qed.

Lemma quote_length k : 2 <= String.length (quote k).
Proof. unfold quote. simpl. rewrite string_length_app. simpl. lia. Qed.

Lemma Z_to_dec_length z : 1 <= String.length (Z_to_dec z).
Proof. destruct (Z_to_dec_start z) as (c & s & -> & _). simpl. lia. Qed.

Lemma jsize_le_length gap ind v : jsize v <= String.length (ser gap ind v).
Proof.
  revert ind.
  induction v as [| b | n | s | xs IH | fs IH] using jval_ind_nested; intros ind.
  - simpl. lia.
  - destruct b; simpl; lia.
  - apply Z_to_dec_length.
  - pose proof (quote_length s). simpl. lia.
  - destruct xs as [|x xs]; [simpl; lia|].
    rewrite ser_arr_cons_any. rewrite !string_length_app.
    pose proof (string_concat_length ("," ++ lf gap (ind ++ gap))
                  (map (ser gap (ind ++ gap)) (x :: xs)) ltac:(simpl; lia) ltac:(done)) as Hc.
    rewrite sum_list_with_map, length_map in Hc.
    assert (sum_list_with jsize (x :: xs) <=
            sum_list_with (fun y => String.length (ser gap (ind ++ gap) y)) (x :: xs)).
    { apply sum_list_with_le. eapply Forall_impl; [exact IH|]. intros y Hy. apply Hy. }
    set (C := String.concat _ _) in *. cbn [jsize]. rewrite sum_list_with_S.
    cbn [String.length]. simpl length in *. lia.
  - destruct fs as [|kv fs]; [simpl; lia|].
    rewrite ser_obj_cons_any. rewrite !string_length_app.
    pose proof (string_concat_length ("," ++ lf gap (ind ++ gap))
                  (map (fun kv => quote kv.1 ++ colon gap ++ ser gap (ind ++ gap) kv.2)%string
                     (kv :: fs)) ltac:(simpl; lia) ltac:(done)) as Hc.
    rewrite sum_list_with_map, length_map in Hc.
    assert (sum_list_with (fun kv => 3 + jsize kv.2) (kv :: fs) <=
            sum_list_with (fun kv => String.length
               (quote kv.1 ++ colon gap ++ ser gap (ind ++ gap) kv.2)%string) (kv :: fs)).
    { apply sum_list_with_le. eapply Forall_impl; [exact IH|]. intros [k w] Hy.
      rewrite !string_length_app. pose proof (quote_length k). specialize (Hy (ind ++ gap)%string).
      unfold colon. destruct gap; simpl in *; lia. }
    rewrite sum_list_with_add_const in *.
    set (C := String.concat _ _) in *. cbn [jsize]. rewrite sum_list_with_S.
    cbn [String.length]. simpl length in *. lia.
Qed.

(** ** What the parser produces *)

Lemma obj_set_keys {V} k (v : V) acc :
  map fst (obj_set k v acc) =
  if str_mem k (map fst acc) then map fst acc else map fst acc ++ [k].
Proof.
  induction acc as [|[k' w] acc IH]; [done|]. unfold str_mem in *. simpl.
  destruct (String.eqb k k') eqn:E; simpl; [by apply String.eqb_eq in E as ->|].
  rewrite IH. by destruct (existsb _ _).
Qed.

Lemma str_nodup_snoc l k :
  str_mem k l = false -> str_nodup l = true -> str_nodup (l ++ [k]) = true.
Proof.
  induction l as [|x l IH]; [done|]. unfold str_mem in *. simpl.
  intros Hk Hl. bool_hyps. rewrite IH by done. unfold str_mem in *.
  rewrite existsb_app. simpl. rewrite (String.eqb_sym x k), H, H1. done.
Qed.

Lemma obj_set_wf k v acc :
  jval_wf v = true ->
  str_nodup (map fst acc) && forallb (fun kv => jval_wf kv.2) acc = true ->
  str_nodup (map fst (obj_set k v acc)) &&
  forallb (fun kv => jval_wf kv.2) (obj_set k v acc) = true.
Proof.
  intros Hv Hacc. apply andb_true_iff in Hacc as [Hk Hw]. apply andb_true_iff. split.
  - rewrite obj_set_keys. destruct (str_mem k _) eqn:E; [done|]. by apply str_nodup_snoc.
  - clear Hk. induction acc as [|[k' w] acc IH]; simpl in *; [by rewrite Hv|].
    apply andb_true_iff in Hw as [Hw1 Hw2].
    destruct (String.eqb k k'); simpl; rewrite ?Hv, ?Hw1, ?Hw2; [done|]. by apply IH.
Qed.

Lemma parse_wf f :
  (forall s v r, parse_value f s = Some (v, r) -> jval_wf v = true) /\
  (forall s acc v r, forallb jval_wf acc = true ->
     parse_elems f s acc = Some (v, r) -> jval_wf v = true) /\
  (forall s acc v r,
     str_nodup (map fst acc) && forallb (fun kv => jval_wf kv.2) acc = true ->
     parse_members f s acc = Some (v, r) -> jval_wf v = true).
Proof.
  induction f as [|f (IHv & IHe & IHm)]; [done|]. split; [|split].
  - intros [|c s] v r; [done|]. cbn [parse_value].
    destruct (Ascii.eqb c _); [destruct (expect _ _); intros; simplify_eq/=; done|].
    destruct (Ascii.eqb c _); [destruct (expect _ _); intros; simplify_eq/=; done|].
    destruct (Ascii.eqb c _); [destruct (expect _ _); intros; simplify_eq/=; done|].
    destruct (Ascii.eqb c _);
      [destruct (parse_string_body s) as [[]|]; intros; simplify_eq/=; done|].
    destruct (Ascii.eqb c _).
    { destruct (skip_ws s) as [|d rest]; [done|].
      destruct (Ascii.eqb d _); [intros; simplify_eq/=; done|]. by apply IHe. }
    destruct (Ascii.eqb c _).
    { destruct (skip_ws s) as [|d rest]; [done|].
      destruct (Ascii.eqb d _); [intros; simplify_eq/=; done|]. by apply IHm. }
    destruct (parse_number _) as [[]|]; intros; simplify_eq/=; done.
  - intros s acc v r Hacc. cbn [parse_elems]. destruct (parse_value f s) as [[x s1]|] eqn:Ex; [|done].
    pose proof (IHv _ _ _ Ex) as Hx.
    assert (Hacc' : forallb jval_wf (acc ++ [x]) = true)
      by (rewrite forallb_app; simpl; by rewrite Hacc, Hx).
    destruct (skip_ws s1) as [|d s2]; [done|].
    destruct (Ascii.eqb d _); [by apply IHe|].
    destruct (Ascii.eqb d _); [|done]. intros; simplify_eq. done.
  - intros [|c s] acc v r Hacc; [done|]. cbn [parse_members].
    destruct (Ascii.eqb c dq); [|done].
    destruct (parse_string_body s) as [[k s1]|]; [|done].
    destruct (skip_ws s1) as [|d s2]; [done|]. destruct (Ascii.eqb d _); [|done].
    destruct (parse_value f (skip_ws s2)) as [[x s3]|] eqn:Ex; [|done].
    pose proof (obj_set_wf k x acc (IHv _ _ _ Ex) Hacc) as Hw.
    destruct (skip_ws s3) as [|e s4]; [done|].
    destruct (Ascii.eqb e _); [by apply IHm|].
    destruct (Ascii.eqb e _); [|done]. intros; simplify_eq. done.
Qed.

Lemma JSON_parse_wf text v : JSON_parse text = Ok v -> jval_wf v = true.
Proof.
  unfold JSON_parse. destruct (parse_value _ _) as [[x r]|] eqn:E; [|done].
  repeat case_match; intros ?; simplify_eq; exact (proj1 (parse_wf _) _ _ _ E).
Qed.

Lemma prop_lookup_wf fs k x :
  forallb (fun kv => jval_wf kv.2) fs = true -> prop_lookup k fs = Some x -> jval_wf x = true.
Proof.
  induction fs as [|[k' w] fs IH]; [done|]. simpl. intros Hw. bool_hyps.
  destruct (String.eqb k k'); [by intros [= <-]|]. by apply IH.
Qed.

(** Reading a property of JSON data gives JSON data. *)
Lemma get_prop_wf d k x :
  jval_wf d = true -> get_prop d k = Ok (Some x) -> jval_wf x = true.
Proof.
  destruct d; simpl; try done. intros Hw [= Hx]. bool_hyps. by eapply prop_lookup_wf.
Qed.

(** ** Every call of the parser consumes input *)

Lemma skip_ws_length s : String.length (skip_ws s) <= String.length s.
Proof. induction s as [|c s IH]; simpl; [done|]. destruct (is_ws c); simpl; lia. Qed.

Lemma expect_length lit s r : expect lit s = Some r -> String.length r <= String.length s.
Proof.
  revert s. induction lit as [|a lit IH]; intros [|b s]; simpl;
    try (intros [= <-]; simpl; lia); try done.
  destruct (Ascii.eqb a b); [|done]. intros H. specialize (IH _ H). lia.
Qed.

Lemma parse_string_body_length s t r :
  parse_string_body s = Some (t, r) -> String.length r < String.length s.
Proof.
  revert t r. induction s as [s IH] using (induction_ltof1 _ String.length); intros t r.
  unfold ltof in IH. destruct s as [|c s]; [done|]. cbn [parse_string_body].
  assert (Hrec : forall s0 u, String.length s0 < String.length (String c s) ->
            match parse_string_body s0 with Some (t0, rest) => Some (u t0, rest) | None => None end
              = Some (t, r) -> String.length r < String.length (String c s)).
  { intros s0 u Hs0. destruct (parse_string_body s0) as [[t0 r0]|] eqn:E; [|done].
    intros [= _ <-]. specialize (IH _ Hs0 _ _ E). lia. }
  destruct (Ascii.eqb c dq); [intros [= _ <-]; simpl; lia|].
  destruct (Ascii.eqb c bs).
  - destruct s as [|e s]; [done|].
    repeat match goal with
           | |- context [match ?n with 0%N => _ | _ => _ end] => destruct n
           | |- context [match ?n with xH => _ | _ => _ end] => destruct n
           end; try done;
      try (apply (Hrec s (String _)); simpl; lia).
    destruct s as [|h1 [|h2 [|h3 [|h4 s4]]]]; try done.
    destruct (hex_val h1), (hex_val h2), (hex_val h3), (hex_val h4); try done.
    case_match; [|done]. apply (Hrec s4 (String _)). simpl. lia.
  - destruct (N_of_ascii c <? 32)%N; [done|]. apply (Hrec s (String c)). simpl. lia.
Qed.

Lemma scan_digits_length s acc : String.length (scan_digits s acc).2 <= String.length s.
Proof.
  revert acc. induction s as [|c s IH]; intros acc; simpl; [done|].
  destruct (is_digit c); simpl; [specialize (IH (acc * 10 + digit_val c)%N)|]; lia.
Qed.

Lemma parse_number_length s z r : parse_number s = Some (z, r) -> String.length r < String.length s.
Proof.
  unfold parse_number.
  assert (Hd : forall s1 n r1, parse_digits s1 = Some (n, r1) -> String.length r1 < String.length s1).
  { intros [|c s1] n r1; simpl; [done|].
    destruct (Ascii.eqb c _); [intros [= _ <-]; lia|]. destruct (is_digit c); [|done].
    intros [= Hs]. pose proof (scan_digits_length s1 (digit_val c)) as Hl.
    rewrite Hs in Hl. simpl in *. lia. }
  destruct s as [|c s]; [done|]. destruct (Ascii.eqb c _).
  - destruct (parse_digits s) as [[n r1]|] eqn:E; [|done]. destruct (integer_end r1); [|done].
    intros [= _ <-]. specialize (Hd _ _ _ E). simpl. lia.
  - destruct (parse_digits (String c s)) as [[n r1]|] eqn:E; [|done]. destruct (integer_end r1); [|done].
    intros [= _ <-]. exact (Hd _ _ _ E).
Qed.

Lemma parse_consumes f :
  (forall s v r, parse_value f s = Some (v, r) -> String.length r < String.length s) /\
  (forall s acc v r, parse_elems f s acc = Some (v, r) -> String.length r < String.length s) /\
  (forall s acc v r, parse_members f s acc = Some (v, r) -> String.length r < String.length s).
Proof.
  induction f as [|f (IHv & IHe & IHm)]; [done|]. split; [|split].
  - intros [|c s] v r; [done|]. cbn [parse_value]. pose proof (skip_ws_length s) as Hs.
    do 3 (destruct (Ascii.eqb c _);
      [destruct (expect _ _) eqn:E; [|done]; intros [= _ <-]; apply expect_length in E; simpl; lia|]).
    destruct (Ascii.eqb c _).
    { destruct (parse_string_body s) as [[t r0]|] eqn:E; [|done].
      intros [= _ <-]. apply parse_string_body_length in E. simpl. lia. }
    destruct (Ascii.eqb c _).
    { destruct (skip_ws s) as [|d rest]; [done|].
      destruct (Ascii.eqb d _); [intros [= _ <-]; simpl in *; lia|]. intros H%IHe. simpl in *. lia. }
    destruct (Ascii.eqb c _).
    { destruct (skip_ws s) as [|d rest]; [done|].
      destruct (Ascii.eqb d _); [intros [= _ <-]; simpl in *; lia|]. intros H%IHm. simpl in *. lia. }
    destruct (parse_number _) as [[z r0]|] eqn:E; [|done].
    intros [= _ <-]. exact (parse_number_length _ _ _ E).
  - intros s acc v r. cbn [parse_elems]. destruct (parse_value f s) as [[x s1]|] eqn:Ex; [|done].
    apply IHv in Ex. pose proof (skip_ws_length s1) as H1.
    destruct (skip_ws s1) as [|d s2]; [done|]. pose proof (skip_ws_length s2) as H2.
    destruct (Ascii.eqb d _); [intros H%IHe; simpl in *; lia|].
    destruct (Ascii.eqb d _); [|done]. intros [= _ <-]. simpl in *. lia.
  - intros [|c s] acc v r; [done|]. cbn [parse_members]. destruct (Ascii.eqb c dq); [|done].
    destruct (parse_string_body s) as [[k s1]|] eqn:Ek; [|done]. apply parse_string_body_length in Ek.
    pose proof (skip_ws_length s1) as H1. destruct (skip_ws s1) as [|d s2]; [done|].
    destruct (Ascii.eqb d _); [|done]. pose proof (skip_ws_length s2) as H2.
    destruct (parse_value f (skip_ws s2)) as [[x s3]|] eqn:Ex; [|done]. apply IHv in Ex.
    pose proof (skip_ws_length s3) as H3. destruct (skip_ws s3) as [|e s4]; [done|].
    pose proof (skip_ws_length s4) as H4.
    destruct (Ascii.eqb e _); [intros H%IHm; simpl in *; lia|].
    destruct (Ascii.eqb e _); [|done]. intros [= _ <-]. simpl in *. lia.
Qed.

(** A result found with some fuel is found with any fuel at least the
    number of characters it consumed. *)
Lemma parse_fuel f :
  (forall s v r g, parse_value f s = Some (v, r) ->
     String.length s - String.length r <= g -> parse_value g s = Some (v, r)) /\
  (forall s acc v r g, parse_elems f s acc = Some (v, r) ->
     String.length s - String.length r <= g -> parse_elems g s acc = Some (v, r)) /\
  (forall s acc v r g, parse_members f s acc = Some (v, r) ->
     String.length s - String.length r <= g -> parse_members g s acc = Some (v, r)).
Proof.
  induction f as [|f (IHv & IHe & IHm)]; [done|].
  destruct (parse_consumes (S f)) as (Cv & Ce & Cm).
  destruct (parse_consumes f) as (Cv' & Ce' & Cm'). split; [|split].
  - intros s v r g H Hg. pose proof (Cv _ _ _ H) as Hlt. destruct g as [|g]; [lia|].
    revert H Hg Hlt. destruct s as [|c s]; [done|]. cbn [parse_value].
    pose proof (skip_ws_length s) as Hs. revert Hs.
    do 4 (destruct (Ascii.eqb c _); [auto|]).
    destruct (Ascii.eqb c _).
    { destruct (skip_ws s) as [|d rest]; [done|]. destruct (Ascii.eqb d _); [auto|].
      intros Hs H Hg Hlt. pose proof (Ce' _ _ _ _ H) as Hr. apply (IHe _ _ _ _ _ H). simpl in *. lia. }
    destruct (Ascii.eqb c _); [|auto].
    destruct (skip_ws s) as [|d rest]; [done|]. destruct (Ascii.eqb d _); [auto|].
    intros Hs H Hg Hlt. pose proof (Cm' _ _ _ _ H) as Hr. apply (IHm _ _ _ _ _ H). simpl in *. lia.
  - intros s acc v r g H Hg. pose proof (Ce _ _ _ _ H) as Hlt. destruct g as [|g]; [lia|].
    revert H. cbn [parse_elems]. destruct (parse_value f s) as [[x s1]|] eqn:Ex; [|done].
    pose proof (Cv' _ _ _ Ex) as Hx. pose proof (skip_ws_length s1) as H1.
    destruct (skip_ws s1) as [|d s2] eqn:E1; [done|]. pose proof (skip_ws_length s2) as H2.
    destruct (Ascii.eqb d _) eqn:Ed.
    + intros H. pose proof (Ce' _ _ _ _ H) as Hr. rewrite (IHv _ _ _ g Ex) by (simpl in *; lia).
      rewrite E1, Ed. apply (IHe _ _ _ _ _ H). simpl in *. lia.
    + destruct (Ascii.eqb d "]"%char) eqn:Ed2; [|done]. intros [= <- <-].
      rewrite (IHv _ _ _ g Ex) by (simpl in *; lia). by rewrite E1, Ed, Ed2.
  - intros s acc v r g H Hg. pose proof (Cm _ _ _ _ H) as Hlt. destruct g as [|g]; [lia|].
    revert H Hg Hlt. destruct s as [|c s]; [done|]. cbn [parse_members].
    destruct (Ascii.eqb c dq); [|done].
    destruct (parse_string_body s) as [[k s1]|] eqn:Ek; [|done]. apply parse_string_body_length in Ek.
    pose proof (skip_ws_length s1) as H1. destruct (skip_ws s1) as [|d s2]; [done|].
    destruct (Ascii.eqb d _); [|done]. pose proof (skip_ws_length s2) as H2.
    destruct (parse_value f (skip_ws s2)) as [[x s3]|] eqn:Ex; [|done].
    pose proof (Cv' _ _ _ Ex) as Hx. pose proof (skip_ws_length s3) as H3.
    destruct (skip_ws s3) as [|e s4] eqn:E3; [done|]. pose proof (skip_ws_length s4) as H4.
    destruct (Ascii.eqb e _) eqn:Ee.
    + intros H Hg Hlt. pose proof (Cm' _ _ _ _ H) as Hr.
      rewrite (IHv _ _ _ g Ex) by (simpl in *; lia). rewrite E3, Ee.
      apply (IHm _ _ _ _ _ H). simpl in *. lia.
    + destruct (Ascii.eqb e "}"%char) eqn:Ee2; [|done]. intros [= <- <-] Hg Hlt.
      rewrite (IHv _ _ _ g Ex) by (simpl in *; lia). by rewrite E3, Ee, Ee2.
Qed.

(** [JSON.parse] terminates on every text
    and its fuel is never what rejects one: [JSON_parse text] returns
    [v] exactly when the parser, given some amount of fuel, reads [v]
    from the text and only whitespace follows it.  Each call of the
    parser consumes a character, so one unit of fuel per character is
    enough. *)
Theorem JSON_parse_fuel_adequate text v :
  JSON_parse text = Ok v <->
  exists f rest, parse_value f (skip_ws text) = Some (v, rest) /\ skip_ws rest = EmptyString.
Proof.
  unfold JSON_parse. split.
  - destruct (parse_value _ _) as [[x r]|] eqn:E; [|done].
    destruct (skip_ws r) eqn:Er; [|done]. intros [= <-]. eauto.
  - intros (f & rest & H & Hr). pose proof (skip_ws_length text).
    rewrite (proj1 (parse_fuel f) _ _ _ _ H) by lia. by rewrite Hr.
Qed.

(** ** The round trip, for a whitespace gap *)

Lemma parse_elems_S f s acc :
  parse_elems (S f) s acc =
  match parse_value f s with
  | Some (v, s1) =>
      match skip_ws s1 with
      | String d s2 =>
          if Ascii.eqb d ","%char then parse_elems f (skip_ws s2) (acc ++ [v])
          else if Ascii.eqb d "]"%char then Some (JArr (acc ++ [v]), s2)
          else None
      | EmptyString => None
      end
  | None => None
  end.
Proof. reflexivity. Qed.

Section RoundTrip.
Variable gap : string.
Hypothesis Hgap : str_forall is_ws gap = true.

Lemma lf_ws ind : str_forall is_ws ind = true -> str_forall is_ws (lf gap ind) = true.
Proof. intros H. unfold lf. by destruct gap. Qed.

Lemma indent_ws ind : str_forall is_ws ind = true -> str_forall is_ws (ind ++ gap)%string = true.
Proof. intros H. by rewrite str_forall_app, H, Hgap. Qed.

Lemma skip_ws_lf ind s :
  str_forall is_ws ind = true -> skip_ws (lf gap ind ++ s)%string = skip_ws s.
Proof. intros H. apply skip_ws_app_ws, lf_ws, H. Qed.

(** What follows an element is safe for a number before it. *)
Lemma safe_rest_punct ind c s :
  Ascii.eqb c ","%char || Ascii.eqb c "]"%char || Ascii.eqb c "}"%char = true ->
  safe_rest (lf gap ind ++ String c s)%string = true.
Proof.
  intros Hc. unfold lf. destruct gap; [|reflexivity].
  destruct c as [[] [] [] [] [] [] [] []]; vm_compute in Hc |- *; congruence.
Qed.

Lemma safe_rest_comma s : safe_rest (String ","%char s) = true.
Proof. reflexivity. Qed.

Lemma colon_split : exists w, colon gap = String ":"%char w /\ str_forall is_ws w = true.
Proof. unfold colon. destruct gap; eexists; split; reflexivity. Qed.

Lemma skip_ws_concat_ser sep ind y ys t :
  skip_ws (String.concat sep (ser gap ind y :: map (ser gap ind) ys) ++ t)%string =
  (String.concat sep (ser gap ind y :: map (ser gap ind) ys) ++ t)%string.
Proof.
  destruct ys as [|z ys]; simpl; [apply skip_ws_ser|].
  rewrite string_app_assoc. apply skip_ws_ser.
Qed.

(** The elements of a non-empty array. *)
Lemma parse_elems_ser ind x xs acc f rest :
  str_forall is_ws ind = true ->
  Forall (parses_back gap) (x :: xs) -> forallb jval_wf (x :: xs) = true ->
  sum_list_with (fun y => S (jsize y)) (x :: xs) <= f ->
  parse_elems f
    (String.concat ("," ++ lf gap (ind ++ gap)) (map (ser gap (ind ++ gap)) (x :: xs)) ++
     lf gap ind ++ "]" ++ rest)%string acc
  = Some (JArr (acc ++ x :: xs), rest).
Proof.
  intros Hind. revert x acc f.
  induction xs as [|y xs IH]; intros x acc f Hall Hwf Hf;
    apply Forall_cons in Hall as [Hx Hall]; simpl in Hwf; apply andb_prop in Hwf as [Hwx Hwf];
    destruct f as [|f]; simpl in Hf; try lia.
  - simpl String.concat. rewrite parse_elems_S.
    rewrite Hx; [| done | by apply indent_ws | lia | by apply safe_rest_punct].
    rewrite skip_ws_lf by done. reflexivity.
  - cbn [map]. rewrite string_concat_cons, !string_app_assoc, parse_elems_S.
    rewrite Hx; [| done | by apply indent_ws | lia | apply safe_rest_comma].
    rewrite (string_app_cons ","%char EmptyString), string_app_nil_l.
    rewrite skip_ws_non_ws by reflexivity. cbv beta iota.
    change (Ascii.eqb ","%char ","%char) with true. cbv beta iota.
    rewrite skip_ws_lf by (by apply indent_ws).
    rewrite skip_ws_concat_ser. change (ser gap (ind ++ gap) y :: map (ser gap (ind ++ gap)) xs)
      with (map (ser gap (ind ++ gap)) (y :: xs)).
    rewrite IH; [by rewrite <- app_assoc | done | done | simpl; lia].
Qed.

Lemma member_app ind kv t :
  (quote kv.1 ++ colon gap ++ ser gap ind kv.2 ++ t)%string =
  String dq (quote_body kv.1 ++ String dq (colon gap ++ ser gap ind kv.2 ++ t))%string.
Proof. by rewrite <- quote_app. Qed.

Lemma skip_ws_concat_members sep ind kv fs t :
  skip_ws (String.concat sep
     ((quote kv.1 ++ colon gap ++ ser gap ind kv.2)%string ::
      map (fun kv => quote kv.1 ++ colon gap ++ ser gap ind kv.2)%string fs) ++ t)%string =
  (String.concat sep
     ((quote kv.1 ++ colon gap ++ ser gap ind kv.2)%string ::
      map (fun kv => quote kv.1 ++ colon gap ++ ser gap ind kv.2)%string fs) ++ t)%string.
Proof.
  destruct fs as [|kv' fs]; simpl String.concat; rewrite !string_app_assoc, member_app;
    apply skip_ws_non_ws; reflexivity.
Qed.

(** One member [quote(k) ++ colon ++ ser v], followed by [t]. *)
Lemma parse_member_step ind kv t acc f :
  str_forall is_ws ind = true -> parses_back gap kv.2 -> jval_wf kv.2 = true ->
  jsize kv.2 <= f -> safe_rest t = true ->
  parse_members (S f) (quote kv.1 ++ colon gap ++ ser gap (ind ++ gap) kv.2 ++ t)%string acc =
  match skip_ws t with
  | String e s4 =>
      if Ascii.eqb e ","%char then parse_members f (skip_ws s4) (obj_set kv.1 kv.2 acc)
      else if Ascii.eqb e "}"%char then Some (JObj (obj_set kv.1 kv.2 acc), s4)
      else None
  | EmptyString => None
  end.
Proof.
  intros Hind Hx Hw Hf Ht. rewrite member_app, parse_members_dq, parse_quote_body.
  destruct colon_split as (w & -> & Hw').
  rewrite string_app_cons, skip_ws_non_ws by reflexivity. cbv beta iota.
  change (Ascii.eqb ":"%char ":"%char) with true. cbv beta iota.
  rewrite skip_ws_app_ws, skip_ws_ser by done.
  rewrite Hx; [done | done | by apply indent_ws | done | done].
Qed.

(** The members of a non-empty object whose keys are distinct. *)
Lemma parse_members_ser ind kv fs acc f rest :
  str_forall is_ws ind = true ->
  Forall (fun kv => parses_back gap kv.2) (kv :: fs) ->
  forallb (fun kv => jval_wf kv.2) (kv :: fs) = true ->
  NoDup (map fst (acc ++ kv :: fs)) ->
  sum_list_with (fun kv => S (jsize kv.2)) (kv :: fs) <= f ->
  parse_members f
    (String.concat ("," ++ lf gap (ind ++ gap))
       (map (fun kv => quote kv.1 ++ colon gap ++ ser gap (ind ++ gap) kv.2) (kv :: fs)) ++
     lf gap ind ++ "}" ++ rest)%string acc
  = Some (JObj (acc ++ kv :: fs), rest).
Proof.
  intros Hind. revert kv acc f.
  induction fs as [|kv' fs IH]; intros kv acc f Hall Hwf Hnd Hf;
    apply Forall_cons in Hall as [Hx Hall]; simpl in Hwf; apply andb_prop in Hwf as [Hwx Hwf];
    destruct f as [|f]; simpl in Hf; try lia;
    assert (Hk : kv.1 ∉ map fst acc)
      by (rewrite map_app in Hnd; apply NoDup_app in Hnd as (_ & Hd & _);
          intros Hin; apply (Hd _ Hin); simpl; left).
  - simpl String.concat. rewrite !string_app_assoc.
    rewrite parse_member_step; [| done | done | done | lia | by apply safe_rest_punct].
    rewrite skip_ws_lf, obj_set_fresh by done. by destruct kv.
  - cbn [map]. rewrite string_concat_cons, !string_app_assoc.
    rewrite parse_member_step; [| done | done | done | lia | apply safe_rest_comma].
    rewrite (string_app_cons ","%char EmptyString), string_app_nil_l.
    rewrite skip_ws_non_ws by reflexivity. cbv beta iota.
    change (Ascii.eqb ","%char ","%char) with true. cbv beta iota.
    rewrite skip_ws_lf by (by apply indent_ws).
    rewrite skip_ws_concat_members.
    change ((quote kv'.1 ++ colon gap ++ ser gap (ind ++ gap) kv'.2)%string ::
            map (fun kv => quote kv.1 ++ colon gap ++ ser gap (ind ++ gap) kv.2)%string fs)
      with (map (fun kv => quote kv.1 ++ colon gap ++ ser gap (ind ++ gap) kv.2)%string
              (kv' :: fs)).
    rewrite obj_set_fresh by done.
    rewrite IH; [by destruct kv; rewrite <- app_assoc | done | done | | simpl; lia].
    destruct kv. by rewrite <- app_assoc.
Qed.

Lemma concat_ser_start sep ind x xs t :
  exists c s, (String.concat sep (map (ser gap ind) (x :: xs)) ++ t)%string = String c s /\
              value_start c = true.
Proof.
  destruct (ser_start gap ind x) as (c & s & E & Hc).
  destruct xs as [|y xs]; simpl String.concat; [|rewrite string_app_assoc];
    rewrite E, string_app_cons; eauto.
Qed.

Lemma concat_members_start sep ind kv fs t :
  exists s, (String.concat sep
               (map (fun kv => quote kv.1 ++ colon gap ++ ser gap ind kv.2) (kv :: fs)) ++ t)%string
            = String dq s.
Proof.
  destruct fs as [|kv' fs]; simpl String.concat; rewrite !string_app_assoc, member_app; eauto.
Qed.

Lemma string_cons_app c (s t : string) : (String c EmptyString ++ s ++ t)%string = String c (s ++ t).
Proof. reflexivity. Qed.

(** Every JavaScript value is read back from its serialisation. *)
Lemma parses_back_all v : parses_back gap v.
Proof.
  induction v as [| b | n | s | xs IH | fs IH] using jval_ind_nested;
    intros Hwf ind f rest Hind Hf Hr; (destruct f as [|f]; [simpl in Hf; lia|]).
  - reflexivity.
  - by destruct b.
  - by apply parse_value_num.
  - change (ser gap ind (JStr s)) with (quote s).
    by rewrite quote_app, parse_value_dq, parse_quote_body.
  - destruct xs as [|x xs]; [reflexivity|].
    rewrite ser_arr_cons_any, !string_app_assoc, string_cons_app, parse_value_lbracket.
    rewrite skip_ws_lf by (by apply indent_ws).
    destruct (concat_ser_start ("," ++ lf gap (ind ++ gap)) (ind ++ gap) x xs
                (lf gap ind ++ "]" ++ rest)) as (c & s & E & Hc).
    destruct (value_start_facts c Hc) as (Hw & Hb & _).
    rewrite E, skip_ws_non_ws by done. cbv beta iota. rewrite Hb, <- E.
    apply parse_elems_ser; [done | done | done | cbn [jsize sum_list_with] in Hf |- *; lia].
  - destruct fs as [|kv fs]; [reflexivity|].
    simpl in Hwf. apply andb_prop in Hwf as [Hnd Hwf].
    rewrite ser_obj_cons_any, !string_app_assoc, string_cons_app, parse_value_lbrace.
    rewrite skip_ws_lf by (by apply indent_ws).
    destruct (concat_members_start ("," ++ lf gap (ind ++ gap)) (ind ++ gap) kv fs
                (lf gap ind ++ "}" ++ rest)) as (s & E).
    rewrite E, skip_ws_non_ws by reflexivity. cbv beta iota.
    change (Ascii.eqb dq "}"%char) with false. cbv beta iota. rewrite <- E.
    apply (parse_members_ser ind kv fs []); [done | done | done | | cbn [jsize sum_list_with] in Hf |- *; lia].
    by apply str_nodup_spec.
Qed.

(** [JSON.parse(JSON.stringify(v, null, gap))] gives [v] back. *)
Lemma JSON_parse_stringify v :
  jval_wf v = true -> JSON_parse (JSON_stringify v gap) = Ok v.
Proof.
  intros Hwf. unfold JSON_parse, JSON_stringify.
  pose proof (skip_ws_ser gap "" v EmptyString) as Hs. rewrite string_app_nil_r in Hs.
  pose proof (parses_back_all v Hwf "" (S (String.length (ser gap "" v))) EmptyString
                eq_refl ltac:(pose proof (jsize_le_length gap "" v); lia) eq_refl) as Hp.
  rewrite string_app_nil_r in Hp. by rewrite Hs, Hp.
Qed.

End RoundTrip.

End Json.
