(* ===== verification/Transfer.v ===== *)
(** * Export and import of a painting (HW2)

    Models [handleExport], [handleImportClick], [handleFileChange] and
    the [reader.onload] callback of [src/HW2/src/App.tsx].

    Export builds [{ title, shapes }], serialises it with
    [JSON.stringify(data, null, 2)], percent-encodes it with
    [encodeURIComponent] into a [data:] URL and clicks a link whose
    [download] name is the title with every run of whitespace replaced
    by [_] ([title.replace(/\s+/g, "_")]), or [painting] when that is
    empty, followed by [.json].

    Import checks the picked file's MIME type, reads it as text, parses
    it and accepts it when [importedData.title] is truthy and
    [importedData.shapes] is an array; a thrown exception (a syntax
    error, or reading a property of [null]) is caught and reported.

    The browser's side of the round trip is modelled from the URL and
    Encoding standards: the bytes of a [data:] URL are its percent-decoded
    body ([percent_decode]), [readAsText] decodes them as UTF-8
    ([utf8_decode]), and a downloaded file named [*.json] has the type
    [application/json] ([mime_of]).  A malformed percent escape or a
    UTF-8 sequence for a code point above 255 is outside the model
    ([None]). *)

From S2P Require Import Prelude JsValue Canvas Json.
From Stdlib Require Import String Ascii ZArith NArith Lia.
From stdpp Require Import base list strings.

Module Transfer.
Import Canvas Json.

(** ** encodeURIComponent *)

Definition in_range (lo hi : N) (c : ascii) : bool :=
  (lo <=? N_of_ascii c)%N && (N_of_ascii c <=? hi)%N.

(** [A-Z a-z 0-9 - _ . ! ~ * ' ( )] pass through unescaped. *)
Definition uri_unreserved (c : ascii) : bool :=
  in_range 48 57 c || in_range 65 90 c || in_range 97 122 c ||
  Ascii.eqb c "-"%char || Ascii.eqb c "_"%char || Ascii.eqb c "."%char ||
  Ascii.eqb c "!"%char || Ascii.eqb c "~"%char || Ascii.eqb c "*"%char ||
  Ascii.eqb c "'"%char || Ascii.eqb c "("%char || Ascii.eqb c ")"%char.

Definition hex_upper (n : N) : ascii :=
  if (n <? 10)%N then ascii_of_N (48 + n) else ascii_of_N (55 + n).

(** [%XX] for one byte. *)
Definition pct (b : N) : string :=
  String "%" (String (hex_upper (b / 16)) (String (hex_upper (b mod 16)) EmptyString)).

(** A code unit below 128 is one UTF-8 byte; one in 128..255 is two. *)
Definition encode_char (c : ascii) : string :=
  if uri_unreserved c then String c EmptyString
  else
    let n := N_of_ascii c in
    if (n <? 128)%N then pct n
    else (pct (192 + n / 64) ++ pct (128 + n mod 64))%string.

Fixpoint encodeURIComponent (s : string) : string :=
  match s with
  | EmptyString => EmptyString
  | String c s' => (encode_char c ++ encodeURIComponent s')%string
  end.

(** ** The browser's side: data URL bytes, UTF-8 text, MIME type *)

Fixpoint percent_decode (s : string) : option (list N) :=
  match s with
  | EmptyString => Some []
  | String c s' =>
      if Ascii.eqb c "%"%char then
        match s' with
        | String h1 (String h2 s'') =>
            match hex_val h1, hex_val h2, percent_decode s'' with
            | Some a, Some b, Some bs => Some ((a * 16 + b)%N :: bs)
            | _, _, _ => None
            end
        | _ => None
        end
      else option_map (cons (N_of_ascii c)) (percent_decode s')
  end.

Fixpoint utf8_decode (bs : list N) : option string :=
  match bs with
  | [] => Some EmptyString
  | b :: bs' =>
      if (b <? 128)%N then option_map (String (ascii_of_N b)) (utf8_decode bs')
      else if (194 <=? b)%N && (b <=? 195)%N then
        match bs' with
        | b2 :: bs'' =>
            if (128 <=? b2)%N && (b2 <? 192)%N then
              option_map (String (ascii_of_N ((b - 192) * 64 + (b2 - 128))))
                (utf8_decode bs'')
            else None
        | [] => None
        end
      else None
  end.

(** The UTF-8 bytes of a code unit and of a string. *)
Definition char_bytes (c : ascii) : list N :=
  let n := N_of_ascii c in
  if (n <? 128)%N then [n] else [(192 + n / 64)%N; (128 + n mod 64)%N].

Fixpoint utf8_bytes (s : string) : list N :=
  match s with
  | EmptyString => []
  | String c s' => char_bytes c ++ utf8_bytes s'
  end.

Definition data_url_prefix : string := "data:text/json;charset=utf-8,".

Definition string_ends_with (suffix s : string) : bool :=
  let n := String.length s in
  let m := String.length suffix in
  (m <=? n) && String.eqb (substring (n - m) m s) suffix.

(** The type the browser gives a file by its extension. *)
Definition mime_of (name : string) : string :=
  if string_ends_with ".json" name then "application/json" else "".

(** The file a click on [<a download=name href=href>] saves, as the file
    input later hands it back. *)
Definition downloaded_file (name href : string) : option File :=
  match expect data_url_prefix href with
  | Some payload =>
      match percent_decode payload with
      | Some bytes =>
          match utf8_decode bytes with
          | Some text => Some (mkFile name (mime_of name) text)
          | None => None
          end
      | None => None
      end
  | None => None
  end.

(** ** handleExport *)

(** [const data: PaintingData = { title, shapes }] *)
Definition painting_data (a : App) : jval :=
  JObj [("title", title a); ("shapes", JArr (shapes a))].

(** [\s] on code units 0..255: tab, line feed, vertical tab, form feed,
    carriage return, space and no-break space. *)
Definition is_js_space (c : ascii) : bool :=
  match N_of_ascii c with
  | 9%N | 10%N | 11%N | 12%N | 13%N | 32%N | 160%N => true
  | _ => false
  end.

(** [s.replace(/\s+/g, "_")]: each maximal run of whitespace becomes one
    underscore; [in_run] says the previous character was whitespace. *)
Fixpoint replace_ws_runs (in_run : bool) (s : string) : string :=
  match s with
  | EmptyString => EmptyString
  | String c s' =>
      if is_js_space c then
        if in_run then replace_ws_runs true s' else String "_" (replace_ws_runs true s')
      else String c (replace_ws_runs false s')
  end.

(** [`${title.replace(/\s+/g, "_") || "painting"}.json`] *)
Definition download_name (t : string) : string :=
  let r := replace_ws_runs false t in
  ((if String.eqb r "" then "painting" else r) ++ ".json")%string.

(** What [/\s+/g] replaced by ["_"] means, independently of the scan:
    the string is cut into characters that are not whitespace and
    maximal non-empty runs of whitespace (a run is never followed by
    whitespace), and each run becomes one underscore. *)
Definition starts_nonspace (s : string) : bool :=
  match s with
  | EmptyString => true
  | String c _ => negb (is_js_space c)
  end.

Inductive ws_collapse : string -> string -> Prop :=
| wc_nil : ws_collapse EmptyString EmptyString
| wc_char c s u :
    is_js_space c = false -> ws_collapse s u -> ws_collapse (String c s) (String c u)
| wc_run r s u :
    r <> EmptyString -> str_forall is_js_space r = true -> starts_nonspace s = true ->
    ws_collapse s u -> ws_collapse (r ++ s) (String "_" u).

(** The leading whitespace of a string and the rest. *)
Fixpoint ws_span (s : string) : string * string :=
  match s with
  | String c s' =>
      if is_js_space c then let pq := ws_span s' in (String c pq.1, pq.2)
      else (EmptyString, s)
  | EmptyString => (EmptyString, EmptyString)
  end.

(** [handleExport]: [title.replace] throws a TypeError when the title is
    not a string (it can be anything an import accepted). *)
Definition handleExport (a : App) : res (list effect) :=
  let jsonString :=
    (data_url_prefix ++ encodeURIComponent (JSON_stringify (painting_data a) "  "))%string in
  match title a with
  | JStr t => Ok [Download (download_name t) jsonString]
  | _ => Throw TypeError
  end.

(** ** handleImportClick, handleFileChange and reader.onload *)

Definition handleImportClick : list effect := [OpenFilePicker].

Definition msg_select_json : string := "Please select a valid JSON file.".
Definition msg_invalid_format : string := "Invalid JSON format for painting file.".
Definition msg_read_error : string :=
  "Error: Could not read the file. Please ensure it is a valid painting JSON.".

(** [handleFileChange]: [file && file.type === "application/json"]. *)
Definition handleFileChange (file : option File) : list effect :=
  match file with
  | Some f =>
      if String.eqb (file_type f) "application/json" then [ReadAsText f]
      else [Alert msg_select_json]
  | None => [Alert msg_select_json]
  end.

(** The body of the [try] block once [typeof result === "string"] holds
    (it always does after [readAsText]). *)
Definition onload_try (result : string) (a : App) : res (App * list effect) :=
  importedData ← JSON_parse result;
  t ← get_prop importedData "title";
  if truthy t then
    sh ← get_prop importedData "shapes";
    (** [Array.isArray(importedData.shapes)]; [t] is defined since truthy *)
    match t, sh with
    | Some tv, Some (JArr l) => Ok (setShapes l (setTitle tv a), [])
    | _, _ => Ok (a, [Alert msg_invalid_format])
    end
  else Ok (a, [Alert msg_invalid_format]).

(** [reader.onload]: the [catch] block logs and alerts. *)
Definition reader_onload (result : string) (a : App) : App * list effect :=
  match onload_try result a with
  | Ok r => r
  | Throw _ => (a, [ConsoleError "Failed to parse JSON:"; Alert msg_read_error])
  end.

(** ** The data URL round trip *)

Lemma percent_decode_encode_char c t :
  percent_decode (encode_char c ++ t)%string =
  match percent_decode t with
  | Some bs => Some (char_bytes c ++ bs)
  | None => None
  end.
Proof.
  destruct (percent_decode t) eqn:E; destruct c as [[] [] [] [] [] [] [] []];
    match goal with
    | |- context [encode_char ?c] =>
        let e := eval vm_compute in (encode_char c) in change (encode_char c) with e
    end;
    rewrite ?string_app_cons, ?string_app_nil_l; simpl; rewrite ?E; reflexivity.
Qed.

Lemma percent_decode_encode s :
  percent_decode (encodeURIComponent s) = Some (utf8_bytes s).
Proof.
  induction s as [|c s IH]; [done|]. simpl. by rewrite percent_decode_encode_char, IH.
Qed.

Lemma utf8_decode_char c bs :
  utf8_decode (char_bytes c ++ bs) = option_map (String c) (utf8_decode bs).
Proof.
  destruct (utf8_decode bs) eqn:E; destruct c as [[] [] [] [] [] [] [] []];
    match goal with
    | |- context [char_bytes ?c] =>
        let e := eval vm_compute in (char_bytes c) in change (char_bytes c) with e
    end;
    simpl; rewrite ?E; reflexivity.
Qed.

Lemma utf8_decode_bytes s : utf8_decode (utf8_bytes s) = Some s.
Proof.
  induction s as [|c s IH]; [done|]. simpl. by rewrite utf8_decode_char, IH.
Qed.

Lemma expect_app lit s : expect lit (lit ++ s)%string = Some s.
Proof. induction lit as [|c lit IH]; [done|]. simpl. by rewrite Ascii.eqb_refl. Qed.

Lemma substring_all s : substring 0 (String.length s) s = s.
Proof. induction s as [|c s IH]; [done|]. simpl. by rewrite IH. Qed.

Lemma substring_app_r p s :
  substring (String.length p) (String.length s) (p ++ s)%string = s.
Proof. induction p as [|c p IH]; [apply substring_all|]. simpl. exact IH. Qed.

Lemma string_ends_with_app suffix p :
  string_ends_with suffix (p ++ suffix)%string = true.
Proof.
  unfold string_ends_with. rewrite string_length_app.
  replace (String.length p + String.length suffix - String.length suffix)
    with (String.length p) by lia.
  rewrite substring_app_r, String.eqb_refl. apply andb_true_intro. split; [|done].
  apply Nat.leb_le. lia.
Qed.

(** The file an export saves: named as [download_name] says, typed
    [application/json], and holding exactly the JSON text. *)
Lemma downloaded_file_export t json :
  downloaded_file (download_name t) (data_url_prefix ++ encodeURIComponent json)%string =
  Some (mkFile (download_name t) "application/json" json).
Proof.
  unfold downloaded_file. rewrite expect_app, percent_decode_encode, utf8_decode_bytes.
  unfold mime_of, download_name. by rewrite string_ends_with_app.
Qed.

Lemma download_inj n h n' h' :
  @Ok (list effect) [Download n h] = Ok [Download n' h'] -> n = n' /\ h = h'.
Proof. intros H. by injection H. Qed.

Lemma handleExport_str a t :
  title a = JStr t ->
  handleExport a =
  Ok [Download (download_name t)
        (data_url_prefix ++ encodeURIComponent (JSON_stringify (painting_data a) "  "))%string].
Proof. intros Ht. unfold handleExport. by rewrite Ht. Qed.

Lemma painting_data_wf a :
  jval_wf (title a) = true -> Forall (fun v => jval_wf v = true) (shapes a) ->
  jval_wf (painting_data a) = true.
Proof.
  intros Ht Hs. simpl. rewrite Ht. simpl. rewrite andb_true_r, forallb_forall.
  intros v Hv. rewrite Forall_forall in Hs. apply Hs. by apply list_elem_of_In.
Qed.

(** [reader.onload] on a document with a truthy title and an array of
    shapes. *)
Lemma reader_onload_accepts result d tv l a :
  JSON_parse result = Ok d -> get_prop d "title" = Ok (Some tv) -> truthy (Some tv) = true ->
  get_prop d "shapes" = Ok (Some (JArr l)) ->
  reader_onload result a = (setShapes l (setTitle tv a), []).
Proof.
  intros Hp Ht Htr Hs. unfold reader_onload, onload_try. rewrite Hp. cbn [mbind res_bind].
  rewrite Ht. cbn [mbind res_bind]. rewrite Htr, Hs. reflexivity.
Qed.

(** ** Properties *)

(** C5. Round trip (spec, section 8): exporting a painting whose title
    is a non-empty string and importing the downloaded file, into any
    state, restores exactly that title and those shapes (ids included)
    and raises no alert; the file passes the MIME type check. *)
Theorem export_import_roundtrip a a' t name href :
  title a = JStr t -> t <> EmptyString ->
  Forall (fun v => jval_wf v = true) (shapes a) ->
  handleExport a = Ok [Download name href] ->
  exists f, downloaded_file name href = Some f /\
            handleFileChange (Some f) = [ReadAsText f] /\
            reader_onload (file_text f) a' = (setShapes (shapes a) (setTitle (JStr t) a'), []).
Proof.
  intros Ht Hne Hs He. rewrite (handleExport_str a t Ht) in He.
  apply download_inj in He as [<- <-]. rewrite downloaded_file_export.
  eexists. split; [reflexivity|]. split; [reflexivity|].
  apply (reader_onload_accepts _ (painting_data a)).
  - apply JSON_parse_stringify; [done|]. apply painting_data_wf; [by rewrite Ht|done].
  - simpl. by rewrite Ht.
  - simpl. destruct (String.eqb_spec t ""); [done|reflexivity].
  - reflexivity.
Qed.

(** Witness of C5: a titled painting with two shapes. *)
Lemma export_import_roundtrip_witness :
  let a := place_all [("u1", (10, 20)%Z); ("u2", (-3, 4)%Z)] (setTitle (JStr "My pic") initial_app) in
  exists f, downloaded_file "My_pic.json"
              (data_url_prefix ++ encodeURIComponent (JSON_stringify (painting_data a) "  "))%string
            = Some f /\
            handleFileChange (Some f) = [ReadAsText f] /\
            reader_onload (file_text f) initial_app =
              (setShapes (shapes a) (setTitle (JStr "My pic") initial_app), []).
Proof.
  intros a. apply (export_import_roundtrip a initial_app "My pic").
  - reflexivity.
  - discriminate.
  - repeat constructor.
  - vm_compute. reflexivity.
Defined.

(** ** Lemmas on the download name *)

Lemma replace_ws_runs_skip r s :
  str_forall is_js_space r = true -> replace_ws_runs true (r ++ s) = replace_ws_runs true s.
Proof.
  induction r as [|c r IH]; [done|]. simpl. intros Hr. bool_hyps.
  match goal with H : is_js_space c = true |- _ => rewrite H end. by apply IH.
Qed.

Lemma replace_ws_runs_start s :
  starts_nonspace s = true -> replace_ws_runs true s = replace_ws_runs false s.
Proof. destruct s as [|c s]; [done|]. simpl. by destruct (is_js_space c). Qed.

Lemma ws_span_spec s :
  let pq := ws_span s in
  (pq.1 ++ pq.2)%string = s /\ str_forall is_js_space pq.1 = true /\
  starts_nonspace pq.2 = true /\ String.length pq.2 <= String.length s.
Proof.
  induction s as [|c s IH]; [done|]. simpl. destruct (is_js_space c) eqn:Hc; simpl.
  - destruct IH as (H1 & H2 & H3 & H4). rewrite string_app_cons, Hc, H1, H2. repeat split; [done|lia].
  - rewrite Hc. repeat split. lia.
Qed.

(** Every string has a collapsed form. *)
Lemma ws_collapse_total t : exists u, ws_collapse t u.
Proof.
  induction t as [t IH] using (induction_ltof1 _ String.length). unfold ltof in IH.
  destruct t as [|c s]; [eexists; constructor|]. destruct (is_js_space c) eqn:Hc.
  - destruct (ws_span_spec s) as (H1 & H2 & H3 & H4).
    destruct (IH (ws_span s).2) as [u Hu]; [simpl; lia|].
    exists (String "_" u). rewrite <- H1. change (String c ((ws_span s).1 ++ (ws_span s).2))
      with (String c (ws_span s).1 ++ (ws_span s).2)%string.
    apply wc_run; [done|simpl; by rewrite Hc, H2|done|done].
  - destruct (IH s) as [u Hu]; [simpl; lia|]. exists (String c u). by constructor.
Qed.

(** [reader.onload] leaves the document alone or installs the title and
    shapes of the parsed file. *)
Lemma reader_onload_result result a :
  (reader_onload result a).1 = a \/
  exists d tv l, JSON_parse result = Ok d /\ get_prop d "title" = Ok (Some tv) /\
    get_prop d "shapes" = Ok (Some (JArr l)) /\
    (reader_onload result a).1 = setShapes l (setTitle tv a).
Proof.
  unfold reader_onload, onload_try.
  destruct (JSON_parse result) as [d|]; cbn [mbind res_bind]; [|by left].
  destruct (get_prop d "title") as [t|] eqn:Et; cbn [mbind res_bind]; [|by left].
  destruct (truthy t); [|by left].
  destruct (get_prop d "shapes") as [sh|] eqn:Es; cbn [mbind res_bind]; [|by left].
  destruct t as [tv|], sh as [[| | | |l|]|]; try by left.
  right. by exists d, tv, l.
Qed.

Lemma reader_onload_throw result a e :
  onload_try result a = Throw e ->
  reader_onload result a = (a, [ConsoleError "Failed to parse JSON:"; Alert msg_read_error]).
Proof. unfold reader_onload. by intros ->. Qed.

Lemma get_prop_painting_title t l :
  get_prop (JObj [("title", t); ("shapes", l)]) "title" = Ok (Some t).
Proof. reflexivity. Qed.

Lemma get_prop_painting_shapes t l :
  get_prop (JObj [("title", t); ("shapes", l)]) "shapes" = Ok (Some l).
Proof. reflexivity. Qed.

(** Importing the JSON text of [{title, shapes}] with a truthy title
    and well-formed shapes accepts them as they are. *)
Lemma reader_onload_painting_any tv l a :
  truthy (Some tv) = true -> jval_wf tv = true -> Forall (fun v => jval_wf v = true) l ->
  reader_onload (JSON_stringify (JObj [("title", tv); ("shapes", JArr l)]) "  ") a =
  (setShapes l (setTitle tv a), []).
Proof.
  intros Htr Hw Hl. apply (reader_onload_accepts _ (JObj [("title", tv); ("shapes", JArr l)]));
    [| reflexivity | done | reflexivity].
  apply JSON_parse_stringify; [done|].
  apply (painting_data_wf (mkApp tv l circle None)); [done|exact Hl].
Qed.

Lemma truthy_str t : t <> EmptyString -> truthy (Some (JStr t)) = true.
Proof. intros H. simpl. destruct (String.eqb_spec t ""); [done|reflexivity]. Qed.

Lemma reader_onload_painting t l a :
  t <> EmptyString -> Forall (fun v => jval_wf v = true) l ->
  reader_onload (JSON_stringify (JObj [("title", JStr t); ("shapes", JArr l)]) "  ") a =
  (setShapes l (setTitle (JStr t) a), []).
Proof. intros Ht Hl. by apply reader_onload_painting_any; [apply truthy_str | |]. Qed.

Lemma shape_obj_id_inj s1 s2 : shape_obj s1 = shape_obj s2 -> shape_id s1 = shape_id s2.
Proof. unfold shape_obj. intros H. by injection H. Qed.

(** ** Properties of import *)

(** C6. Error paths of [reader.onload]: the document changes only when
    the text parses to a value whose [title] is truthy and whose
    [shapes] is an array, and then no alert is raised; otherwise the
    document is unchanged and exactly one of two reports is made: the
    "invalid format" alert for a parsed non-null value, or the logged
    "could not read" alert for a syntax error or the value [null]. *)
Theorem reader_onload_cases result a :
  (exists d tv l, JSON_parse result = Ok d /\ get_prop d "title" = Ok (Some tv) /\
     truthy (Some tv) = true /\ get_prop d "shapes" = Ok (Some (JArr l)) /\
     reader_onload result a = (setShapes l (setTitle tv a), [])) \/
  (exists d, JSON_parse result = Ok d /\ d <> JNull /\
     reader_onload result a = (a, [Alert msg_invalid_format])) \/
  ((JSON_parse result = Throw SyntaxError \/ JSON_parse result = Ok JNull) /\
     reader_onload result a = (a, [ConsoleError "Failed to parse JSON:"; Alert msg_read_error])).
Proof.
  destruct (JSON_parse result) as [d|e] eqn:Hp.
  2:{ right; right. apply JSON_parse_error in Hp as He. subst e.
      split; [by left|]. apply (reader_onload_throw _ _ SyntaxError).
      unfold onload_try. by rewrite Hp. }
  destruct (get_prop d "title") as [t|e] eqn:Ht.
  2:{ right; right. destruct d; try discriminate. split; [by right|].
      apply (reader_onload_throw _ _ TypeError). unfold onload_try. by rewrite Hp. }
  assert (Hd : d <> JNull) by (intros ->; discriminate).
  assert (Hs : exists sh, get_prop d "shapes" = Ok sh) by (destruct d; by eexists).
  destruct Hs as [sh Hs].
  assert (Hrun : reader_onload result a =
            if truthy t then match t, sh with
                             | Some tv, Some (JArr l) => (setShapes l (setTitle tv a), [])
                             | _, _ => (a, [Alert msg_invalid_format])
                             end
            else (a, [Alert msg_invalid_format])).
  { unfold reader_onload, onload_try. rewrite Hp. cbn [mbind res_bind]. rewrite Ht.
    cbn [mbind res_bind]. destruct (truthy t); [|done]. rewrite Hs. cbn [mbind res_bind].
    by destruct t as [tv|], sh as [[]|]. }
  destruct (truthy t) eqn:Htr; [|right; left; by exists d].
  destruct t as [tv|]; [|discriminate].
  destruct sh as [[| | | | l |]|]; try (right; left; by exists d).
  left. by exists d, tv, l.
Qed.

(** C7. Import checks only that [shapes] is an array: a painting whose
    shapes array holds [null] is accepted without an alert, and the
    per-type count of the next render ([shapeCounts]) then throws a
    TypeError reading [null.type]. *)
Theorem import_accepts_null_shape t l a :
  t <> EmptyString -> Forall (fun v => jval_wf v = true) l -> JNull ∈ l ->
  reader_onload (JSON_stringify (JObj [("title", JStr t); ("shapes", JArr l)]) "  ") a =
    (setShapes l (setTitle (JStr t) a), []) /\
  shapeCounts l = Throw TypeError.
Proof.
  intros Ht Hl Hn. split; [by apply reader_onload_painting|].
  by apply js_reduce_count_null.
Qed.

(** Witness of C9. *)
Lemma import_accepts_null_shape_witness :
  reader_onload (JSON_stringify (JObj [("title", JStr "t"); ("shapes", JArr [JNull])]) "  ")
    initial_app = (setShapes [JNull] (setTitle (JStr "t") initial_app), []) /\
  shapeCounts [JNull] = Throw TypeError.
Proof.
  apply import_accepts_null_shape;
    [discriminate | constructor; [reflexivity | constructor] | apply list_elem_of_singleton; reflexivity].
Defined.

(** C8. Import does not check that shape ids are distinct: a file
    holding the same shape twice is accepted, and the document then
    breaks the invariant [wf_doc] that every handler of the canvas
    keeps (C1). *)
Theorem import_accepts_duplicate_ids t s a :
  t <> EmptyString ->
  reader_onload (JSON_stringify (JObj [("title", JStr t);
                   ("shapes", JArr [shape_obj s; shape_obj s])]) "  ") a =
    (setShapes [shape_obj s; shape_obj s] (setTitle (JStr t) a), []) /\
  ~ wf_doc [shape_obj s; shape_obj s].
Proof.
  intros Ht. split.
  - apply reader_onload_painting; [done|]. repeat constructor.
  - intros (ss & Hss & Hnd). destruct ss as [|s1 [|s2 [|]]]; try discriminate.
    cbn [map] in Hss. assert (E : shape_obj s1 = shape_obj s2) by congruence.
    apply NoDup_cons in Hnd as [Hnd _]. apply Hnd. cbn [map].
    rewrite (shape_obj_id_inj s1 s2 E). by left.
Qed.

(** Witness of C10. *)
Lemma import_accepts_duplicate_ids_witness :
  reader_onload (JSON_stringify (JObj [("title", JStr "p");
                   ("shapes", JArr [shape_obj (mkShape "u" square 1 2); shape_obj (mkShape "u" square 1 2)])]) "  ")
    initial_app =
    (setShapes [shape_obj (mkShape "u" square 1 2); shape_obj (mkShape "u" square 1 2)]
       (setTitle (JStr "p") initial_app), []) /\
  ~ wf_doc [shape_obj (mkShape "u" square 1 2); shape_obj (mkShape "u" square 1 2)].
Proof. apply import_accepts_duplicate_ids. discriminate. Defined.

(** C9. Spec divergence: a painting whose title is empty exports to
    [painting.json], but importing that file raises the "invalid
    format" alert and keeps the current document, because the empty
    title is falsy; the round trip of C5 fails. *)
Theorem export_empty_title_not_importable a a' :
  title a = JStr EmptyString -> Forall (fun v => jval_wf v = true) (shapes a) ->
  exists href f, handleExport a = Ok [Download "painting.json" href] /\
    downloaded_file "painting.json" href = Some f /\
    handleFileChange (Some f) = [ReadAsText f] /\
    reader_onload (file_text f) a' = (a', [Alert msg_invalid_format]).
Proof.
  intros Ht Hs. rewrite (handleExport_str a EmptyString Ht).
  eexists _, _. split; [reflexivity|].
  rewrite (downloaded_file_export EmptyString). split; [reflexivity|]. split; [reflexivity|].
  cbn [file_text]. unfold reader_onload, onload_try.
  rewrite JSON_parse_stringify; [| done | apply painting_data_wf; [by rewrite Ht | done]].
  cbn [mbind res_bind]. simpl. by rewrite Ht.
Qed.

(** Witness of C11. *)
Lemma export_empty_title_not_importable_witness :
  exists href f,
    handleExport (setShapes [shape_obj (mkShape "a" circle 0 0)] (setTitle (JStr "") initial_app))
      = Ok [Download "painting.json" href] /\
    downloaded_file "painting.json" href = Some f /\
    handleFileChange (Some f) = [ReadAsText f] /\
    reader_onload (file_text f) initial_app = (initial_app, [Alert msg_invalid_format]).
Proof. apply export_empty_title_not_importable; [reflexivity | repeat constructor]. Defined.

(** C10. The download name is the title with each maximal run of
    whitespace replaced by one underscore ([ws_collapse]), or
    [painting] when that is empty, followed by [.json]. *)
Theorem download_name_spec t :
  (exists u, ws_collapse t u) /\
  forall u, ws_collapse t u ->
    download_name t = ((if String.eqb u "" then "painting" else u) ++ ".json")%string.
Proof.
  split; [apply ws_collapse_total|]. intros u Hu. unfold download_name.
  enough (Hr : replace_ws_runs false t = u) by (by rewrite Hr).
  induction Hu as [|c s u Hc _ IH|r s u Hne Hr Hs _ IH]; [done|simpl; by rewrite Hc, IH|].
  destruct r as [|c r]; [done|]. simpl in *. bool_hyps.
  match goal with H : is_js_space c = true |- _ => rewrite H end.
  by rewrite replace_ws_runs_skip, replace_ws_runs_start, IH.
Qed.

Lemma download_name_spec_witness :
  ws_collapse "my  cat" "my_cat" /\ download_name "my  cat" = "my_cat.json".
Proof.
  assert (Hc : ws_collapse "my  cat" "my_cat").
  { apply wc_char; [reflexivity|]. apply wc_char; [reflexivity|].
    apply (wc_run "  " "cat"); [done|reflexivity|reflexivity|].
    repeat (apply wc_char; [reflexivity|]). apply wc_nil. }
  split; [exact Hc|]. exact (proj2 (download_name_spec "my  cat") _ Hc).
Defined.

(** C11. Import accepts any truthy title, not only a string: after
    importing a painting whose title is a non-zero number, the title
    state holds that number, and the next export throws a TypeError
    ([title.replace] is not a function), so nothing is downloaded. *)
Theorem import_numeric_title_breaks_export n l a :
  n <> 0%Z -> Forall (fun v => jval_wf v = true) l ->
  reader_onload (JSON_stringify (JObj [("title", JNum n); ("shapes", JArr l)]) "  ") a =
    (setShapes l (setTitle (JNum n) a), []) /\
  handleExport (setShapes l (setTitle (JNum n) a)) = Throw TypeError.
Proof.
  intros Hn Hl. split; [|reflexivity].
  apply reader_onload_painting_any; [| done | done].
  simpl. by destruct (Z.eqb_spec n 0).
Qed.

(** Witness of C13. *)
Lemma import_numeric_title_breaks_export_witness :
  reader_onload (JSON_stringify (JObj [("title", JNum 7); ("shapes", JArr [])]) "  ")
    initial_app = (setShapes [] (setTitle (JNum 7) initial_app), []) /\
  handleExport (setShapes [] (setTitle (JNum 7) initial_app)) = Throw TypeError.
Proof. apply import_numeric_title_breaks_export; [lia | constructor]. Defined.

End Transfer.
