(* ===== verification/Session.v ===== *)
(** * The HW3 application: authentication, token, remote save and restore

    Models [src/HW3/frontend/src/App.tsx].  Its [App] keeps the canvas
    state of HW2 (the same handlers, textually copied, lines 178-248 and
    338-386), a bearer [token], and which [AuthModal] is open; the open
    [AuthModal] keeps its own [username] and [password].

    [handleSubmit], [handleSave] and [handleRestore] are [async]: each
    issues a [fetch] and continues when the response arrives.  A call
    is split into its synchronous part, which records the request in
    [pending] under a fresh number and emits a [Fetch] effect, and its
    continuation ([auth_resume], [save_resume], [restore_resume]), run
    by the event [EvRespond id r] when the response [r] to request [id]
    arrives.  Responses may arrive in any order, and the continuation
    sees the state as it is then, which is how JavaScript runs it: the
    continuations only call setters and read what they captured
    ([mode], [username]) when the request was made.

    A response is a transport failure ([fetch] rejects) or a status and
    a body; [response.json()] is [JSON_parse] of the body, whose
    rejection the [catch] blocks handle like a transport failure. *)

From S2P Require Import Prelude JsValue Canvas Json Transfer.
From Stdlib Require Import String Ascii ZArith NArith Lia.
From stdpp Require Import base list strings.

Module Session.
Import Canvas Json Transfer.

(** ** State *)

(** [mode: "signup" | "login"] *)
Inductive AuthMode : Type :=
| signup
| login.

(** The mounted [AuthModal]: its [mode] prop and its two state hooks. *)
Record ModalState : Type := mkModal {
  mode : AuthMode;
  username : string;
  password : string
}.

(** What a pending [fetch] continues with. *)
Inductive Pending : Type :=
| PAuth (m : AuthMode) (user : string)     (** [handleSubmit], with [mode], [username] *)
| PSave                                     (** [handleSave] *)
| PRestore.                                 (** [handleRestore] *)

Record Session : Type := mkSession {
  app : App;                          (** the canvas hooks, as in HW2 *)
  token : option jval;                (** [useState<string | null>(null)] *)
  authModal : option ModalState;      (** [useState<"signup" | "login" | null>(null)] *)
  pending : list (nat * Pending);     (** requests awaiting their response *)
  next_id : nat
}.

Definition initial_session : Session :=
  {| app := initial_app; token := None; authModal := None; pending := []; next_id := 0 |}.

Inductive Response : Type :=
| NetworkError                        (** [fetch] rejects *)
| Resp (status : Z) (body : string).

(** [response.ok] *)
Definition resp_ok (status : Z) : bool := (200 <=? status)%Z && (status <=? 299)%Z.

(** ** Setters *)

Definition with_app (f : App -> App) (s : Session) : Session :=
  {| app := f (app s); token := token s; authModal := authModal s;
     pending := pending s; next_id := next_id s |}.

Definition setToken (t : option jval) (s : Session) : Session :=
  {| app := app s; token := t; authModal := authModal s;
     pending := pending s; next_id := next_id s |}.

Definition setModal (m : option ModalState) (s : Session) : Session :=
  {| app := app s; token := token s; authModal := m;
     pending := pending s; next_id := next_id s |}.

(** [setAuthModal(m)]: a newly mounted [AuthModal] starts with empty
    fields; a mounted one keeps them when only its [mode] changes. *)
Definition setAuthModal (m : option AuthMode) (s : Session) : Session :=
  match m with
  | None => setModal None s
  | Some md =>
      match authModal s with
      | Some ms => setModal (Some (mkModal md (username ms) (password ms))) s
      | None => setModal (Some (mkModal md "" "")) s
      end
  end.

(** Record a request under a fresh number. *)
Definition start_request (k : Pending) (s : Session) : Session :=
  {| app := app s; token := token s; authModal := authModal s;
     pending := pending s ++ [(next_id s, k)]; next_id := S (next_id s) |}.

Definition drop_request (id : nat) (s : Session) : Session :=
  {| app := app s; token := token s; authModal := authModal s;
     pending := List.filter (fun p => negb (Nat.eqb p.1 id)) (pending s);
     next_id := next_id s |}.

(** ** Messages *)

Definition api : string := "http://localhost:8080".
Definition msg_fill_fields : string := "Please fill in all fields.".
Definition msg_signup_ok : string := "Sign up successful! Please log in to continue.".
Definition msg_auth_connect : string := "Failed to connect to the server. Please try again later.".
Definition msg_logged_out : string := "You have been logged out.".
Definition msg_save_login : string := "You must be logged in to save your painting.".
Definition msg_saved : string := "Your painting has been saved successfully.".
Definition msg_save_connect : string := "Failed to connect to the server to save the painting.".
Definition msg_restore_login : string := "You must be logged in to restore a painting.".
Definition msg_restored : string := "Your painting has been restored successfully.".
Definition msg_restore_invalid : string := "Invalid data format received from server.".
Definition msg_no_saved : string := "No saved painting found for your account.".
Definition msg_restore_connect : string := "Failed to connect to the server to restore the painting.".

(** [`${v || fallback}`] *)
Definition or_default (v : option jval) (fallback : string) : string :=
  if truthy v then js_to_string v else fallback.

(** ** AuthModal *)

(** [handleSubmit], up to [await fetch(...)]. *)
Definition handleSubmit (s : Session) : Session * list effect :=
  match authModal s with
  | None => (s, [])
  | Some m =>
      if negb (truthy (Some (JStr (username m)))) || negb (truthy (Some (JStr (password m))))
      then (s, [Alert msg_fill_fields])
      else
        let url := match mode m with
                   | signup => (api ++ "/auth/signup")%string
                   | login => (api ++ "/auth/login")%string
                   end in
        let body := JSON_stringify (JObj [("username", JStr (username m));
                                          ("password", JStr (password m))]) "" in
        (start_request (PAuth (mode m) (username m)) s,
         [Fetch (mkRequest "POST" url [("Content-Type", "application/json")] (Some body))])
  end.

(** [handleAuthSuccess(jwt)]: [setToken(jwt); setAuthModal(null)]. *)
Definition handleAuthSuccess (jwt : jval) (s : Session) : Session :=
  setAuthModal None (setToken (Some jwt) s).

(** The rest of [handleSubmit] once the response [r] arrives. *)
Definition auth_resume (m : AuthMode) (user : string) (r : Response) (s : Session)
  : Session * list effect :=
  let fail := (s, [ConsoleError "Authentication error:"; Alert msg_auth_connect]) in
  match r with
  | NetworkError => fail
  | Resp status body =>
      match JSON_parse body with            (** [const data = await response.json()] *)
      | Throw _ => fail
      | Ok data =>
          if resp_ok status then
            match get_prop data "token" with
            | Throw _ => fail
            | Ok tk =>
                match tk with
                | Some jwt =>
                    if truthy tk then
                      (handleAuthSuccess jwt s,
                       [Alert ("Successfully " ++
                               (match m with
                                | signup => "signed up and logged in"
                                | login => "logged in"
                                end) ++ " as " ++ user)%string])
                    else (setAuthModal None s, [Alert msg_signup_ok])
                | None => (setAuthModal None s, [Alert msg_signup_ok])
                end
            end
          else
            match get_prop data "message" with
            | Throw _ => fail
            | Ok msg => (s, [Alert ("Error: " ++ or_default msg "Something went wrong")%string])
            end
      end
  end.

(** ** Sign up, log in, logout, save and restore *)

(** [handleSignUp] *)
Definition handleSignUp (s : Session) : Session := setAuthModal (Some signup) s.

(** [handleLogin] *)
Definition handleLogin (s : Session) : Session := setAuthModal (Some login) s.

(** [handleLogout] *)
Definition handleLogout (s : Session) : Session * list effect :=
  (setToken None s, [Alert msg_logged_out]).

Definition bearer (s : Session) : list (string * string) :=
  [("Authorization", ("Bearer " ++ js_to_string (token s))%string)].

(** [handleSave], up to [await fetch(...)]. *)
Definition handleSave (s : Session) : Session * list effect :=
  if negb (truthy (token s)) then (s, [Alert msg_save_login])
  else
    let req := mkRequest "POST" (api ++ "/painting")
                 (("Content-Type", "application/json") :: bearer s)
                 (Some (JSON_stringify (painting_data (app s)) "")) in
    (start_request PSave s, [Fetch req]).

Definition save_resume (r : Response) (s : Session) : Session * list effect :=
  let fail := (s, [ConsoleError "Failed to save painting:"; Alert msg_save_connect]) in
  match r with
  | NetworkError => fail
  | Resp status body =>
      if resp_ok status then (s, [Alert msg_saved])
      else
        match JSON_parse body with
        | Throw _ => fail
        | Ok errorData =>
            match get_prop errorData "message" with
            | Throw _ => fail
            | Ok msg =>
                (s, [Alert ("Error saving painting: " ++ or_default msg "Unknown error")%string])
            end
        end
  end.

(** [handleRestore], up to [await fetch(...)]. *)
Definition handleRestore (s : Session) : Session * list effect :=
  if negb (truthy (token s)) then (s, [Alert msg_restore_login])
  else (start_request PRestore s, [Fetch (mkRequest "GET" (api ++ "/painting") (bearer s) None)]).

(** The [try] block of [handleRestore] after the response. *)
Definition restore_try (status : Z) (body : string) (s : Session) : res (Session * list effect) :=
  if resp_ok status then
    restoredData ← JSON_parse body;
    t ← get_prop restoredData "title";
    if truthy t then
      sh ← get_prop restoredData "shapes";
      match t, sh with
      | Some tv, Some (JArr l) =>
          Ok (with_app (fun a => setShapes l (setTitle tv a)) s, [Alert msg_restored])
      | _, _ => Ok (s, [Alert msg_restore_invalid])
      end
    else Ok (s, [Alert msg_restore_invalid])
  else if Z.eqb status 404 then Ok (s, [Alert msg_no_saved])
  else
    errorData ← JSON_parse body;
    msg ← get_prop errorData "message";
    Ok (s, [Alert ("Error restoring painting: " ++ or_default msg "Unknown error")%string]).

Definition restore_resume (r : Response) (s : Session) : Session * list effect :=
  let fail := (s, [ConsoleError "Failed to restore painting:"; Alert msg_restore_connect]) in
  match r with
  | NetworkError => fail
  | Resp status body =>
      match restore_try status body s with
      | Ok out => out
      | Throw _ => fail
      end
  end.

(** ** The form and the handlers HW3 shares with HW2 *)

(** Submitting the [<form>]: both inputs are [required], so the browser's
    constraint validation blocks the [submit] event while either is
    empty, and [handleSubmit] runs only once both are filled in. *)
Definition form_submit (s : Session) : Session * list effect :=
  match authModal s with
  | Some m =>
      if String.eqb (username m) "" || String.eqb (password m) "" then (s, [])
      else handleSubmit s
  | None => (s, [])
  end.

(** [handleCanvasClick], [handleDragStart], [handleDrop],
    [handleDeleteShape], [handleExport] and [reader.onload] of HW3 are
    the HW2 code, run on the session's canvas hooks. *)
Definition hw3_handleCanvasClick (uuid : string) (pt : Z * Z) (s : Session) : Session :=
  with_app (handleCanvasClick uuid pt) s.

Definition hw3_handleDragStart (t : ShapeType) (s : Session) : Session :=
  with_app (handleDragStart t) s.

Definition hw3_handleDrop (uuid : string) (pt : Z * Z) (s : Session) : Session :=
  with_app (handleDrop uuid pt) s.

Definition hw3_handleDeleteShape (id : jval) (s : Session) : res Session :=
  a ← handleDeleteShape id (app s); Ok (with_app (fun _ => a) s).

Definition hw3_handleExport (s : Session) : res (list effect) := handleExport (app s).

Definition hw3_reader_onload (result : string) (s : Session) : Session * list effect :=
  let r := reader_onload result (app s) in (with_app (fun _ => r.1) s, r.2).

Definition hw3_shapeCounts (s : Session) : res ShapeCounts := shapeCounts (shapes (app s)).

(** [const isLoggedIn = !!token] *)
Definition isLoggedIn (s : Session) : bool := truthy (token s).

(** ** Events *)

Inductive session_event : Type :=
| EvSetTitle (v : string)                (** [Header]'s title input *)
| EvSelectShape (t : ShapeType)          (** [Toolbar]'s [onSelectShape] *)
| EvDragStart (t : ShapeType)            (** [Toolbar]'s [onDragStart] *)
| EvCanvasClick (uuid : string) (pt : Z * Z)
| EvDrop (uuid : string) (pt : Z * Z)
| EvDeleteShape (id : jval)              (** [Shape]'s [onDoubleClick] *)
| EvExport                               (** [handleExport] *)
| EvImportClick                          (** [handleImportClick] *)
| EvFileChange (f : option File)         (** [handleFileChange] *)
| EvFileLoaded (text : string)           (** [reader.onload] *)
| EvSignUp                               (** [handleSignUp] *)
| EvLogin                                (** [handleLogin] *)
| EvCloseModal                           (** [onClose]: overlay or Cancel *)
| EvTypeUsername (v : string)            (** [setUsername(e.target.value)] *)
| EvTypePassword (v : string)            (** [setPassword(e.target.value)] *)
| EvSubmit                               (** the form's [onSubmit] *)
| EvLogout                               (** [handleLogout] *)
| EvSave                                 (** [handleSave] *)
| EvRestore                              (** [handleRestore] *)
| EvRespond (id : nat) (r : Response).   (** a [fetch] settles *)

Definition set_fields (f : ModalState -> ModalState) (s : Session) : Session :=
  match authModal s with
  | Some m => setModal (Some (f m)) s
  | None => s
  end.

(** The continuation of request [id], if it is pending. *)
Definition respond (id : nat) (r : Response) (s : Session) : Session * list effect :=
  match List.find (fun p => Nat.eqb p.1 id) (pending s) with
  | None => (s, [])
  | Some (_, k) =>
      let s' := drop_request id s in
      match k with
      | PAuth m user => auth_resume m user r s'
      | PSave => save_resume r s'
      | PRestore => restore_resume r s'
      end
  end.

(** The handlers wired to the rendered elements. *)
Definition session_step (e : session_event) (s : Session) : res (Session * list effect) :=
  match e with
  | EvSetTitle v => Ok (with_app (setTitle (JStr v)) s, [])
  | EvSelectShape t => Ok (with_app (setSelectedShape t) s, [])
  | EvDragStart t => Ok (hw3_handleDragStart t s, [])
  | EvCanvasClick u pt => Ok (hw3_handleCanvasClick u pt s, [])
  | EvDrop u pt => Ok (hw3_handleDrop u pt s, [])
  | EvDeleteShape id => s' ← hw3_handleDeleteShape id s; Ok (s', [])
  | EvExport => effs ← hw3_handleExport s; Ok (s, effs)
  | EvImportClick => Ok (s, handleImportClick)
  | EvFileChange f => Ok (s, handleFileChange f)
  | EvFileLoaded text => Ok (hw3_reader_onload text s)
  | EvSignUp => Ok (handleSignUp s, [])
  | EvLogin => Ok (handleLogin s, [])
  | EvCloseModal => Ok (setAuthModal None s, [])
  | EvTypeUsername v => Ok (set_fields (fun m => mkModal (mode m) v (password m)) s, [])
  | EvTypePassword v => Ok (set_fields (fun m => mkModal (mode m) (username m) v) s, [])
  | EvSubmit => Ok (form_submit s)
  | EvLogout => Ok (handleLogout s)
  | EvSave => Ok (handleSave s)
  | EvRestore => Ok (handleRestore s)
  | EvRespond id r => Ok (respond id r s)
  end.

(** Which events the rendered page can produce: [Header] shows Save,
    Restore and Logout only when [isLoggedIn], Sign Up and Login only
    when not; the form exists only while [authModal] is set.  A response
    may arrive at any time. *)
Definition enabled (e : session_event) (s : Session) : bool :=
  match e with
  | EvSave | EvRestore | EvLogout => isLoggedIn s
  | EvSignUp | EvLogin => negb (isLoggedIn s)
  | EvCloseModal | EvTypeUsername _ | EvTypePassword _ | EvSubmit =>
      bool_decide (authModal s <> None)
  | _ => true
  end.

(** [crypto.randomUUID()] returned an id no shape has. *)
Definition fresh_ev (e : session_event) (s : Session) : Prop :=
  match e with
  | EvCanvasClick u _ | EvDrop u _ => u ∉ omap jval_id (shapes (app s))
  | _ => True
  end.

(** Sessions reached from the initial one. *)
Inductive sreachable : Session -> Prop :=
| sreach_init : sreachable initial_session
| sreach_step s e s' effs :
    sreachable s -> enabled e s = true -> fresh_ev e s ->
    session_step e s = Ok (s', effs) -> sreachable s'.

(** ** The session invariant *)

(** The token is absent or a value [!!token] holds of. *)
Definition token_ok (t : option jval) : Prop :=
  match t with
  | None => True
  | Some v => truthy (Some v) = true
  end.

(** Pending requests have distinct numbers, all below the next one. *)
Definition pending_ok (s : Session) : Prop :=
  NoDup (map fst (pending s)) /\ Forall (fun p => p.1 < next_id s) (pending s).

(** The document is JSON data: every object in it has each key once. *)
Definition doc_ok (a : App) : Prop :=
  jval_wf (title a) = true /\ Forall (fun v => jval_wf v = true) (shapes a).

Definition session_inv (s : Session) : Prop :=
  token_ok (token s) /\ pending_ok s /\ doc_ok (app s).

(** ** Liveness and types *)

(** A move of the network: the response to a pending request arrives,
    whatever it is (a failure, or any status and body). *)
Definition net_step (s s' : Session) : Prop :=
  exists id r effs, id ∈ map fst (pending s) /\ session_step (EvRespond id r) s = Ok (s', effs).

(** [interface PaintingData { title: string; shapes: Shape[] }]: the
    document has the types the TypeScript source declares for it. *)
Definition doc_typed (a : App) : bool :=
  is_string (Some (title a)) &&
  forallb (fun v => match shape_of v with Some _ => true | None => false end) (shapes a).

(** ** Example sessions *)

(** The log-in form filled in with [ann] and [pw]. *)
Definition demo_form : Session :=
  set_fields (fun m => mkModal (mode m) (username m) "pw")
    (set_fields (fun m => mkModal (mode m) "ann" (password m))
       (setAuthModal (Some login) initial_session)).

(** A server's answer [{"token":"abc"}]. *)
Definition token_body : string := JSON_stringify (JObj [("token", JStr "abc")]) "".

(** After submitting [demo_form] and receiving [token_body]. *)
Definition demo_logged_in : Session :=
  (respond 0 (Resp 200 token_body) (form_submit demo_form).1).1.

(** ** What the continuations change *)

Create HintDb session discriminated.

Lemma save_resume_state r s : (save_resume r s).1 = s.
Proof. unfold save_resume. destruct r; repeat case_match; done. Qed.

Lemma auth_resume_frame m u r s :
  let s' := (auth_resume m u r s).1 in
  app s' = app s /\ pending s' = pending s /\ next_id s' = next_id s /\
  (token s' = token s \/ exists jwt, token s' = Some jwt /\ truthy (Some jwt) = true).
Proof.
  unfold auth_resume, handleAuthSuccess, setAuthModal.
  destruct r; repeat case_match; simplify_eq/=; eauto 10.
Qed.

(** [restore_try] either keeps the session or installs the title and
    shapes of a response it validated. *)
Lemma restore_resume_result r s :
  (restore_resume r s).1 = s \/
  exists st body d tv l,
    r = Resp st body /\ resp_ok st = true /\ JSON_parse body = Ok d /\
    get_prop d "title" = Ok (Some tv) /\ truthy (Some tv) = true /\
    get_prop d "shapes" = Ok (Some (JArr l)) /\
    restore_resume r s = (with_app (fun a => setShapes l (setTitle tv a)) s, [Alert msg_restored]).
Proof.
  destruct r as [|st body]; [by left|]. unfold restore_resume, restore_try.
  destruct (resp_ok st) eqn:Hok.
  2:{ left. unfold mbind, res_bind. repeat case_match; simplify_eq/=; done. }
  destruct (JSON_parse body) as [d|] eqn:Ed; cbn [mbind res_bind]; [|by left].
  destruct (get_prop d "title") as [t|] eqn:Et; cbn [mbind res_bind]; [|by left].
  destruct (truthy t) eqn:Htr; [|by left].
  destruct (get_prop d "shapes") as [sh|] eqn:Es; cbn [mbind res_bind]; [|by left].
  destruct t as [tv|], sh as [[| | | |l|]|]; try by left.
  right. by exists st, body, d, tv, l.
Qed.

(** ** The invariant is kept *)

Lemma accepted_doc_ok d tv l a :
  jval_wf d = true -> get_prop d "title" = Ok (Some tv) ->
  get_prop d "shapes" = Ok (Some (JArr l)) -> doc_ok (setShapes l (setTitle tv a)).
Proof.
  intros Hd Ht Hs. split; [by eapply get_prop_wf|].
  apply forallb_Forall. exact (get_prop_wf _ _ _ Hd Hs).
Qed.

Lemma shape_obj_wf sh : jval_wf (shape_obj sh) = true.
Proof. reflexivity. Qed.

Lemma doc_ok_place sh a : doc_ok a -> doc_ok (setShapes (shapes a ++ [shape_obj sh]) a).
Proof.
  intros [Ht Hs]. split; [done|]. apply Forall_app. split; [done|].
  constructor; [apply shape_obj_wf|constructor].
Qed.

Lemma canvas_doc_ok e a a' : doc_ok a -> canvas_dispatch e a = Ok a' -> doc_ok a'.
Proof.
  intros Hd. destruct e; simpl.
  - intros [= <-]. split; [done|apply Hd].
  - by intros [= <-].
  - by intros [= <-].
  - intros [= <-]. unfold handleCanvasClick. destruct (negb _); [done|]. by apply doc_ok_place.
  - intros [= <-]. unfold handleDrop. destruct (draggedShape a); [|done].
    apply (doc_ok_place _ _ Hd).
  - unfold handleDeleteShape. destruct (js_filter _ _) as [l|] eqn:El; cbn [mbind res_bind]; [|done].
    intros [= <-]. split; [apply Hd|]. eapply js_filter_Forall; [apply Hd|exact El].
Qed.

Lemma reader_onload_doc_ok text a : doc_ok a -> doc_ok (reader_onload text a).1.
Proof.
  intros Hd. destruct (reader_onload_result text a) as [->|(d & tv & l & Ed & Et & Es & ->)]; [done|].
  apply (accepted_doc_ok d); [by eapply JSON_parse_wf|done|done].
Qed.

Lemma with_app_inv f s : session_inv s -> doc_ok (f (app s)) -> session_inv (with_app f s).
Proof. intros (Ht & Hp & _) Hd. split; [exact Ht|split; [exact Hp|exact Hd]]. Qed.

Lemma setModal_inv m s : session_inv s -> session_inv (setModal m s).
Proof. done. Qed.

Lemma setAuthModal_inv m s : session_inv s -> session_inv (setAuthModal m s).
Proof. unfold setAuthModal. repeat case_match; apply setModal_inv. Qed.

Lemma set_fields_inv f s : session_inv s -> session_inv (set_fields f s).
Proof. unfold set_fields. case_match; [apply setModal_inv|done]. Qed.

Lemma start_request_inv k s : session_inv s -> session_inv (start_request k s).
Proof.
  intros (Ht & [Hnd Hlt] & Hd). split; [exact Ht|split; [split|exact Hd]]; simpl.
  - rewrite map_app. apply NoDup_app. repeat split; [done| |by apply NoDup_singleton].
    intros x Hx Hy. simpl in Hy. apply list_elem_of_singleton in Hy as ->.
    apply list_elem_of_In, in_map_iff in Hx as ([i k'] & Hi & Hin). simpl in Hi. subst i.
    rewrite Forall_forall in Hlt. specialize (Hlt (_, k') (proj2 (list_elem_of_In _ _) Hin)).
    simpl in Hlt. lia.
  - apply Forall_app. split; [|constructor; simpl; [lia|constructor]].
    eapply Forall_impl; [exact Hlt|]. simpl. lia.
Qed.

Lemma drop_request_inv id s : session_inv s -> session_inv (drop_request id s).
Proof.
  intros (Ht & [Hnd Hlt] & Hd). split; [exact Ht|split; [split|exact Hd]]; simpl.
  - by apply NoDup_map_filter.
  - by apply Forall_filter_bool.
Qed.

Lemma auth_resume_inv m u r s : session_inv s -> session_inv (auth_resume m u r s).1.
Proof.
  intros (Ht & [Hnd Hlt] & Hd). destruct (auth_resume_frame m u r s) as (Ha & Hp & Hn & Htk).
  split; [|split; [split|]]; rewrite ?Ha, ?Hp, ?Hn; try done.
  destruct Htk as [-> | (jwt & -> & Hj)]; done.
Qed.

Lemma restore_resume_inv r s : session_inv s -> session_inv (restore_resume r s).1.
Proof.
  intros Hi. destruct (restore_resume_result r s) as [->|(st & body & d & tv & l & _ & _ & Ed & Et & _ & Es & ->)];
    [done|]. apply with_app_inv; [done|]. apply (accepted_doc_ok d); [by eapply JSON_parse_wf|done|done].
Qed.

Lemma respond_inv id r s : session_inv s -> session_inv (respond id r s).1.
Proof.
  intros Hi. unfold respond. destruct (List.find _ _) as [[i k]|]; [|done].
  pose proof (drop_request_inv id s Hi). destruct k.
  - by apply auth_resume_inv.
  - by rewrite save_resume_state.
  - by apply restore_resume_inv.
Qed.

Lemma handleSubmit_inv s : session_inv s -> session_inv (handleSubmit s).1.
Proof. unfold handleSubmit. repeat case_match; simpl; auto using start_request_inv. Qed.

Lemma form_submit_inv s : session_inv s -> session_inv (form_submit s).1.
Proof. unfold form_submit. repeat case_match; simpl; auto using handleSubmit_inv. Qed.

Lemma handleSave_inv s : session_inv s -> session_inv (handleSave s).1.
Proof. unfold handleSave. case_match; simpl; auto using start_request_inv. Qed.

Lemma handleRestore_inv s : session_inv s -> session_inv (handleRestore s).1.
Proof. unfold handleRestore. case_match; simpl; auto using start_request_inv. Qed.

Lemma handleLogout_inv s : session_inv s -> session_inv (handleLogout s).1.
Proof. intros (_ & Hp & Hd). split; [done|split; [exact Hp|exact Hd]]. Qed.

Lemma hw3_canvas_inv e f s :
  session_inv s -> canvas_dispatch e (app s) = Ok (f (app s)) -> session_inv (with_app f s).
Proof. intros Hi He. apply with_app_inv; [done|]. eapply canvas_doc_ok; [apply Hi|exact He]. Qed.

#[local] Hint Unfold handleSignUp handleLogin : session.
#[local] Hint Resolve with_app_inv setAuthModal_inv set_fields_inv respond_inv
  form_submit_inv handleSave_inv handleRestore_inv handleLogout_inv : session.

Lemma ok_pair_fst {A B} (x : A * B) a b : Ok x = Ok (a, b) -> x.1 = a.
Proof. by intros [= ->]. Qed.

Ltac step_state :=
  let Hx := fresh in
  intros Hx%ok_pair_fst; cbn [fst] in Hx; subst.

Lemma session_step_inv e s s' effs :
  session_inv s -> session_step e s = Ok (s', effs) -> session_inv s'.
Proof.
  intros Hi. destruct e; cbn [session_step].
  all: try (step_state; eauto with session; fail).
  all: try (step_state;
            first [ eapply (hw3_canvas_inv (Canvas.EvSetTitle _)); [done|reflexivity]
                  | eapply (hw3_canvas_inv (Canvas.EvSelectShape _)); [done|reflexivity]
                  | eapply (hw3_canvas_inv (Canvas.EvDragStart _)); [done|reflexivity]
                  | eapply (hw3_canvas_inv (Canvas.EvCanvasClick _ _)); [done|reflexivity]
                  | eapply (hw3_canvas_inv (Canvas.EvDrop _ _)); [done|reflexivity] ]).
  - unfold hw3_handleDeleteShape.
    destruct (handleDeleteShape id (app s)) as [a|] eqn:Ea; cbn [mbind res_bind]; [|done].
    step_state. by apply (hw3_canvas_inv (Canvas.EvDeleteShape id) (fun _ => a)).
  - destruct (hw3_handleExport s); cbn [mbind res_bind]; [|done]. by step_state.
  - step_state. apply with_app_inv; [done|]. apply reader_onload_doc_ok, Hi.
Qed.

Lemma initial_session_inv : session_inv initial_session.
Proof. repeat split; constructor. Qed.

(** ** Which effects the handlers emit *)

Definition is_fetch (x : effect) : bool :=
  match x with Fetch _ => true | _ => false end.

Lemma respond_no_fetch id r s : forallb (fun x => negb (is_fetch x)) (respond id r s).2 = true.
Proof.
  unfold respond, auth_resume, save_resume, restore_resume, restore_try, mbind, res_bind.
  repeat case_match; simplify_eq/=; done.
Qed.

Lemma reader_onload_no_fetch text a :
  forallb (fun x => negb (is_fetch x)) (reader_onload text a).2 = true.
Proof. unfold reader_onload, onload_try, mbind, res_bind. repeat case_match; simplify_eq/=; done. Qed.

Lemma in_no_fetch r effs :
  forallb (fun x => negb (is_fetch x)) effs = true -> In (Fetch r) effs -> False.
Proof.
  intros H Hin. apply forallb_forall with (x := Fetch r) in H; [done|exact Hin].
Qed.

(** The only steps that emit a request: [handleSubmit], [handleSave],
    [handleRestore]. *)
Lemma session_step_fetch e s s' effs r :
  session_step e s = Ok (s', effs) -> In (Fetch r) effs ->
  (e = EvSubmit /\ form_submit s = (s', effs)) \/
  (e = EvSave /\ handleSave s = (s', effs)) \/
  (e = EvRestore /\ handleRestore s = (s', effs)).
Proof.
  destruct e; cbn [session_step]; try (intros [= <- <-]; simpl; tauto).
  - unfold hw3_handleDeleteShape. destruct (handleDeleteShape _ _); cbn [mbind res_bind]; [|done].
    intros [= <- <-]. simpl. tauto.
  - unfold hw3_handleExport, handleExport.
    case_match; cbn [mbind res_bind]; try done; intros [= <- <-]; simpl; intuition congruence.
  - intros [= <- <-]. simpl. intuition congruence.
  - intros [= <- <-]. unfold handleFileChange. repeat case_match; simpl; intuition congruence.
  - intros [= <- <-]. intros Hin. exfalso. eapply in_no_fetch; [|exact Hin].
    apply reader_onload_no_fetch.
  - intros [= H] _. by left.
  - intros [= _ <-]. simpl. intuition congruence.
  - intros [= H] _. right; by left.
  - intros [= H] _. right; by right.
  - intros [= H] Hin. exfalso. eapply in_no_fetch; [|exact Hin].
    change effs with (s', effs).2. rewrite <- H. apply respond_no_fetch.
Qed.

Lemma truthy_some t : truthy t = true -> exists v, t = Some v /\ truthy (Some v) = true.
Proof. destruct t as [v|]; [by exists v|done]. Qed.

Lemma in_single_fetch r q : In (Fetch r) [Fetch q] -> r = q.
Proof. by intros [[= ->]|[]]. Qed.

Lemma demo_reachable : sreachable demo_logged_in.
Proof.
  set (s1 := setAuthModal (Some login) initial_session).
  set (s2 := set_fields (fun m => mkModal (mode m) "ann" (password m)) s1).
  apply (sreach_step (form_submit demo_form).1 (EvRespond 0 (Resp 200 token_body)) _
           (respond 0 (Resp 200 token_body) (form_submit demo_form).1).2);
    [|reflexivity|exact I|reflexivity].
  apply (sreach_step demo_form EvSubmit _ (form_submit demo_form).2); [|reflexivity|exact I|reflexivity].
  apply (sreach_step s2 (EvTypePassword "pw") _ []); [|reflexivity|exact I|reflexivity].
  apply (sreach_step s1 (EvTypeUsername "ann") _ []); [|reflexivity|exact I|reflexivity].
  apply (sreach_step initial_session EvLogin _ []); [constructor|reflexivity|exact I|reflexivity].
Qed.

(** The invariant holds in every reachable session. *)
Lemma reachable_inv s : sreachable s -> session_inv s.
Proof.
  induction 1 as [|s e s' effs _ IH _ _ Hstep].
  - apply initial_session_inv.
  - exact (session_step_inv e s s' effs IH Hstep).
Qed.

(** A restore response carrying the JSON text of a painting installs it. *)
Lemma restore_resume_app st gap a s :
  str_forall is_ws gap = true -> resp_ok st = true -> truthy (Some (title a)) = true ->
  jval_wf (painting_data a) = true ->
  restore_resume (Resp st (JSON_stringify (painting_data a) gap)) s =
  (with_app (fun b => setShapes (shapes a) (setTitle (title a) b)) s, [Alert msg_restored]).
Proof.
  intros Hg Hok Ht Hw. unfold restore_resume, restore_try. rewrite Hok.
  rewrite (JSON_parse_stringify gap Hg _ Hw). simpl. simpl in Ht. by rewrite Ht.
Qed.

(** Answering request [i] leaves the other pending requests as they are. *)
Lemma find_drop_other (l : list (nat * Pending)) i j :
  i <> j ->
  List.find (fun p => Nat.eqb p.1 j) (List.filter (fun p => negb (Nat.eqb p.1 i)) l) =
  List.find (fun p => Nat.eqb p.1 j) l.
Proof.
  intros Hij. induction l as [|[k x] l IH]; [done|]. simpl.
  destruct (Nat.eqb_spec k i) as [->|]; simpl.
  - by rewrite (proj2 (Nat.eqb_neq i j) Hij).
  - by destruct (Nat.eqb k j).
Qed.

(** The document part of the session after a restore response. *)
Lemma respond_restore_app id s r :
  List.find (fun p => Nat.eqb p.1 id) (pending s) = Some (id, PRestore) ->
  respond id r s = restore_resume r (drop_request id s).
Proof. unfold respond. by intros ->. Qed.

(** *** Requests need the token *)

(** C12. Every request a step of the session sends to the painting
    endpoint is sent while a token is held, and carries it as the header
    [Authorization: Bearer <token>]: without a token no step ever
    contacts [/painting]. *)
Theorem painting_requests_carry_token e s s' effs r :
  session_step e s = Ok (s', effs) -> In (Fetch r) effs ->
  req_url r = (api ++ "/painting")%string ->
  exists t, token s = Some t /\ truthy (Some t) = true /\
    In ("Authorization", ("Bearer " ++ jval_to_string t)%string) (req_headers r).
Proof.
  intros Hs Hin Hu.
  destruct (session_step_fetch _ _ _ _ _ Hs Hin) as [[_ H]|[[_ H]|[_ H]]].
  - unfold form_submit, handleSubmit in H. repeat case_match; simplify_eq/=; try done.
    all: destruct Hin as [Hin|[]]; simplify_eq; vm_compute in Hu; congruence.
  - unfold handleSave in H. destruct (truthy (token s)) eqn:Ht; simplify_eq/=; [|by destruct Hin as [|[]]].
    apply in_single_fetch in Hin as ->. destruct (truthy_some _ Ht) as (t & Et & Htr).
    exists t. unfold bearer. rewrite Et. split; [done|split; [exact Htr|simpl; auto]].
  - unfold handleRestore in H. destruct (truthy (token s)) eqn:Ht; simplify_eq/=; [|by destruct Hin as [|[]]].
    apply in_single_fetch in Hin as ->. destruct (truthy_some _ Ht) as (t & Et & Htr).
    exists t. unfold bearer. rewrite Et. split; [done|split; [exact Htr|simpl; auto]].
Qed.

Lemma painting_requests_carry_token_witness :
  let s := setToken (Some (JStr "abc")) initial_session in
  exists t, token s = Some t /\ truthy (Some t) = true /\
    In ("Authorization", ("Bearer " ++ jval_to_string t)%string)
       (req_headers (mkRequest "GET" (api ++ "/painting") (bearer s) None)).
Proof.
  intros s. apply (painting_requests_carry_token EvRestore s (start_request PRestore s)
                     [Fetch (mkRequest "GET" (api ++ "/painting") (bearer s) None)]).
  - reflexivity.
  - by left.
  - reflexivity.
Defined.

(** Save and Restore without a token (after logout, or before any
    log in) send no request: each alerts its own log-in message and
    leaves the session as it is. *)
Theorem save_restore_without_token s :
  isLoggedIn s = false ->
  handleSave s = (s, [Alert msg_save_login]) /\ handleRestore s = (s, [Alert msg_restore_login]).
Proof. unfold isLoggedIn, handleSave, handleRestore. intros ->. done. Qed.

Lemma save_restore_without_token_witness :
  let s := (handleLogout (setToken (Some (JStr "abc")) initial_session)).1 in
  isLoggedIn s = false /\ handleSave s = (s, [Alert msg_save_login]) /\
  handleRestore s = (s, [Alert msg_restore_login]).
Proof. intros s. split; [reflexivity|]. apply save_restore_without_token. reflexivity. Defined.

(** *** The invariant *)

(** C13. In every session reachable from the initial one, [isLoggedIn]
    holds exactly when a token is held (the token is never a falsy
    value), the pending requests have distinct numbers, all below
    [next_id], and the document [{title, shapes}] is JSON data whose
    objects have each key once. *)
Theorem sreachable_session_inv s :
  sreachable s ->
  (isLoggedIn s = true <-> token s <> None) /\
  NoDup (map fst (pending s)) /\ Forall (fun p => p.1 < next_id s) (pending s) /\
  jval_wf (painting_data (app s)) = true.
Proof.
  intros Hr. destruct (reachable_inv s Hr) as (Ht & [Hnd Hlt] & [Hwt Hl]).
  split; [|split; [done|split; [done|by apply painting_data_wf]]].
  unfold isLoggedIn. destruct (token s) as [v|]; simpl in *; [|done]. split; [done|]. by intros _.
Qed.

Lemma sreachable_session_inv_witness :
  (isLoggedIn demo_logged_in = true <-> token demo_logged_in <> None) /\
  NoDup (map fst (pending demo_logged_in)) /\
  Forall (fun p => p.1 < next_id demo_logged_in) (pending demo_logged_in) /\
  jval_wf (painting_data (app demo_logged_in)) = true.
Proof. apply sreachable_session_inv. apply demo_reachable. Defined.

(** C14. What Save sends is what Restore installs: in a reachable
    session with a truthy title, if the server answers a later restore
    with the body of the save request, the title and shapes become those
    that were saved, whatever the session has become in between. *)
Theorem save_restore_roundtrip s s' req s2 :
  sreachable s -> truthy (Some (title (app s))) = true ->
  handleSave s = (s', [Fetch req]) ->
  exists body, req_body req = Some body /\
    restore_resume (Resp 200 body) s2 =
    (with_app (fun a => setShapes (shapes (app s)) (setTitle (title (app s)) a)) s2,
     [Alert msg_restored]).
Proof.
  intros Hr Ht Hs. destruct (reachable_inv s Hr) as (_ & _ & Hwt & Hl).
  unfold handleSave in Hs. destruct (truthy (token s)); simplify_eq/=.
  eexists; split; [reflexivity|]. apply restore_resume_app; [done|done|done|].
  by apply painting_data_wf.
Qed.

Lemma save_restore_roundtrip_witness :
  let s0 := demo_logged_in in
  exists body, req_body (mkRequest "POST" (api ++ "/painting")
                 (("Content-Type", "application/json") :: bearer s0)
                 (Some (JSON_stringify (painting_data (app s0)) ""))) = Some body /\
    restore_resume (Resp 200 body) initial_session =
    (with_app (fun a => setShapes (shapes (app s0)) (setTitle (title (app s0)) a)) initial_session,
     [Alert msg_restored]).
Proof.
  intros s0. apply (save_restore_roundtrip s0 (start_request PSave s0)).
  - apply demo_reachable.
  - reflexivity.
  - reflexivity.
Defined.

(** *** Restore: its outcomes and their order *)

(** C15. A restore answered [404] reports that no painting is saved,
    whatever the body, and keeps the session; a restore answered [500]
    also keeps the session but never reports that message: the two are
    told apart. *)
Theorem restore_404_distinct_from_500 s b b' :
  restore_resume (Resp 404 b) s = (s, [Alert msg_no_saved]) /\
  (restore_resume (Resp 500 b') s).1 = s /\
  (restore_resume (Resp 500 b') s).2 <> [Alert msg_no_saved].
Proof.
  split; [reflexivity|]. unfold restore_resume, restore_try. simpl.
  destruct (JSON_parse b') as [d|]; cbn [mbind res_bind]; [|done].
  destruct (get_prop d "message"); cbn [mbind res_bind]; [|done].
  split; [done|]. by intros [= H].
Qed.

(** C16. Two restores in flight: the document ends as the answer that
    arrives last, not as the answer to the request made last (the
    spec's last-response-wins). *)
Theorem restore_last_response_wins s i j gap a1 a2 :
  i <> j ->
  List.find (fun p => Nat.eqb p.1 i) (pending s) = Some (i, PRestore) ->
  List.find (fun p => Nat.eqb p.1 j) (pending s) = Some (j, PRestore) ->
  str_forall is_ws gap = true ->
  truthy (Some (title a1)) = true -> jval_wf (painting_data a1) = true ->
  truthy (Some (title a2)) = true -> jval_wf (painting_data a2) = true ->
  let r1 := Resp 200 (JSON_stringify (painting_data a1) gap) in
  let r2 := Resp 200 (JSON_stringify (painting_data a2) gap) in
  let s12 := (respond j r2 (respond i r1 s).1).1 in
  let s21 := (respond i r1 (respond j r2 s).1).1 in
  title (app s12) = title a2 /\ shapes (app s12) = shapes a2 /\
  title (app s21) = title a1 /\ shapes (app s21) = shapes a1.
Proof.
  intros Hij Hi Hj Hg Ht1 Hw1 Ht2 Hw2 r1 r2 s12 s21. subst s12 s21 r1 r2.
  rewrite (respond_restore_app i s) by done. rewrite (respond_restore_app j s) by done.
  rewrite !restore_resume_app by done. cbn [fst].
  rewrite (respond_restore_app j), (respond_restore_app i).
  - rewrite !restore_resume_app by done. done.
  - simpl. rewrite find_drop_other by done. done.
  - simpl. rewrite find_drop_other by done. done.
Qed.

Lemma restore_last_response_wins_witness :
  let s := (handleRestore (handleRestore demo_logged_in).1).1 in
  let a1 := setTitle (JStr "A") initial_app in
  let a2 := setTitle (JStr "B") initial_app in
  let r1 := Resp 200 (JSON_stringify (painting_data a1) "") in
  let r2 := Resp 200 (JSON_stringify (painting_data a2) "") in
  let s12 := (respond 2 r2 (respond 1 r1 s).1).1 in
  let s21 := (respond 1 r1 (respond 2 r2 s).1).1 in
  title (app s12) = title a2 /\ shapes (app s12) = shapes a2 /\
  title (app s21) = title a1 /\ shapes (app s21) = shapes a1.
Proof.
  intros s a1 a2.
  apply (restore_last_response_wins s 1 2 "" a1 a2); try reflexivity. lia.
Defined.

(** C17. A server error whose body is not JSON (a proxy's HTML page, an
    empty body) is reported exactly as a failure to reach the server:
    [response.json()] rejects and the [catch] block runs, for restore,
    save and authentication alike. *)
Theorem server_failure_reported_as_transport_failure s st body e :
  resp_ok st = false -> st <> 404%Z -> JSON_parse body = Throw e ->
  restore_resume (Resp st body) s = restore_resume NetworkError s /\
  save_resume (Resp st body) s = save_resume NetworkError s /\
  (forall m u st', auth_resume m u (Resp st' body) s = auth_resume m u NetworkError s).
Proof.
  intros Hok H404 Hp. split; [|split].
  - unfold restore_resume, restore_try. rewrite Hok.
    destruct (Z.eqb_spec st 404); [done|]. by rewrite Hp.
  - unfold save_resume. by rewrite Hok, Hp.
  - intros m u st'. unfold auth_resume. by rewrite Hp.
Qed.

Lemma server_failure_reported_as_transport_failure_witness :
  restore_resume (Resp 502 "Bad Gateway") initial_session = restore_resume NetworkError initial_session /\
  save_resume (Resp 502 "Bad Gateway") initial_session = save_resume NetworkError initial_session /\
  (forall m u st', auth_resume m u (Resp st' "Bad Gateway") initial_session =
                   auth_resume m u NetworkError initial_session).
Proof.
  apply (server_failure_reported_as_transport_failure initial_session 502 "Bad Gateway" SyntaxError);
    [reflexivity|lia|reflexivity].
Defined.

(** C18. Logging out does not cancel a restore in flight: its answer,
    arriving after the logout, still replaces the document while no one
    is logged in. *)
Theorem restore_after_logout_overwrites s id gap a :
  List.find (fun p => Nat.eqb p.1 id) (pending s) = Some (id, PRestore) ->
  str_forall is_ws gap = true ->
  truthy (Some (title a)) = true -> jval_wf (painting_data a) = true ->
  let out := respond id (Resp 200 (JSON_stringify (painting_data a) gap)) (handleLogout s).1 in
  token out.1 = None /\ isLoggedIn out.1 = false /\
  title (app out.1) = title a /\ shapes (app out.1) = shapes a /\ out.2 = [Alert msg_restored].
Proof.
  intros Hf Hg Ht Hw out. subst out.
  rewrite (respond_restore_app id) by done. by rewrite restore_resume_app.
Qed.

Lemma restore_after_logout_overwrites_witness :
  let s := (handleRestore demo_logged_in).1 in
  let a := setTitle (JStr "Old") initial_app in
  let out := respond 1 (Resp 200 (JSON_stringify (painting_data a) "")) (handleLogout s).1 in
  token out.1 = None /\ isLoggedIn out.1 = false /\
  title (app out.1) = title a /\ shapes (app out.1) = shapes a /\ out.2 = [Alert msg_restored].
Proof. intros s a. apply restore_after_logout_overwrites; reflexivity. Defined.

(** *** Authentication *)

(** The alert after a successful authentication. *)
Lemma auth_resume_ok m u st body s d :
  JSON_parse body = Ok d -> resp_ok st = true ->
  auth_resume m u (Resp st body) s =
  match get_prop d "token" with
  | Throw _ => (s, [ConsoleError "Authentication error:"; Alert msg_auth_connect])
  | Ok (Some jwt) =>
      if truthy (Some jwt) then
        (handleAuthSuccess jwt s,
         [Alert ("Successfully " ++ (match m with
                                     | signup => "signed up and logged in"
                                     | login => "logged in"
                                     end) ++ " as " ++ u)%string])
      else (setAuthModal None s, [Alert msg_signup_ok])
  | Ok None => (setAuthModal None s, [Alert msg_signup_ok])
  end.
Proof. intros Hp Hok. unfold auth_resume. rewrite Hp, Hok. by destruct (get_prop d "token") as [[jwt|]|]. Qed.

(** C19. The outcomes of an answered sign-up or log-in whose body is a
    JSON object: a success status with a truthy [token] stores it, closes
    the modal, keeps the document and the pending requests and alerts
    ["Successfully signed up and logged in as u"] or ["Successfully
    logged in as u"] by the mode; a success status without one closes
    the modal, keeps the token and asks the user to log in, whichever
    the mode; any other status keeps the session, the modal included,
    and alerts ["Error: "] followed by the body's [message] when it is
    a non-empty string, and by ["Something went wrong"] when it is
    missing or falsy. *)
Theorem auth_response_cases m u st body s fs :
  JSON_parse body = Ok (JObj fs) ->
  let out := auth_resume m u (Resp st body) s in
  (resp_ok st = true -> forall jwt, prop_lookup "token" fs = Some jwt -> truthy (Some jwt) = true ->
     token out.1 = Some jwt /\ authModal out.1 = None /\ app out.1 = app s /\
     pending out.1 = pending s /\
     out.2 = [Alert ("Successfully " ++ (match m with signup => "signed up and logged in"
                                               | login => "logged in" end) ++ " as " ++ u)%string]) /\
  (resp_ok st = true -> truthy (prop_lookup "token" fs) = false ->
     token out.1 = token s /\ authModal out.1 = None /\ out.2 = [Alert msg_signup_ok]) /\
  (resp_ok st = false -> out.1 = s /\
     (forall msg, prop_lookup "message" fs = Some (JStr msg) -> msg <> EmptyString ->
        out.2 = [Alert ("Error: " ++ msg)%string]) /\
     (truthy (prop_lookup "message" fs) = false ->
        out.2 = [Alert "Error: Something went wrong"])).
Proof.
  intros Hp out. subst out. split; [|split].
  - intros Hok jwt Hj Ht. rewrite (auth_resume_ok _ _ _ _ _ _ Hp Hok). cbn [get_prop].
    rewrite Hj, Ht. by destruct m.
  - intros Hok Ht. rewrite (auth_resume_ok _ _ _ _ _ _ Hp Hok). cbn [get_prop].
    destruct (prop_lookup "token" fs) as [v|]; [rewrite Ht|]; done.
  - intros Hok. unfold auth_resume. rewrite Hp, Hok. cbn [get_prop mbind res_bind].
    split; [done|split].
    + intros msg Hm Hne. rewrite Hm. unfold or_default. cbn [truthy js_to_string jval_to_string].
      by destruct (String.eqb_spec msg "").
    + intros Hf. unfold or_default. by rewrite Hf.
Qed.

Lemma auth_response_cases_witness :
  let out := auth_resume login "ann" (Resp 200 token_body) demo_form in
  token out.1 = Some (JStr "abc") /\ authModal out.1 = None /\ app out.1 = app demo_form /\
  pending out.1 = pending demo_form /\
  out.2 = [Alert ("Successfully " ++ "logged in" ++ " as " ++ "ann")%string].
Proof.
  intros out. apply (auth_response_cases login "ann" 200 token_body demo_form [("token", JStr "abc")]);
    reflexivity.
Defined.

(** C20. Cancelling the modal does not cancel a log-in in flight: when
    its answer carries a token after the user closed the modal, the
    session is logged in all the same. *)
Theorem auth_after_cancel_logs_in s id m u st body fs jwt :
  List.find (fun p => Nat.eqb p.1 id) (pending s) = Some (id, PAuth m u) ->
  JSON_parse body = Ok (JObj fs) -> resp_ok st = true ->
  prop_lookup "token" fs = Some jwt -> truthy (Some jwt) = true ->
  let s' := (respond id (Resp st body) (setAuthModal None s)).1 in
  authModal (setAuthModal None s) = None /\ token s' = Some jwt /\ isLoggedIn s' = true.
Proof.
  intros Hf Hp Hok Hj Ht s'. subst s'. split; [done|].
  unfold respond. cbn [pending setAuthModal setModal]. rewrite Hf.
  rewrite (auth_resume_ok _ _ _ _ _ _ Hp Hok). cbn [get_prop]. rewrite Hj, Ht. done.
Qed.

Lemma auth_after_cancel_logs_in_witness :
  let s := (form_submit demo_form).1 in
  let s' := (respond 0 (Resp 200 token_body) (setAuthModal None s)).1 in
  authModal (setAuthModal None s) = None /\ token s' = Some (JStr "abc") /\ isLoggedIn s' = true.
Proof.
  intros s. apply (auth_after_cancel_logs_in s 0 login "ann" 200 token_body [("token", JStr "abc")]);
    reflexivity.
Defined.

(** C21. Submitting the filled-in form sends one POST to the endpoint of
    the modal's mode, records the request, and its body is JSON that
    parses back to exactly [{username, password}]. *)
Theorem submit_request_roundtrip s m :
  authModal s = Some m -> username m <> EmptyString -> password m <> EmptyString ->
  exists req,
    form_submit s = (start_request (PAuth (mode m) (username m)) s, [Fetch req]) /\
    req_method req = "POST" /\
    req_url req = (api ++ match mode m with
                          | signup => "/auth/signup"
                          | login => "/auth/login"
                          end)%string /\
    exists body, req_body req = Some body /\
      JSON_parse body = Ok (JObj [("username", JStr (username m)); ("password", JStr (password m))]).
Proof.
  intros Hm Hu Hpw. unfold form_submit, handleSubmit. rewrite Hm.
  rewrite (proj2 (String.eqb_neq _ _) Hu), (proj2 (String.eqb_neq _ _) Hpw). simpl.
  rewrite (proj2 (String.eqb_neq _ _) Hu), (proj2 (String.eqb_neq _ _) Hpw). simpl.
  eexists; split; [reflexivity|]. split; [done|]. split; [by destruct (mode m)|].
  eexists; split; [reflexivity|]. by apply (JSON_parse_stringify "").
Qed.

Lemma submit_request_roundtrip_witness :
  exists req,
    form_submit demo_form = (start_request (PAuth login "ann") demo_form, [Fetch req]) /\
    req_method req = "POST" /\ req_url req = (api ++ "/auth/login")%string /\
    exists body, req_body req = Some body /\
      JSON_parse body = Ok (JObj [("username", JStr "ann"); ("password", JStr "pw")]).
Proof.
  apply (submit_request_roundtrip demo_form (mkModal login "ann" "pw")); [reflexivity|done|done].
Defined.

(** C22. The alert ["Please fill in all fields."] of [handleSubmit] is
    dead code: submitting the form never raises it, because the inputs
    are [required] and the browser blocks an empty submission; called
    directly on an empty field, [handleSubmit] would raise it. *)
Theorem fill_fields_alert_unreachable s :
  ~ In (Alert msg_fill_fields) (form_submit s).2 /\
  (forall m, authModal s = Some m -> username m = EmptyString ->
     handleSubmit s = (s, [Alert msg_fill_fields])).
Proof.
  split.
  - unfold form_submit, handleSubmit. destruct (authModal s) as [m|]; simpl; [|by intros []].
    destruct (String.eqb (username m) "") eqn:Eu; simpl; [by intros []|].
    destruct (String.eqb (password m) "") eqn:Ep; simpl; [by intros []|].
    by intros [[=]|[]].
  - intros m Hm Hu. unfold handleSubmit. by rewrite Hm, Hu.
Qed.

Lemma fill_fields_alert_unreachable_witness :
  let s := setAuthModal (Some login) initial_session in
  ~ In (Alert msg_fill_fields) (form_submit s).2 /\ handleSubmit s = (s, [Alert msg_fill_fields]).
Proof.
  intros s. destruct (fill_fields_alert_unreachable s) as [H1 H2].
  split; [exact H1|]. apply (H2 (mkModal login "" "")); reflexivity.
Defined.

(** *** Every request is eventually settled *)

Lemma find_pending id (l : list (nat * Pending)) :
  id ∈ map fst l -> exists k, List.find (fun p => Nat.eqb p.1 id) l = Some (id, k).
Proof.
  induction l as [|[j k] l IH]; simpl; [by rewrite elem_of_nil|].
  rewrite elem_of_cons. destruct (Nat.eqb_spec j id) as [->|Hne]; [by eauto|].
  intros [->|H]; [done|]. by apply IH.
Qed.

Lemma drop_length id (l : list (nat * Pending)) :
  id ∈ map fst l -> length (List.filter (fun p => negb (Nat.eqb p.1 id)) l) < length l.
Proof.
  induction l as [|[j k] l IH]; simpl; [by rewrite elem_of_nil|].
  rewrite elem_of_cons. pose proof (filter_length_le (fun p => negb (Nat.eqb p.1 id)) l) as Hle.
  destruct (Nat.eqb_spec j id) as [->|Hne]; simpl; [lia|].
  intros [->|H]; [done|]. specialize (IH H). lia.
Qed.

(** C23. Liveness: as long as the server answers, every
    request the page sends is settled.  From any session, every run of
    responses to pending requests (each response a network failure or
    any status and body, in any order) ends with no request pending: a
    response always removes its request and no continuation sends a new
    one. *)
Theorem requests_settle s : inevitable net_step (fun s' => pending s' = []) s.
Proof.
  apply (inevitable_measure net_step _ (fun s => length (pending s))); clear s.
  - intros s. destruct (pending s) as [|[id k] l] eqn:Hp; [by left|right].
    exists (respond id NetworkError s).1, id, NetworkError, (respond id NetworkError s).2.
    split; [rewrite Hp; apply elem_of_cons; by left|]. cbn [session_step].
    by rewrite <- surjective_pairing.
  - intros s s' (id & r & effs & Hin & Hs). cbn [session_step] in Hs.
    apply ok_pair_fst in Hs. subst s'.
    (* A response removes its request and no continuation starts another. *)
    destruct (find_pending id _ Hin) as [k Hf]. unfold respond. rewrite Hf.
    apply (drop_length id) in Hin. destruct k as [m u| |].
    + by destruct (auth_resume_frame m u r (drop_request id s)) as (_ & -> & _).
    + by rewrite save_resume_state.
    + by destruct (restore_resume_result r (drop_request id s))
        as [->|(st & body & d & tv & l & _ & _ & _ & _ & _ & _ & ->)].
Qed.

(** *** The document keeps its declared types *)

Lemma doc_typed_snoc a sh :
  doc_typed a = true -> doc_typed (setShapes (shapes a ++ [shape_obj sh]) a) = true.
Proof.
  unfold doc_typed, setShapes. cbn [title shapes]. rewrite forallb_app. cbn [forallb].
  rewrite shape_of_obj. intros H. bool_hyps. by rewrite H, H0.
Qed.

Lemma canvas_typed e a a' : doc_typed a = true -> canvas_dispatch e a = Ok a' -> doc_typed a' = true.
Proof.
  intros Ht. destruct e as [v|t|t|u pt|u pt|id]; cbn [canvas_dispatch].
  - intros [= <-]. unfold doc_typed in *. bool_hyps. done.
  - by intros [= <-].
  - by intros [= <-].
  - intros [= <-]. unfold handleCanvasClick. destruct (negb _); [done|]. by apply doc_typed_snoc.
  - intros [= <-]. unfold handleDrop. destruct (draggedShape a); [|done]. by apply doc_typed_snoc.
  - unfold handleDeleteShape. destruct (js_filter _ _) as [l|] eqn:El; cbn [mbind res_bind]; [|done].
    intros [= <-]. unfold doc_typed, setShapes in *. cbn [title shapes]. bool_hyps. rewrite H.
    cbn [andb]. apply forallb_Forall. eapply js_filter_Forall; [|exact El]. by apply forallb_Forall.
Qed.

Lemma setAuthModal_app m s : app (setAuthModal m s) = app s.
Proof. unfold setAuthModal. by repeat case_match. Qed.

Lemma set_fields_app f s : app (set_fields f s) = app s.
Proof. unfold set_fields. by case_match. Qed.

Lemma form_submit_app s : app (form_submit s).1 = app s.
Proof. unfold form_submit, handleSubmit. by repeat case_match. Qed.

Lemma handleSave_app s : app (handleSave s).1 = app s.
Proof. unfold handleSave. by case_match. Qed.

Lemma handleRestore_app s : app (handleRestore s).1 = app s.
Proof. unfold handleRestore. by case_match. Qed.

#[local] Hint Rewrite setAuthModal_app set_fields_app form_submit_app handleSave_app
  handleRestore_app : session_app.

(** Only a restore response can change the document among the responses. *)
Lemma respond_typed id r s :
  doc_typed (app s) = true -> doc_typed (app (respond id r s).1) = true \/ (id, PRestore) ∈ pending s.
Proof.
  intros Ht. unfold respond. destruct (List.find _ _) as [[i k]|] eqn:Hf; [|by left].
  apply find_some in Hf as [Hin Heq]. apply Nat.eqb_eq in Heq. simpl in Heq. subst i.
  destruct k as [m u| |].
  - left. by destruct (auth_resume_frame m u r (drop_request id s)) as (-> & _).
  - left. by rewrite save_resume_state.
  - right. by apply list_elem_of_In.
Qed.

(** C24. Type preservation: every step of the session
    keeps the document at its declared TypeScript types ([title] a
    string, [shapes] objects with a string [id], a [ShapeType] [type]
    and numbers [x], [y]), except the two that install data from
    outside: a file read by [reader.onload] and the answer to a
    restore.  Neither checks those types. *)
Theorem steps_keep_types e s s' effs :
  doc_typed (app s) = true -> session_step e s = Ok (s', effs) ->
  doc_typed (app s') = true \/ (exists text, e = EvFileLoaded text) \/
  (exists id r, e = EvRespond id r /\ (id, PRestore) ∈ pending s).
Proof.
  intros Ht. destruct e; cbn [session_step]; unfold handleSignUp, handleLogin.
  all: try (step_state; left; autorewrite with session_app; exact Ht).
  all: try (step_state; left;
            first [ apply (canvas_typed (Canvas.EvSetTitle v) (app s)); [done|reflexivity]
                  | apply (canvas_typed (Canvas.EvSelectShape t) (app s)); [done|reflexivity]
                  | apply (canvas_typed (Canvas.EvDragStart t) (app s)); [done|reflexivity]
                  | apply (canvas_typed (Canvas.EvCanvasClick uuid pt) (app s)); [done|reflexivity]
                  | apply (canvas_typed (Canvas.EvDrop uuid pt) (app s)); [done|reflexivity] ]).
  - unfold hw3_handleDeleteShape.
    destruct (handleDeleteShape id (app s)) as [a|] eqn:Ea; cbn [mbind res_bind]; [|done].
    step_state. left. by apply (canvas_typed (Canvas.EvDeleteShape id) (app s)).
  - destruct (hw3_handleExport s); cbn [mbind res_bind]; [|done]. step_state. by left.
  - intros _. right; left. by eexists.
  - step_state. destruct (respond_typed id r s Ht) as [H|H]; [by left|right; right; by eauto].
Qed.

Lemma steps_keep_types_witness :
  doc_typed (app initial_session) = true /\
  (doc_typed (app (hw3_handleCanvasClick "a" (1, 2)%Z initial_session)) = true \/
   (exists text, EvCanvasClick "a" (1, 2)%Z = EvFileLoaded text) \/
   (exists id r, EvCanvasClick "a" (1, 2)%Z = EvRespond id r /\ (id, PRestore) ∈ pending initial_session)).
Proof.
  split; [reflexivity|].
  apply (steps_keep_types (EvCanvasClick "a" (1, 2)%Z) initial_session _ []); reflexivity.
Defined.

(** A restore answered with a painting whose title is a number installs
    it: the document no longer has its declared types. *)
Lemma restore_installs_untyped_title :
  let s := (handleRestore demo_logged_in).1 in
  doc_typed (app s) = true /\
  doc_typed (app (respond 1 (Resp 200 (JSON_stringify (JObj [("title", JNum 5); ("shapes", JArr [])]) "")) s).1)
    = false.
Proof. split; vm_compute; reflexivity. Qed.

End Session.
