(* ===== verification/Formula.v ===== *)
(** * HW1: formula elements bound to input fields

    Models [src/HW1/script.js].  For every [<formula evaluator="...">]
    element the script reads the expression, collects the identifiers
    matched by the global regular expression [idRegex = /[a-zA-Z]\w*/g]
    without repetition ([getInputIds]), registers [evaluateFormula] as
    the [input] listener of the element with each of those ids, and
    evaluates once.  [evaluateFormula] rewrites the expression with
    [formulaString.replace(idRegex, ...)], substituting [(value)] for
    every identifier and noting whether some value is empty, then shows
    [Result: <eval(expression)>.], [Invalid Formula.] or
    [Please enter all inputs.].

    - The regular expression is modelled by [segments]: the loop of
      [RegExp.prototype[@@match]] and [[@@replace]] with the [g] flag,
      which tries a match at [lastIndex], moves one character on when
      none starts there, and otherwise continues after the (greedy)
      match.  It cuts the string into literal characters and matched
      identifiers.
    - The document is the list of its elements with an id, in document
      order ([getElementById] returns the first), each with its [value]
      ([None] when the element has no [value] property, which reads as
      [undefined]).  The formula elements are a separate list, with
      their [evaluator] attribute and their [innerHTML].
    - [eval] is a parameter [js_eval] of the Section: [Ok r] when the
      expression evaluates to a value whose [String] is [r], [Throw]
      when it throws.  Every theorem holds for any such function.
    - The set-up loop runs [forEach] over the formula elements: an
      exception (a missing [evaluator] attribute, a missing element)
      escapes the callback and ends the loop, keeping the listeners
      already registered.  An exception in an [input] listener is
      reported and the other listeners still run. *)

From S2P Require Import Prelude JsValue.
From Stdlib Require Import String Ascii NArith Lia.
From stdpp Require Import base list.
From Equations Require Import Equations.

Module Formula.

(** ** The regular expression [/[a-zA-Z]\w*/g] *)

Definition in_range (lo hi : N) (c : ascii) : bool :=
  (lo <=? N_of_ascii c)%N && (N_of_ascii c <=? hi)%N.

(** [[a-zA-Z]] *)
Definition is_alpha (c : ascii) : bool := in_range 65 90 c || in_range 97 122 c.

(** [\w], that is [[A-Za-z0-9_]] *)
Definition is_word (c : ascii) : bool := is_alpha c || in_range 48 57 c || Ascii.eqb c "_".

(** [\w*], greedy: the longest prefix of word characters, and the rest. *)
Fixpoint take_word (s : string) : string * string :=
  match s with
  | String c s' =>
      if is_word c then let r := take_word s' in (String c r.1, r.2)
      else (EmptyString, s)
  | EmptyString => (EmptyString, EmptyString)
  end.

(** A character the expression keeps, or an identifier [idRegex] matched. *)
Inductive piece : Type :=
| Lit (c : ascii)
| Ident (x : string).

(** The scan of the global regular expression: a match starts at a
    letter and runs over the longest following [\w*]; where no match
    starts, [lastIndex] moves one character on. *)
Equations? segments (s : string) : list piece by wf (String.length s) lt :=
  segments EmptyString := [];
  segments (String c s') :=
    if is_alpha c then Ident (String c (take_word s').1) :: segments (take_word s').2
    else Lit c :: segments s'.
Proof.
  simpl. clear. induction s' as [|d s IH]; simpl; [lia|]. destruct (is_word d); simpl; lia.
Qed.

(** The identifiers, in order, with repetitions: [formulaString.match(idRegex)]. *)
Fixpoint idents (ps : list piece) : list string :=
  match ps with
  | [] => []
  | Lit _ :: ps' => idents ps'
  | Ident x :: ps' => x :: idents ps'
  end.

(** [Array.from(new Set(l))]: the first occurrence of each element, in
    order. *)
Definition set_from (l : list string) : list string :=
  fold_left (fun acc x => if str_mem x acc then acc else acc ++ [x]) l [].

(** [getInputIds]: [match] returns [null] when nothing matches. *)
Definition getInputIds (formulaString : string) : list string :=
  match idents (segments formulaString) with
  | [] => []
  | inputIds => set_from inputIds
  end.

(** The text a piece stands for. *)
Definition piece_text (p : piece) : string :=
  match p with
  | Lit c => String c EmptyString
  | Ident x => x
  end.

Definition unsegment (ps : list piece) : string :=
  fold_right (fun p acc => (piece_text p ++ acc)%string) EmptyString ps.

(** A one-pass lexer with one state: outside an identifier, or inside
    one with the characters read so far.  A letter starts an
    identifier, a word character continues it, anything else ends it. *)
Fixpoint lex (s : string) (cur : option string) : list string :=
  match s with
  | EmptyString => match cur with Some w => [w] | None => [] end
  | String c s' =>
      match cur with
      | None => if is_alpha c then lex s' (Some (String c EmptyString)) else lex s' None
      | Some w =>
          if is_word c then lex s' (Some (w ++ String c EmptyString)%string)
          else w :: lex s' None
      end
  end.

(** What [idRegex] matches: a letter followed by word characters. *)
Definition is_ident (x : string) : bool :=
  match x with
  | String c r => is_alpha c && str_forall is_word r
  | EmptyString => false
  end.


(** ** The document *)

Record Element : Type := mkElement {
  el_id : string;
  el_value : option string            (** [None]: no [value] property *)
}.

Record FormulaEl : Type := mkFormula {
  evaluator : option string;          (** [attributes["evaluator"]] *)
  innerHTML : string
}.

Record Page : Type := mkPage {
  formulas : list FormulaEl;          (** [document.querySelectorAll("formula")] *)
  elements : list Element;            (** the elements with an id, in document order *)
  listeners : list (string * nat)     (** ([inputId], formula index), in registration order *)
}.

(** [document.getElementById(x)] *)
Definition getElementById (els : list Element) (x : string) : option Element :=
  List.find (fun e => String.eqb (el_id e) x) els.

(** [!!inputElement.value] for the element [getElementById(x)]. *)
Definition has_value (els : list Element) (x : string) : bool :=
  match getElementById els x with
  | Some el => truthy (option_map JStr (el_value el))
  | None => false
  end.

(** ** evaluateFormula *)

(** [formulaString.replace(idRegex, (match) => ...)]: the callback runs
    on the matches from left to right, reads [inputElement.value]
    (a [TypeError] when there is no such element), clears
    [inputEntered] on a falsy value and returns [`(${value})`].  The
    result is the rewritten expression and [inputEntered]. *)
Fixpoint replace_ids (els : list Element) (ps : list piece) (entered : bool)
  : res (string * bool) :=
  match ps with
  | [] => Ok (EmptyString, entered)
  | Lit c :: ps' =>
      r ← replace_ids els ps' entered; Ok (String c r.1, r.2)
  | Ident x :: ps' =>
      match getElementById els x with
      | None => Throw TypeError
      | Some el =>
          let v := option_map JStr (el_value el) in
          let entered' := entered && truthy v in
          r ← replace_ids els ps' entered';
          Ok (("(" ++ js_to_string v ++ ")") ++ r.1, r.2)%string
      end
  end.

Definition msg_result (r : string) : string := ("Result: " ++ r ++ ".")%string.
Definition msg_invalid : string := "Invalid Formula.".
Definition msg_enter_all : string := "Please enter all inputs.".

Section Eval.
Variable js_eval : string -> res string.

(** [evaluateFormula]: the new [innerHTML] of the formula element. *)
Definition evaluateFormula (formulaString : string) (els : list Element) : res string :=
  r ← replace_ids els (segments formulaString) true;
  if (r.2 : bool) then
    match js_eval r.1 with
    | Ok v => Ok (msg_result v)
    | Throw _ => Ok msg_invalid
    end
  else Ok msg_enter_all.

(** ** Set-up *)

Definition set_listeners (ls : list (string * nat)) (p : Page) : Page :=
  mkPage (formulas p) (elements p) ls.

Definition set_inner (k : nat) (html : string) (p : Page) : Page :=
  mkPage (alter (fun f => mkFormula (evaluator f) html) k (formulas p)) (elements p) (listeners p).

(** [inputIds.forEach(... addEventListener("input", evaluateFormula))]
    for formula [k]: stops at the first id without an element, keeping
    the listeners added so far. *)
Fixpoint add_listeners (k : nat) (els : list Element) (ids : list string)
  (ls : list (string * nat)) : list (string * nat) * option js_error :=
  match ids with
  | [] => (ls, None)
  | x :: ids' =>
      match getElementById els x with
      | None => (ls, Some TypeError)
      | Some _ => add_listeners k els ids' (ls ++ [(x, k)])
      end
  end.

(** The callback of [querySelectorAll("formula").forEach] for formula
    [k], then the rest of the loop. *)
Fixpoint setup_from (k : nat) (fs : list FormulaEl) (p : Page) : Page * option js_error :=
  match fs with
  | [] => (p, None)
  | f :: fs' =>
      match evaluator f with
      | None => (p, Some TypeError)
      | Some src =>
          match add_listeners k (elements p) (getInputIds src) (listeners p) with
          | (ls, Some e) => (set_listeners ls p, Some e)
          | (ls, None) =>
              match evaluateFormula src (elements p) with
              | Throw e => (set_listeners ls p, Some e)
              | Ok html => setup_from (S k) fs' (set_inner k html (set_listeners ls p))
              end
          end
      end
  end.

(** The script run on a page. *)
Definition setup (p : Page) : Page * option js_error := setup_from 0 (formulas p) p.

(** ** Input events *)

(** Typing [v] into the element [getElementById(x)]. *)
Fixpoint set_value (x v : string) (els : list Element) : list Element :=
  match els with
  | [] => []
  | e :: els' =>
      if String.eqb (el_id e) x then mkElement (el_id e) (Some v) :: els'
      else e :: set_value x v els'
  end.

(** The listeners of [x] run in registration order, each on the page
    the previous left; one that throws leaves the page as it is. *)
Fixpoint run_listeners (x : string) (ls : list (string * nat)) (p : Page) : Page :=
  match ls with
  | [] => p
  | (y, k) :: ls' =>
      let p' :=
        if String.eqb y x then
          match formulas p !! k ≫= evaluator with
          | Some src =>
              match evaluateFormula src (elements p) with
              | Ok html => set_inner k html p
              | Throw _ => p
              end
          | None => p
          end
        else p in
      run_listeners x ls' p'
  end.

(** The [input] event on the element with id [x], its value now [v]. *)
Definition input_event (x v : string) (p : Page) : Page :=
  run_listeners x (listeners p) (mkPage (formulas p) (set_value x v (elements p)) (listeners p)).

(** A sequence of [input] events. *)
Fixpoint run_inputs (evs : list (string * string)) (p : Page) : Page :=
  match evs with
  | [] => p
  | (x, v) :: evs' => run_inputs evs' (input_event x v p)
  end.

(** Every formula element shows the evaluation of its expression on the
    values the inputs hold now. *)
Definition displays_current (p : Page) : Prop :=
  Forall (fun f => exists src, evaluator f = Some src /\
                    evaluateFormula src (elements p) = Ok (innerHTML f)) (formulas p).

(** Every id a formula names carries that formula's listener. *)
Definition wired (p : Page) : Prop :=
  forall k f src x, formulas p !! k = Some f -> evaluator f = Some src ->
    x ∈ getInputIds src -> (x, k) ∈ listeners p.

End Eval.

(** ** The scanner *)

Lemma take_word_length s : String.length (take_word s).2 <= String.length s.
Proof. induction s as [|c s IH]; simpl; [lia|]. destruct (is_word c); simpl; lia. Qed.

Lemma take_word_app s : ((take_word s).1 ++ (take_word s).2)%string = s.
Proof.
  induction s as [|c s IH]; [done|]. simpl. destruct (is_word c); [|done].
  simpl. by rewrite string_app_cons, IH.
Qed.

Lemma take_word_word s : str_forall is_word (take_word s).1 = true.
Proof. induction s as [|c s IH]; [done|]. simpl. destruct (is_word c) eqn:E; simpl; [by rewrite E|done]. Qed.

Lemma alpha_word c : is_alpha c = true -> is_word c = true.
Proof. unfold is_word. by intros ->. Qed.

(** The lexer inside an identifier reads the rest of the word run. *)
Lemma lex_some s w :
  lex s (Some w) = (w ++ (take_word s).1)%string :: lex (take_word s).2 None.
Proof.
  revert w. induction s as [|c s IH]; intros w; simpl; [by rewrite string_app_nil_r|].
  destruct (is_word c) eqn:Ew; simpl.
  - rewrite IH, string_app_assoc. done.
  - rewrite string_app_nil_r. unfold is_word in Ew. bool_hyps.
    match goal with H : is_alpha c = false |- _ => by rewrite H end.
Qed.



Lemma is_ident_take c s : is_alpha c = true -> is_ident (String c (take_word s).1) = true.
Proof. intros Hc. simpl. by rewrite Hc, take_word_word. Qed.

(** *** The scan, its text and its identifiers *)

(** The scan of [idRegex] loses nothing: the literal characters
    and the matched identifiers, put back together, are the formula
    string.  This is what [formulaString.replace] relies on to rebuild
    the expression around the substituted values. *)
Theorem segments_roundtrip s : unsegment (segments s) = s.
Proof.
  funelim (segments s); simp segments; [done|]. clear Heqcall. unfold unsegment in *.
  destruct (is_alpha c); simpl.
  - rewrite H, string_app_cons. f_equal. apply take_word_app.
  - by rewrite H0.
Qed.

(** C25. The identifiers the global scan of [idRegex] matches are those
    a one-pass lexer reads: an identifier starts at a letter outside an
    identifier and runs to the end of the word run.  So a digit or an
    underscore never starts one, and in [1e3] or [0x1F] the letters
    start the identifiers [e3] and [x1F]. *)
Theorem idents_segments_lex s : idents (segments s) = lex s None.
Proof.
  funelim (segments s); simp segments; [done|]. clear Heqcall.
  simpl. destruct (is_alpha c); simpl.
  - rewrite lex_some. simpl. by rewrite H.
  - exact H0.
Qed.

Lemma idents_ident s : Forall (fun x => is_ident x = true) (idents (segments s)).
Proof.
  funelim (segments s); simp segments; [constructor|]. clear Heqcall.
  destruct (is_alpha c) eqn:Ec; simpl; [|done]. constructor; [by apply is_ident_take|done].
Qed.

(** [Array.from(new Set(l))] with the elements already collected. *)
Lemma set_from_spec (l acc : list string) :
  NoDup acc ->
  let r := fold_left (fun acc x => if str_mem x acc then acc else acc ++ [x]) l acc in
  NoDup r /\ (forall x, x ∈ r <-> x ∈ acc \/ x ∈ l).
Proof.
  revert acc. induction l as [|y l IH]; intros acc Hacc; simpl.
  - split; [done|]. intros x. rewrite elem_of_nil. tauto.
  - destruct (str_mem y acc) eqn:Ey.
    + destruct (IH acc Hacc) as [Hn Hm]. split; [done|]. intros x. rewrite Hm, elem_of_cons.
      apply str_mem_spec in Ey. split; [tauto|]. intros [|[->|]]; tauto.
    + assert (Hacc' : NoDup (acc ++ [y])).
      { apply NoDup_app. repeat split; [done| |by apply NoDup_singleton].
        intros z Hz ->%list_elem_of_singleton. by apply (str_not_mem y acc). }
      destruct (IH _ Hacc') as [Hn Hm]. split; [done|]. intros x.
      rewrite Hm, elem_of_app, list_elem_of_singleton, elem_of_cons. tauto.
Qed.

Lemma getInputIds_elem s :
  NoDup (getInputIds s) /\ (forall x, x ∈ getInputIds s <-> x ∈ idents (segments s)).
Proof.
  unfold getInputIds. destruct (idents (segments s)) as [|y l] eqn:E; [split; [constructor|done]|].
  destruct (set_from_spec (y :: l) [] ltac:(constructor)) as [Hn Hm].
  split; [done|]. intros x. unfold set_from. rewrite Hm, elem_of_nil. tauto.
Qed.

(** C26. [getInputIds] returns each identifier [idRegex] matches in the
    formula exactly once, and nothing else: every id it returns is a
    letter followed by word characters.  So [A+A] registers one
    listener on [A], not two. *)
Theorem getInputIds_spec s :
  NoDup (getInputIds s) /\
  (forall x, x ∈ getInputIds s <-> x ∈ idents (segments s)) /\
  Forall (fun x => is_ident x = true) (getInputIds s).
Proof.
  destruct (getInputIds_elem s) as [Hn Hm]. split; [done|]. split; [done|].
  apply Forall_forall. intros x Hx%Hm. exact (proj1 (Forall_forall _ _) (idents_ident s) x Hx).
Qed.

(** *** evaluateFormula *)

(** The callbacks of [replace]: a missing element throws, otherwise
    [inputEntered] ends as the conjunction of the values' truthiness. *)
Lemma replace_ids_spec els ps b :
  match replace_ids els ps b with
  | Ok r => r.2 = b && forallb (has_value els) (idents ps) /\
            Forall (fun x => getElementById els x <> None) (idents ps)
  | Throw e => e = TypeError /\ Exists (fun x => getElementById els x = None) (idents ps)
  end.
Proof.
  revert b. induction ps as [|[c|x] ps IH]; intros b; simpl.
  - by rewrite andb_true_r.
  - specialize (IH b). destruct (replace_ids els ps b) as [r|e]; simpl; [done|done].
  - unfold has_value. destruct (getElementById els x) as [el|] eqn:Ex.
    + specialize (IH (b && truthy (option_map JStr (el_value el)))).
      destruct (replace_ids els ps _) as [r|e]; simpl.
      * destruct IH as [-> HF]. rewrite andb_assoc. split; [done|]. constructor; [by rewrite Ex|done].
      * destruct IH as [-> HE]. split; [done|]. by apply Exists_cons; right.
    + split; [done|]. by apply Exists_cons; left.
Qed.

Lemma forallb_getInputIds els s :
  forallb (has_value els) (getInputIds s) = forallb (has_value els) (idents (segments s)).
Proof.
  destruct (getInputIds_elem s) as [_ Hm].
  destruct (forallb _ (getInputIds s)) eqn:E1, (forallb _ (idents _)) eqn:E2; try done.
  - apply forallb_false_exists in E2 as (x & Hx%Hm & Hf).
    rewrite forallb_Forall, Forall_forall in E1. specialize (E1 x Hx). congruence.
  - apply forallb_false_exists in E1 as (x & Hx%Hm & Hf).
    rewrite forallb_Forall, Forall_forall in E2. specialize (E2 x Hx). congruence.
Qed.

Section EvalFacts.
Variable js_eval : string -> res string.

(** C27. What [evaluateFormula] shows: it throws a [TypeError] exactly
    when the formula names an id no element has; otherwise it shows
    [Please enter all inputs.] exactly when some named input is empty,
    and else the result of [eval] on the rewritten expression, or
    [Invalid Formula.] when [eval] throws. *)
Theorem evaluateFormula_outcomes src els :
  (evaluateFormula js_eval src els = Throw TypeError <->
     exists x, x ∈ getInputIds src /\ getElementById els x = None) /\
  ((forall x, x ∈ getInputIds src -> getElementById els x <> None) ->
   (evaluateFormula js_eval src els = Ok msg_enter_all <->
      exists x, x ∈ getInputIds src /\ has_value els x = false) /\
   (forallb (has_value els) (getInputIds src) = true ->
      exists expr, evaluateFormula js_eval src els =
        match js_eval expr with Ok v => Ok (msg_result v) | Throw _ => Ok msg_invalid end)).
Proof.
  destruct (getInputIds_elem src) as [_ Hm]. rewrite forallb_getInputIds.
  pose proof (replace_ids_spec els (segments src) true) as Hr. unfold evaluateFormula.
  destruct (replace_ids els (segments src) true) as [[expr b]|e]; cbn [mbind res_bind] in *.
  - destruct Hr as [Hb HF]. simpl in Hb. subst b. split.
    + split; [intros H; cbn in H; destruct (forallb _ _), (js_eval expr); discriminate H|].
      intros (x & Hx%Hm & Hn). exfalso. by apply (proj1 (Forall_forall _ _) HF x).
    + intros _. split.
      * destruct (forallb (has_value els) _) eqn:Ef.
        -- split; [intros H; cbn in H; destruct (js_eval expr); injection H; done|].
           intros (x & Hx%Hm & Hv). rewrite forallb_Forall, Forall_forall in Ef.
           specialize (Ef x Hx). congruence.
        -- split; [intros _|done]. apply forallb_false_exists in Ef as (x & Hx & Hf).
           exists x. split; [by apply Hm|done].
      * intros ->. by exists expr.
  - destruct Hr as [-> HE]. split.
    + split; [|done]. intros _. apply Exists_exists in HE as (x & Hx & Hn).
      exists x. split; [by apply Hm|done].
    + intros Hall. exfalso. apply Exists_exists in HE as (x & Hx & Hn).
      apply (Hall x); [by apply Hm|done].
Qed.

(** The spec's examples: with [A = 2] and [B = 3] the formula
    [A+B] shows the result of [eval("(2)+(3)")]; clearing [B] shows
    [Please enter all inputs.]; and [A/B] with [B = 0] is handed to
    [eval] as [(2)/(0)], so a non-finite value is shown as a result and
    not as an invalid formula. *)
Theorem formula_spec_examples :
  let els b := [mkElement "A" (Some "2"%string); mkElement "B" (Some b)] in
  evaluateFormula js_eval "A+B" (els "3"%string) =
    match js_eval "(2)+(3)" with Ok v => Ok (msg_result v) | Throw _ => Ok msg_invalid end /\
  evaluateFormula js_eval "A+B" (els ""%string) = Ok msg_enter_all /\
  evaluateFormula js_eval "A/B" (els "0"%string) =
    match js_eval "(2)/(0)" with Ok v => Ok (msg_result v) | Throw _ => Ok msg_invalid end.
Proof. split; [|split]; reflexivity. Qed.

End EvalFacts.

(** *** The document as the handlers see it *)

Lemma getElementById_set_value_ne x v els y :
  y <> x -> getElementById (set_value x v els) y = getElementById els y.
Proof.
  intros Hne. induction els as [|e els IH]; [done|]. unfold getElementById in *. simpl.
  destruct (String.eqb_spec (el_id e) x) as [Hx|Hx]; simpl.
  - rewrite Hx. destruct (String.eqb_spec x y); [congruence|done].
  - destruct (String.eqb (el_id e) y); [done|exact IH].
Qed.

Lemma getElementById_set_value_none x v els y :
  getElementById (set_value x v els) y = None <-> getElementById els y = None.
Proof.
  induction els as [|e els IH]; [done|]. unfold getElementById in *. simpl.
  destruct (String.eqb (el_id e) x); simpl; [by destruct (String.eqb (el_id e) y)|].
  by destruct (String.eqb (el_id e) y).
Qed.

Lemma replace_ids_congr els els' ps b :
  (forall y, y ∈ idents ps -> getElementById els y = getElementById els' y) ->
  replace_ids els ps b = replace_ids els' ps b.
Proof.
  revert b. induction ps as [|[c|x] ps IH]; intros b Hs; simpl; [done| |].
  - by rewrite IH.
  - rewrite (Hs x) by (apply elem_of_cons; by left).
    destruct (getElementById els' x); [|done].
    rewrite IH; [done|]. intros y Hy. apply Hs, elem_of_cons. by right.
Qed.

(** [evaluateFormula] reads only the elements its formula names. *)
Lemma evaluateFormula_congr js_eval src els els' :
  (forall y, y ∈ idents (segments src) -> getElementById els y = getElementById els' y) ->
  evaluateFormula js_eval src els = evaluateFormula js_eval src els'.
Proof. intros H. unfold evaluateFormula. by rewrite (replace_ids_congr els els'). Qed.

Lemma evaluateFormula_found js_eval src els h :
  evaluateFormula js_eval src els = Ok h ->
  Forall (fun y => getElementById els y <> None) (idents (segments src)).
Proof.
  pose proof (replace_ids_spec els (segments src) true) as Hr. unfold evaluateFormula.
  destruct (replace_ids _ _ _); cbn [mbind res_bind]; [intros _; apply Hr|intros H; discriminate H].
Qed.

Lemma evaluateFormula_total js_eval src els :
  Forall (fun y => getElementById els y <> None) (idents (segments src)) ->
  exists h, evaluateFormula js_eval src els = Ok h.
Proof.
  pose proof (replace_ids_spec els (segments src) true) as Hr. unfold evaluateFormula.
  destruct (replace_ids _ _ _) as [[e b]|err]; cbn [mbind res_bind].
  - intros _. cbn. destruct b; [destruct (js_eval e)|]; eexists; reflexivity.
  - intros HF. destruct Hr as [_ HE]. apply Exists_exists in HE as (y & Hy & Hn).
    exfalso. exact (proj1 (Forall_forall _ _) HF y Hy Hn).
Qed.

(** *** The listeners of one input *)

Lemma map_evaluator_alter h k (fs : list FormulaEl) :
  map evaluator (alter (fun f => mkFormula (evaluator f) h) k fs) = map evaluator fs.
Proof. revert k. induction fs as [|f fs IH]; intros [|k]; simpl; [done|done|done|f_equal; apply IH]. Qed.

Lemma run_listeners_frame js_eval x ls p :
  let p' := run_listeners js_eval x ls p in
  elements p' = elements p /\ listeners p' = listeners p /\
  map evaluator (formulas p') = map evaluator (formulas p).
Proof.
  revert p. induction ls as [|[y k] ls IH]; intros p; [done|]. cbn [run_listeners].
  match goal with |- context [run_listeners _ _ ls ?q] =>
    destruct (IH q) as (He & Hl & Hf); rewrite He, Hl, Hf end.
  destruct (String.eqb y x); [|done].
  destruct (formulas p !! k ≫= evaluator); [|done].
  destruct (evaluateFormula _ _ _); [|done]. simpl. by rewrite map_evaluator_alter.
Qed.

(** A listener run on formula [k] writes its current evaluation [h]; if
    the formula already shows [h] or one of the listeners is its
    listener for [x], it shows [h] afterwards. *)
Lemma run_listeners_formula js_eval x ls p k f src h :
  formulas p !! k = Some f -> evaluator f = Some src ->
  evaluateFormula js_eval src (elements p) = Ok h ->
  (innerHTML f = h \/ (x, k) ∈ ls) ->
  formulas (run_listeners js_eval x ls p) !! k = Some (mkFormula (evaluator f) h).
Proof.
  revert p f. induction ls as [|[y k'] ls IH]; intros p f Hk Hs Hh Hor; simpl.
  - destruct Hor as [<-|Hin%elem_of_nil]; [by destruct f|done].
  - destruct (String.eqb_spec y x) as [->|Hyx].
    + destruct (decide (k' = k)) as [->|Hkk].
      * rewrite Hk. simpl. rewrite Hs, Hh. apply (IH _ (mkFormula (Some src) h)); simpl.
        -- rewrite list_lookup_alter, Hk. case_decide; [simpl; by rewrite Hs|done].
        -- done.
        -- done.
        -- by left.
      * assert (Hor' : innerHTML f = h \/ (x, k) ∈ ls).
        { destruct Hor as [|Hin]; [by left|]. apply elem_of_cons in Hin as [[=]|]; [done|by right]. }
        destruct (formulas p !! k' ≫= evaluator) as [src'|]; [|by apply (IH p f)].
        destruct (evaluateFormula js_eval src' (elements p)) as [h'|]; [|by apply (IH p f)].
        apply (IH _ f); simpl; [|done|done|done]. by rewrite list_lookup_alter_ne.
    + apply (IH p f); [done|done|done|].
      destruct Hor as [|Hin]; [by left|]. apply elem_of_cons in Hin as [[=]|]; [done|by right].
Qed.

(** An [input] event keeps every formula current and every listener in
    place. *)
Lemma input_event_current js_eval x v p :
  displays_current js_eval p -> wired p ->
  displays_current js_eval (input_event js_eval x v p) /\ wired (input_event js_eval x v p).
Proof.
  intros Hd Hw. unfold input_event.
  set (p0 := mkPage (formulas p) (set_value x v (elements p)) (listeners p)).
  destruct (run_listeners_frame js_eval x (listeners p) p0) as (He & Hl & Hf).
  change (formulas p0) with (formulas p) in Hf. change (listeners p0) with (listeners p) in Hl.
  (* every formula, evaluated on the new values, succeeds *)
  assert (Hnew : forall k f src, formulas p !! k = Some f -> evaluator f = Some src ->
    exists h, evaluateFormula js_eval src (elements p0) = Ok h /\
      formulas (run_listeners js_eval x (listeners p) p0) !! k = Some (mkFormula (evaluator f) h)).
  { intros k f src Hk Hs.
    destruct (proj1 (Forall_lookup _ _) Hd k f Hk) as (src' & Hs' & Hev).
    rewrite Hs in Hs'. injection Hs' as <-.
    destruct (evaluateFormula_total js_eval src (elements p0)) as [h Hh].
    { apply Forall_forall. intros y Hy Hn. apply getElementById_set_value_none in Hn.
      exact (proj1 (Forall_forall _ _) (evaluateFormula_found _ _ _ _ Hev) y Hy Hn). }
    exists h. split; [done|]. apply (run_listeners_formula _ _ _ _ _ _ src); [done|done|done|].
    destruct (decide (x ∈ idents (segments src))) as [Hx|Hx].
    - right. apply (Hw k f src x Hk Hs). by apply getInputIds_elem.
    - left. rewrite (evaluateFormula_congr js_eval src (elements p0) (elements p)) in Hh.
      + congruence.
      + intros y Hy. apply getElementById_set_value_ne. by intros ->. }
  split.
  - apply Forall_lookup. intros k f' Hk'.
    assert (Hlen : is_Some (formulas p !! k)).
    { apply lookup_lt_is_Some. rewrite <- (length_map evaluator), <- Hf, length_map.
      by apply lookup_lt_Some with f'. }
    destruct Hlen as [f Hk].
    destruct (proj1 (Forall_lookup _ _) Hd k f Hk) as (src & Hs & _).
    destruct (Hnew k f src Hk Hs) as (h & Hh & Hk2). rewrite Hk2 in Hk'. injection Hk' as <-.
    exists src. simpl. rewrite He. by split.
  - intros k f' src y Hk' Hs' Hy. rewrite Hl.
    assert (Hev : map evaluator (formulas p) !! k = Some (evaluator f')).
    { rewrite <- Hf, list_lookup_fmap, Hk'. done. }
    rewrite list_lookup_fmap in Hev.
    destruct (formulas p !! k) as [f|] eqn:Hk; [|done]. injection Hev as Hev.
    apply (Hw k f src y Hk); [by rewrite Hev|done].
Qed.

Lemma add_listeners_spec k els ids ls ls' :
  add_listeners k els ids ls = (ls', None) ->
  (forall l, l ∈ ls -> l ∈ ls') /\ (forall x, x ∈ ids -> (x, k) ∈ ls').
Proof.
  revert ls. induction ids as [|y ids IH]; intros ls; simpl.
  - intros [= ->]. split; [done|]. intros x Hx%elem_of_nil. done.
  - destruct (getElementById els y); [|done]. intros (Hl & Hx)%IH. split.
    + intros l Hin. apply Hl, elem_of_app. by left.
    + intros x [->|Hin]%elem_of_cons; [|by apply Hx]. apply Hl, elem_of_app. right. by left.
Qed.

Lemma alter_at_length {A} (g : A -> A) (pre l : list A) x :
  alter g (length pre) (pre ++ x :: l) = pre ++ g x :: l.
Proof. induction pre as [|y pre IH]; simpl; [done|]. by f_equal. Qed.

(** The set-up loop, from formula [length pre] on: the formulas before
    it are current and wired. *)
Lemma setup_from_current js_eval fs pre p p1 :
  formulas p = pre ++ fs ->
  (forall j f, pre !! j = Some f -> exists src, evaluator f = Some src /\
     evaluateFormula js_eval src (elements p) = Ok (innerHTML f) /\
     forall x, x ∈ getInputIds src -> (x, j) ∈ listeners p) ->
  setup_from js_eval (length pre) fs p = (p1, None) ->
  displays_current js_eval p1 /\ wired p1.
Proof.
  revert pre p. induction fs as [|f fs IH]; intros pre p Hf Hpre; simpl.
  - intros [= <-]. rewrite app_nil_r in Hf. split.
    + apply Forall_lookup. intros j f Hj. rewrite Hf in Hj.
      destruct (Hpre j f Hj) as (src & Hs & Hev & _). eauto.
    + intros j f src x Hj Hs Hx. rewrite Hf in Hj.
      destruct (Hpre j f Hj) as (src' & Hs' & _ & Hw). rewrite Hs in Hs'. injection Hs' as <-.
      by apply Hw.
  - destruct (evaluator f) as [src|] eqn:Hs; [|done].
    destruct (add_listeners _ _ _ _) as [ls [e|]] eqn:Ha; [done|].
    destruct (evaluateFormula js_eval src (elements p)) as [html|e] eqn:Hev; [|done].
    apply add_listeners_spec in Ha as [Hgrow Hnew].
    replace (S (length pre)) with (length (pre ++ [mkFormula (evaluator f) html]))
      by (rewrite length_app; simpl; lia).
    apply IH.
    + simpl. rewrite Hf, alter_at_length, <- app_assoc. done.
    + intros j g Hj. apply lookup_app_Some in Hj as [Hj|[Hle Hj]].
      * destruct (Hpre j g Hj) as (src' & Hs' & Hev' & Hw). exists src'. simpl.
        split; [done|split; [done|]]. intros x Hx. apply Hgrow, Hw, Hx.
      * apply list_lookup_singleton_Some in Hj as [Hj <-].
        assert (j = length pre) as -> by lia.
        exists src. simpl. split; [done|split; [done|]]. intros x Hx. by apply Hnew.
Qed.

Lemma add_listeners_missing k els ids ls x :
  x ∈ ids -> getElementById els x = None ->
  exists ls', add_listeners k els ids ls = (ls', Some TypeError) /\
    forall l, l ∈ ls' -> l ∈ ls \/ l.2 = k.
Proof.
  revert ls. induction ids as [|y ids IH]; intros ls Hx Hn; [by apply elem_of_nil in Hx|]. simpl.
  destruct (getElementById els y) eqn:Ey.
  - apply elem_of_cons in Hx as [->|Hx]; [congruence|].
    destruct (IH (ls ++ [(y, k)]) Hx Hn) as (ls' & Ha & Hl). exists ls'. split; [done|].
    intros l Hin. destruct (Hl l Hin) as [[Hin'|Hin']%elem_of_app|]; [by left| |by right].
    apply list_elem_of_singleton in Hin' as ->. by right.
  - exists ls. split; [done|]. intros l Hin. by left.
Qed.

(** *** The script on a page *)

(** C28. After a set-up that completes, whatever the user types, every
    formula element shows the evaluation of its expression on the
    values the inputs hold now: each id a formula names got its
    listener, and an input a formula does not name cannot change its
    evaluation. *)
Theorem formulas_track_inputs js_eval p p1 evs :
  setup js_eval p = (p1, None) -> displays_current js_eval (run_inputs js_eval evs p1).
Proof.
  intros Hs. destruct (setup_from_current js_eval (formulas p) [] p p1 eq_refl) as [Hd Hw];
    [intros j f Hj; by rewrite lookup_nil in Hj|exact Hs|].
  clear Hs. revert p1 Hd Hw. induction evs as [|[x v] evs IH]; intros p1 Hd Hw; [done|].
  simpl. destruct (input_event_current js_eval x v p1 Hd Hw) as [Hd' Hw']. by apply IH.
Qed.

Lemma formulas_track_inputs_witness :
  let js_eval := fun e : string => Ok e in
  let p := mkPage [mkFormula (Some "A+B"%string) ""]
                  [mkElement "A" (Some "2"%string); mkElement "B" (Some "3"%string)] [] in
  displays_current js_eval
    (run_inputs js_eval [("B", ""); ("A", "7")]%string (setup js_eval p).1).
Proof.
  intros js_eval p. apply (formulas_track_inputs js_eval p). vm_compute. reflexivity.
Defined.



(** C30. One formula naming an id without an element stops the whole
    set-up: the exception escapes the [forEach], so no later formula is
    evaluated or gets a listener, and only listeners of the failing
    formula (for the ids before the missing one) remain. *)
Theorem setup_aborts_at_missing_element js_eval f fs els src x :
  evaluator f = Some src -> x ∈ getInputIds src -> getElementById els x = None ->
  let r := setup js_eval (mkPage (f :: fs) els []) in
  formulas r.1 = f :: fs /\ r.2 = Some TypeError /\ Forall (fun l => l.2 = 0) (listeners r.1).
Proof.
  intros Hs Hx Hn r. subst r. unfold setup. cbn [formulas setup_from elements listeners].
  rewrite Hs. destruct (add_listeners_missing 0 els (getInputIds src) [] x Hx Hn) as (ls & -> & Hl).
  split; [done|split; [done|]]. apply Forall_forall. intros l Hin.
  by destruct (Hl l Hin) as [Hin'%elem_of_nil|].
Qed.

Lemma setup_aborts_at_missing_element_witness :
  let f := mkFormula (Some "1e3*A"%string) "" in
  let fs := [mkFormula (Some "A+1"%string) ""] in
  let els := [mkElement "A" (Some "5"%string)] in
  let r := setup (fun e => Ok e) (mkPage (f :: fs) els []) in
  formulas r.1 = f :: fs /\ r.2 = Some TypeError /\ Forall (fun l => l.2 = 0) (listeners r.1).
Proof.
  intros f fs els. apply (setup_aborts_at_missing_element _ f fs els "1e3*A" "e3"); [reflexivity| |reflexivity].
  apply getInputIds_elem. vm_compute. left.
Defined.

End Formula.
