(* ===== verification/Render.v ===== *)
(** * The view components and React's event dispatch

    The function components of [src/HW2/src/App.tsx] and
    [src/HW3/frontend/src/App.tsx] as pure functions from their props to
    a virtual DOM tree.  A node is a text or an element with its tag,
    its attributes (as the strings React writes), its event handlers
    and its children.  [key] props are React's and are not written to
    the DOM.

    A handler is what the component's [onX] prop runs: whether it calls
    [e.stopPropagation()], whether it calls [e.preventDefault()], and
    the callback prop it calls, if any, as the event the callback stands
    for, computed from the DOM event (every handler of these components
    calls at most one).
    [dispatch] is React's propagation of a synthetic event: the handler
    of the target runs, then those of its ancestors, innermost first,
    until one stops the propagation.

    [Toolbar], [Canvas], [Shape] and [Footer] are the same code in both
    exercises; [Header] differs: the HW3 one also shows Save, Restore
    and Logout when logged in and Sign Up and Login otherwise.  Icons
    from [lucide-react] are leaves named after the icon.  [AuthModal]'s
    markup is here too; [Page] puts the components together.

    [Canvas] and [Shape] receive shapes with the props their TypeScript
    interface declares ([id: string], [type: ShapeType], [x], [y]
    numbers); [Page] renders a document only when every shape value has
    that type. *)

From S2P Require Import Prelude JsValue Canvas Json Transfer Session.
From Stdlib Require Import String Ascii ZArith Lia.
From stdpp Require Import base list.

Module Render.
Import Canvas Json Transfer Session.
#[local] Set Warnings "-register-all".
Local Open Scope string_scope.

(** ** Events and handlers *)

(** The synthetic events the components listen to. *)
Inductive ev_type : Type :=
| Click | DblClick | Change | Submit | DragStart | DragOver | Drop.

Definition ev_type_eqb (a b : ev_type) : bool :=
  match a, b with
  | Click, Click | DblClick, DblClick | Change, Change | Submit, Submit
  | DragStart, DragStart | DragOver, DragOver | Drop, Drop => true
  | _, _ => false
  end.

(** What a handler reads of the event and of the browser: the
    [e.target.value] of an input, the point [handleCanvasClick] and
    [handleDrop] compute from [clientX], [clientY] and the canvas's
    bounding rectangle, the identifier [crypto.randomUUID()] returns
    while the handler runs, and [e.target.files?.[0]]. *)
Record dom_event : Type := mkEvent {
  ev_value : string;
  ev_point : Z * Z;
  ev_uuid : string;
  ev_file : option File
}.

Record handler (E : Type) : Type := mkHandler {
  stops : bool;                         (** calls [e.stopPropagation()] *)
  prevents : bool;                      (** calls [e.preventDefault()] *)
  calls : option (dom_event -> E)       (** the callback prop it calls *)
}.
Arguments mkHandler {E} stops prevents calls.
Arguments stops {E} h.
Arguments prevents {E} h.
Arguments calls {E} h.

Inductive vnode (E : Type) : Type :=
| VText (s : string)
| VElem (tag : string) (attrs : list (string * string))
        (on : list (ev_type * handler E)) (children : list (vnode E)).
Arguments VText {E} s.
Arguments VElem {E} tag attrs on children.

(** [onX={cb}]: the prop handed over as the handler. *)
Definition call {E} (f : dom_event -> E) : handler E := mkHandler false false (Some f).

(** The events a handler raises for the DOM event [d]. *)
Definition handler_events {E} (h : handler E) (d : dom_event) : list E :=
  match calls h with
  | Some f => [f d]
  | None => []
  end.

Definition on_click {E} (e : E) : ev_type * handler E := (Click, call (fun _ => e)).

(** A [lucide-react] icon. *)
Definition icon {E} (name : string) (size : Z) : vnode E :=
  VElem name [("size", Z_to_dec size)] [] [].

(** ** React's propagation of an event *)

(** The element's handler for the event, if it has one. *)
Definition hlookup {E} (ty : ev_type) (on : list (ev_type * handler E)) : option (handler E) :=
  match List.find (fun h => ev_type_eqb h.1 ty) on with
  | Some (_, h) => Some h
  | None => None
  end.

(** Running the element's handler: the events raised, whether it stopped
    the propagation, whether it prevented the default action. *)
Definition fire_on {E} (ty : ev_type) (d : dom_event) (on : list (ev_type * handler E))
  : list E * bool * bool :=
  match hlookup ty on with
  | Some h => (handler_events h d, stops h, prevents h)
  | None => ([], false, false)
  end.

(** An event of type [ty] whose target is the node at [path] (child
    indices from the root): the handlers from the target up to the root
    run, innermost first, until one stops the propagation.  [None] when
    the path names no node. *)
Fixpoint dispatch {E} (ty : ev_type) (d : dom_event) (path : list nat) (n : vnode E)
  {struct path} : option (list E * bool * bool) :=
  match n, path with
  | VText _, [] => Some ([], false, false)
  | VText _, _ :: _ => None
  | VElem _ _ on _, [] => Some (fire_on ty d on)
  | VElem _ _ on ch, i :: p =>
      match ch !! i with
      | None => None
      | Some c =>
          match dispatch ty d p c with
          | None => None
          | Some (es, true, pr) => Some (es, true, pr)
          | Some (es, false, pr) =>
              let '(es', st, pr') := fire_on ty d on in Some ((es ++ es')%list, st, pr || pr')
          end
      end
  end.

(** Every event the handlers of type [ty] in a tree can raise. *)
Fixpoint events_of {E} (ty : ev_type) (d : dom_event) (n : vnode E) : list E :=
  match n with
  | VText _ => []
  | VElem _ _ on ch => ((fire_on ty d on).1.1 ++ concat (map (events_of ty d) ch))%list
  end.

(** An upper bound on the number of events one dispatch raises: for the
    paths that end unstopped and for those that end stopped ([None]: no
    such path). *)
Definition omax (a b : option nat) : option nat :=
  match a, b with
  | Some x, Some y => Some (Nat.max x y)
  | Some x, None => Some x
  | None, b => b
  end.

Definition hstops {E} (ty : ev_type) (on : list (ev_type * handler E)) : bool :=
  match hlookup ty on with Some h => stops h | None => false end.

Definition hcount {E} (ty : ev_type) (on : list (ev_type * handler E)) : nat :=
  match hlookup ty on with
  | Some h => match calls h with Some _ => 1 | None => 0 end
  | None => 0
  end.

Fixpoint bound {E} (ty : ev_type) (n : vnode E) : option nat * option nat :=
  match n with
  | VText _ => (Some 0, None)
  | VElem _ _ on ch =>
      let kids := fold_right (fun b r => (omax b.1 r.1, omax b.2 r.2)) (None, None)
                    (map (bound ty) ch) in
      let here := option_map (fun k => k + hcount ty on) (omax (Some 0) kids.1) in
      if hstops ty on then (None, omax kids.2 here) else (here, kids.2)
  end.

(** The order on bounds: [le_opt k b] says [k] events fit in [b]. *)
Definition le_opt (k : nat) (b : option nat) : Prop :=
  match b with Some m => k <= m | None => False end.

Definition ole (a b : option nat) : Prop :=
  match a, b with
  | None, _ => True
  | Some x, Some y => x <= y
  | Some _, None => False
  end.

(** ** Header *)

Definition header_button {E} (cls label ico : string) (e : E) : vnode E :=
  VElem "button" [("className", "button " ++ cls)] [on_click e] [icon ico 18; VText label].

(** The title input: [value={title}], [onChange={(e) => setTitle(e.target.value)}]. *)
Definition title_input {E} (title : jval) (setTitle : string -> E) : vnode E :=
  VElem "input" [("type", "text"); ("value", jval_to_string title); ("className", "title-input");
                 ("placeholder", "Painting Title")]
    [(Change, call (fun d => setTitle (ev_value d)))] [].

(** The HW2 [Header]. *)
Definition Header2 {E} (title : jval) (setTitle : string -> E) (onExport onImportClick : E)
  : vnode E :=
  VElem "header" [("className", "header")] []
    [title_input title setTitle;
     VElem "div" [("className", "button-group")] []
       [header_button "export-button" "Export" "Download" onExport;
        header_button "import-button" "Import" "Upload" onImportClick]].

(** The HW3 [Header]. *)
Definition Header {E} (title : jval) (setTitle : string -> E) (onExport onImportClick : E)
  (isLoggedIn : bool) (onSignUp onLogin onSave onRestore onLogout : E) : vnode E :=
  VElem "header" [("className", "header")] []
    [title_input title setTitle;
     VElem "div" [("className", "button-group")] []
       ([header_button "export-button" "Export" "Download" onExport;
         header_button "import-button" "Import" "Upload" onImportClick] ++
        if isLoggedIn then
          [header_button "save-button" "Save" "Save" onSave;
           header_button "restore-button" "Restore" "History" onRestore;
           header_button "logout-button" "Logout" "LogOut" onLogout]
        else
          [header_button "signup-button" "Sign Up" "UserPlus" onSignUp;
           header_button "login-button" "Login" "LogIn" onLogin])%list].

(** ** Toolbar *)

(** [tools]: the three tools with their icons. *)
Definition tools : list (ShapeType * string) :=
  [(circle, "Circle"); (square, "Square"); (triangle, "Triangle")].

Definition tool_button {E} (selectedShape : ShapeType) (onSelectShape onDragStart : ShapeType -> E)
  (tool : ShapeType * string) : vnode E :=
  VElem "button"
    [("draggable", "true");
     ("className", "tool-button " ++
        (if bool_decide (selectedShape = tool.1) then "selected" else "unselected"));
     ("aria-label", "Select " ++ shape_type_name tool.1)]
    [on_click (onSelectShape tool.1); (DragStart, call (fun _ => onDragStart tool.1))]
    [icon tool.2 32].

Definition Toolbar {E} (selectedShape : ShapeType) (onSelectShape onDragStart : ShapeType -> E)
  : vnode E :=
  VElem "aside" [("className", "toolbar")] []
    [VElem "h2" [("className", "toolbar-title")] [] [VText "Tools"];
     VElem "div" [("className", "toolbar-buttons")] []
       (map (tool_button selectedShape onSelectShape onDragStart) tools)].

(** ** Shape and Canvas *)

(** [Shape]: the element for its type, with [commonProps]: a click
    only stops its propagation (so it does not reach the canvas), a
    double click stops it and deletes the shape. *)
Definition Shape_view {E} (onDelete : string -> E) (s : Shape) : vnode E :=
  let x := shape_x s in
  let y := shape_y s in
  let common := [("fill", "rgba(59, 130, 246, 0.7)"); ("stroke", "rgba(37, 99, 235, 1)");
                 ("strokeWidth", "2"); ("style", "cursor: pointer")] in
  let handlers := [(Click, mkHandler true false None);
                   (DblClick, mkHandler true false (Some (fun _ => onDelete (shape_id s))))] in
  match shape_type s with
  | circle =>
      VElem "circle" ([("cx", Z_to_dec x); ("cy", Z_to_dec y); ("r", "20")] ++ common)%list handlers []
  | square =>
      VElem "rect" ([("x", Z_to_dec (x - 20)); ("y", Z_to_dec (y - 20)); ("width", "40");
                     ("height", "40"); ("rx", "3")] ++ common)%list handlers []
  | triangle =>
      VElem "polygon"
        ([("points", (Z_to_dec x ++ "," ++ Z_to_dec (y - 23) ++ " " ++
                      Z_to_dec (x - 20) ++ "," ++ Z_to_dec (y + 17) ++ " " ++
                      Z_to_dec (x + 20) ++ "," ++ Z_to_dec (y + 17))%string)] ++ common)%list
        handlers []
  end.

(** The placeholder text of an empty canvas. *)
Definition canvas_text {E} : vnode E :=
  VElem "text" [("x", "50%"); ("y", "50%"); ("dominantBaseline", "middle");
                ("textAnchor", "middle"); ("fill", "#d1d5db"); ("fontSize", "24");
                ("className", "canvas-text")] [] [VText "Canvas"].

(** [Canvas]: the [svg] with the [onClick], [onDrop] and [onDragOver]
    handlers it is given, its background, the placeholder when there is
    no shape, and one [Shape] per shape (keyed by its id). *)
Definition Canvas_view {E} (shapes : list Shape) (onClick onDrop onDragOver : handler E)
  (onDeleteShape : string -> E) : vnode E :=
  VElem "div" [("className", "canvas-container")] []
    [VElem "svg" [("width", "100%"); ("height", "100%"); ("className", "canvas")]
       [(Click, onClick); (Drop, onDrop); (DragOver, onDragOver)]
       ([VElem "rect" [("width", "100%"); ("height", "100%"); ("fill", "transparent")] [] []] ++
        (if Nat.eqb (length shapes) 0 then [canvas_text] else []) ++
        map (Shape_view onDeleteShape) shapes)%list].

(** ** Footer *)

(** [{counts.circle}]: React renders nothing for [undefined]. *)
Definition count_text {E} (counts : ShapeCounts) (k : string) : list (vnode E) :=
  match prop_lookup k counts with
  | Some n => [VText (Z_to_dec n)]
  | None => []
  end.

Definition count_item {E} (counts : ShapeCounts) (ico k : string) : vnode E :=
  VElem "div" [("className", "count-item")] []
    [VElem ico [("size", "20"); ("className", "count-icon")] [] [];
     VElem "span" [("className", "count-number")] [] (count_text counts k)].

Definition Footer {E} (counts : ShapeCounts) : vnode E :=
  VElem "div" [("className", "footer")] []
    [count_item counts "Circle" "circle"; count_item counts "Square" "square";
     count_item counts "Triangle" "triangle"].

(** ** AuthModal *)

(** The markup of [AuthModal]: the overlay closes the modal on a click,
    the content stops the propagation of clicks, the form's [onSubmit]
    is [handleSubmit] (which calls [e.preventDefault()]), the inputs
    are controlled by the modal's hooks, and Cancel closes it. *)
Definition AuthModal_view {E} (m : ModalState) (onClose : E) (setUsername setPassword : string -> E)
  (handleSubmit : E) : vnode E :=
  VElem "div" [("className", "modal-overlay")] [on_click onClose]
    [VElem "div" [("className", "modal-content")] [(Click, mkHandler true false None)]
       [VElem "h2" [] [] [VText (match mode m with signup => "Create Account" | login => "Log In" end)];
        VElem "form" [("className", "auth-form")] [(Submit, mkHandler false true (Some (fun _ => handleSubmit)))]
          [VElem "input" [("type", "text"); ("placeholder", "Username"); ("value", username m);
                          ("required", "")] [(Change, call (fun d => setUsername (ev_value d)))] [];
           VElem "input" [("type", "password"); ("placeholder", "Password"); ("value", password m);
                          ("required", "")] [(Change, call (fun d => setPassword (ev_value d)))] [];
           VElem "button" [("type", "submit"); ("className", "auth-form-button")] []
             [VText (match mode m with signup => "Sign Up" | login => "Login" end)]];
        VElem "button" [("className", "modal-close-button")] [on_click onClose] [VText "Cancel"]]].

(** ** Reading a rendered tree *)

(** The texts of a tree, in document order. *)
Fixpoint texts {E} (n : vnode E) : list string :=
  match n with
  | VText s => [s]
  | VElem _ _ _ children => concat (map texts children)
  end.

(** The value of attribute [a] of an element. *)
Definition attr {E} (a : string) (n : vnode E) : option string :=
  match n with
  | VElem _ attrs _ _ => prop_lookup a attrs
  | VText _ => None
  end.

(** The [Header] as the HW3 [App] wires it: [isLoggedIn={isLoggedIn}]
    and the handlers of the session. *)
Definition render_header (s : Session) : vnode session_event :=
  Header (title (app s)) EvSetTitle EvExport EvImportClick (isLoggedIn s)
    EvSignUp EvLogin EvSave EvRestore EvLogout.

(** The events of the header's buttons. *)
Definition header_events : list session_event :=
  [EvExport; EvImportClick; EvSignUp; EvLogin; EvSave; EvRestore; EvLogout].

(** The label of the button that stands for a header event. *)
Definition header_label (e : session_event) : string :=
  match e with
  | EvExport => "Export" | EvImportClick => "Import" | EvSignUp => "Sign Up"
  | EvLogin => "Login" | EvSave => "Save" | EvRestore => "Restore" | EvLogout => "Logout"
  | _ => ""
  end.

(** The node at a path of a tree. *)
Fixpoint node_at {E} (p : list nat) (n : vnode E) : option (vnode E) :=
  match p, n with
  | [], _ => Some n
  | i :: p', VElem _ _ _ ch => ch !! i ≫= node_at p'
  | _ :: _, VText _ => None
  end.

(** The key [count_step] files an imported value under:
    [String(shape.type)], where [shape.type] is [undefined] for a value
    that is not an object. *)
Definition type_key (v : jval) : string :=
  match v with
  | JObj fs => js_to_string (prop_lookup "type" fs)
  | _ => "undefined"
  end.

(** How many values of a list have type key [k]. *)
Definition count_key (k : string) (l : list jval) : Z :=
  Z.of_nat (length (List.filter (fun v => String.eqb (type_key v) k) l)).

(** ** Propagation lemmas *)

Lemma dispatch_cons {E} ty d i p tag attrs on (ch : list (vnode E)) :
  dispatch ty d (i :: p) (VElem tag attrs on ch) =
  match ch !! i with
  | None => None
  | Some c =>
      match dispatch ty d p c with
      | None => None
      | Some (es, true, pr) => Some (es, true, pr)
      | Some (es, false, pr) =>
          let '(es', st, pr') := fire_on ty d on in Some ((es ++ es')%list, st, pr || pr')
      end
  end.
Proof. reflexivity. Qed.

(** What a dispatch raises, some handler of the tree raises. *)
Lemma dispatch_events_of {E} ty d p (n : vnode E) es st pr :
  dispatch ty d p n = Some (es, st, pr) -> forall e, e ∈ es -> e ∈ events_of ty d n.
Proof.
  revert n es st pr. induction p as [|i p IH]; intros [s|tag attrs on ch] es st pr; simpl.
  - intros [= <- _ _] e He. by apply elem_of_nil in He.
  - unfold fire_on. destruct (hlookup ty on); intros [= <- _ _] e He; rewrite elem_of_app; by left.
  - done.
  - destruct (ch !! i) as [c|] eqn:Hc; [|done].
    destruct (dispatch ty d p c) as [[[es0 st0] pr0]|] eqn:Ed; [|done].
    assert (Hsub : forall e, e ∈ es0 -> e ∈ events_of ty d (VElem tag attrs on ch)).
    { intros e He. simpl. rewrite elem_of_app. right. apply list_elem_of_In, in_concat.
      exists (events_of ty d c). split; [apply in_map, list_elem_of_In; by eapply list_elem_of_lookup_2|].
      apply list_elem_of_In. exact (IH _ _ _ _ Ed e He). }
    destruct st0; [intros [= <- _ _]; exact Hsub|].
    destruct (fire_on ty d on) as [[es' st'] pr'] eqn:Hf. intros [= <- _ _] e.
    rewrite elem_of_app. intros [He|He]; rewrite <- Hf; [exact (Hsub e He)|].
    rewrite elem_of_app. left. by rewrite Hf.
Qed.

(** ** The bound on the events of one dispatch *)

Lemma le_opt_ole k a b : le_opt k a -> ole a b -> le_opt k b.
Proof. destruct a, b; simpl; lia. Qed.

Lemma ole_omax_l a b : ole a (omax a b).
Proof. destruct a, b; simpl; lia. Qed.

Lemma ole_omax_r a b : ole b (omax a b).
Proof. destruct a, b; simpl; lia. Qed.

Lemma ole_trans a b c : ole a b -> ole b c -> ole a c.
Proof. destruct a, b, c; simpl; lia. Qed.

#[local] Hint Resolve le_opt_ole ole_omax_l ole_omax_r ole_trans : core.

Lemma kids_bound {E} ty (ch : list (vnode E)) i c :
  ch !! i = Some c ->
  let kids := fold_right (fun b r => (omax b.1 r.1, omax b.2 r.2)) (None, None) (map (bound ty) ch) in
  ole (bound ty c).1 kids.1 /\ ole (bound ty c).2 kids.2.
Proof.
  revert i. induction ch as [|c' ch IH]; intros [|i]; simpl; try done.
  - intros [= ->]. auto.
  - intros Hc. destruct (IH i Hc) as [H1 H2]. eauto.
Qed.

Lemma fire_on_bound {E} ty d (on : list (ev_type * handler E)) :
  length (fire_on ty d on).1.1 <= hcount ty on /\ (fire_on ty d on).1.2 = hstops ty on.
Proof.
  unfold fire_on, hcount, hstops, handler_events. destruct (hlookup ty on) as [h|]; simpl; split; try done.
  destruct (calls h); simpl; lia.
Qed.

Lemma here_ge k own kids1 :
  k <= own -> le_opt k (option_map (fun k => k + own) (omax (Some 0) kids1)).
Proof. destruct kids1; simpl; lia. Qed.

Lemma here_add k k' own kids1 :
  le_opt k kids1 -> k' <= own -> le_opt (k + k') (option_map (fun k => k + own) (omax (Some 0) kids1)).
Proof. destruct kids1; simpl; lia. Qed.

(** One dispatch raises at most as many events as [bound] says. *)
Lemma dispatch_bound {E} ty d p (n : vnode E) es st pr :
  dispatch ty d p n = Some (es, st, pr) ->
  le_opt (length es) (if st then (bound ty n).2 else (bound ty n).1).
Proof.
  revert n es st pr. induction p as [|i p IH]; intros [s|tag attrs on ch] es st pr.
  - simpl. intros [= <- <- _]. simpl. lia.
  - cbn [dispatch]. intros [= Hf]. destruct (fire_on_bound ty d on) as [Hl Hs].
    rewrite Hf in Hl, Hs. simpl in Hl, Hs. cbn [bound]. rewrite <- Hs.
    destruct st; [eapply le_opt_ole; [apply here_ge, Hl|apply ole_omax_r]|by apply here_ge].
  - done.
  - rewrite dispatch_cons. destruct (ch !! i) as [c|] eqn:Hc; [|done].
    destruct (kids_bound ty ch i c Hc) as [K1 K2]. cbn [bound].
    destruct (dispatch ty d p c) as [[[es0 st0] pr0]|] eqn:Ed; [|done].
    specialize (IH _ _ _ _ Ed).
    destruct st0.
    + intros [= <- <- _]. destruct (hstops ty on); simpl; eauto.
    + destruct (fire_on ty d on) as [[es' st'] pr'] eqn:Hf. intros [= <- <- _].
      destruct (fire_on_bound ty d on) as [Hl Hs]. rewrite Hf in Hl, Hs. simpl in Hl, Hs.
      rewrite length_app. subst st'.
      assert (Hh : le_opt (length es0 + length es')
                     (option_map (fun k => k + hcount ty on)
                        (omax (Some 0) (fold_right (fun b r => (omax b.1 r.1, omax b.2 r.2))
                                          (None, None) (map (bound ty) ch)).1)))
        by (apply here_add; [eauto|done]).
      destruct (hstops ty on); simpl; eauto.
Qed.

(** ** The Header offers what the session allows *)

(** C32. The buttons the HW3 [Header] renders raise exactly the header
    events [enabled] lets a session take: a click somewhere in the
    header raises [e] if and only if [e] is Export or Import, or Save,
    Restore or Logout while a token is held, or Sign Up or Login while
    none is.  So the steps of [sreachable] are the clicks the page
    offers.  And each event is raised only by a click inside the
    button labelled with it: [Sign Up] raises [EvSignUp], [Login]
    [EvLogin], and so on. *)
Theorem header_refines_enabled s e :
  ((exists d p es st pr, dispatch Click d p (render_header s) = Some (es, st, pr) /\ e ∈ es) <->
   e ∈ header_events /\ enabled e s = true) /\
  (forall d p es st pr, dispatch Click d p (render_header s) = Some (es, st, pr) -> e ∈ es ->
     exists q, q `prefix_of` p /\
       option_map texts (node_at q (render_header s)) = Some [header_label e]).
Proof.
  split.
  2:{ intros d p es st pr Hd He. unfold render_header, Header in Hd |- *.
      destruct (isLoggedIn s);
      repeat match type of Hd with
             | context [dispatch _ _ ?q _] =>
                 is_var q; destruct q as [|[|[|[|[|[|?]]]]] q]; simpl in Hd; try discriminate
             end;
      injection Hd as <- _ _; apply list_elem_of_In in He; simpl in He; try contradiction;
      destruct He as [<-|[]];
      let fin q := exists q; split; [eexists; reflexivity | reflexivity] in
      first [ fin [1; 0] | fin [1; 1] | fin [1; 2] | fin [1; 3] | fin [1; 4] ]. }
  set (d0 := mkEvent "" (0, 0)%Z "" None). split.
  - intros (d & p & es & st & pr & Hd & He).
    pose proof (dispatch_events_of _ _ _ _ _ _ _ Hd e He) as Hin.
    assert (Hev : events_of Click d (render_header s) =
                  ([EvExport; EvImportClick] ++
                   if isLoggedIn s then [EvSave; EvRestore; EvLogout] else [EvSignUp; EvLogin])%list)
      by (unfold render_header; by destruct (isLoggedIn s)).
    rewrite Hev in Hin. apply list_elem_of_In in Hin. unfold header_events, enabled.
    destruct (isLoggedIn s) eqn:Hl; simpl in Hin; decompose [or] Hin; subst; try contradiction;
      (split; [apply list_elem_of_In; simpl; tauto | simpl; rewrite ?Hl; done]).
  - unfold header_events, enabled. intros [He Hen]. exists d0.
    apply list_elem_of_In in He. unfold render_header, Header.
    destruct (isLoggedIn s) eqn:Hl; simpl in He; decompose [or] He; subst; try contradiction;
      simpl in Hen; try discriminate;
      first [ exists [1; 0]; eexists _, _, _; split; [reflexivity|apply list_elem_of_In; simpl; tauto]
            | exists [1; 1]; eexists _, _, _; split; [reflexivity|apply list_elem_of_In; simpl; tauto]
            | exists [1; 2]; eexists _, _, _; split; [reflexivity|apply list_elem_of_In; simpl; tauto]
            | exists [1; 3]; eexists _, _, _; split; [reflexivity|apply list_elem_of_In; simpl; tauto]
            | exists [1; 4]; eexists _, _, _; split; [reflexivity|apply list_elem_of_In; simpl; tauto] ].
Qed.

(** ** Toolbar, Canvas and Footer *)

(** The [Toolbar] marks exactly one tool, the selected one, with
    the class [tool-button selected]; a click on a tool selects it and
    a drag starts dragging it. *)
Theorem toolbar_marks_selected {E} (sel : ShapeType) (onSelect onDrag : ShapeType -> E) d :
  let buttons := map (tool_button sel onSelect onDrag) tools in
  filter (fun n => bool_decide (attr "className" n = Some "tool-button selected")) buttons =
    [tool_button sel onSelect onDrag (sel, match sel with
                                           | circle => "Circle"
                                           | square => "Square"
                                           | triangle => "Triangle"
                                           end)] /\
  events_of Click d (Toolbar sel onSelect onDrag) = [onSelect circle; onSelect square; onSelect triangle] /\
  events_of DragStart d (Toolbar sel onSelect onDrag) = [onDrag circle; onDrag square; onDrag triangle].
Proof. by destruct sel. Qed.

Lemma shape_texts {E} (onDelete : string -> E) sh : texts (Shape_view onDelete sh) = [].
Proof. by destruct sh as [? [] ? ?]. Qed.

Lemma texts_shapes {E} (onDelete : string -> E) ss :
  concat (map texts (map (Shape_view onDelete) ss)) = [].
Proof. induction ss as [|sh ss IH]; [done|]. simpl. by rewrite shape_texts, IH. Qed.

(** A click on a shape, or on anything inside it, stops at the shape. *)
Lemma shape_click {E} (onDelete : string -> E) sh d p es st pr :
  dispatch Click d p (Shape_view onDelete sh) = Some (es, st, pr) -> es = [] /\ st = true.
Proof. destruct sh as [? [] ? ?], p; simpl; try done; by intros [= <- <- _]. Qed.

(** C33. The [Canvas] shows the text [Canvas] exactly when there is no
    shape, and no other text; a click anywhere in it raises nothing but
    the canvas's own [onClick], and a click on a shape stops there: it
    places nothing. *)
Theorem canvas_view_spec {E} (ss : list Shape) (onClick onDrop : handler E) (onDelete : string -> E)
  d p es st pr :
  texts (Canvas_view ss onClick onDrop (mkHandler false true None) onDelete) =
    (if Nat.eqb (length ss) 0 then ["Canvas"] else []) /\
  (dispatch Click d p (Canvas_view ss onClick onDrop (mkHandler false true None) onDelete)
     = Some (es, st, pr) -> es = [] \/ es = handler_events onClick d) /\
  (forall i, i < length ss ->
     dispatch Click d [0; S i]
       (Canvas_view ss onClick onDrop (mkHandler false true None) onDelete)
     = Some ([], true, false)).
Proof.
  split; [|split].
  - unfold Canvas_view. simpl. rewrite !map_app, !concat_app, texts_shapes.
    by destruct (Nat.eqb (length ss) 0).
  - intros Hd. unfold Canvas_view in Hd.
    destruct p as [|[|i] p]; [simpl in Hd; injection Hd as <- _ _; by left| |by destruct p; simpl in Hd].
    rewrite dispatch_cons in Hd. cbn [lookup list_lookup] in Hd. destruct p as [|j p].
    { simpl in Hd. destruct (stops onClick); injection Hd as <- _ _; right; [done|by rewrite app_nil_r]. }
    rewrite dispatch_cons in Hd. destruct (_ !! j) as [c|] eqn:Hc; [|done].
    assert (H0 : forall es0 st0 pr0, dispatch Click d p c = Some (es0, st0, pr0) -> es0 = []).
    { apply list_elem_of_lookup_2 in Hc. rewrite !elem_of_app in Hc. intros es0 st0 pr0 Ed.
      destruct Hc as [Hc|[Hc|Hc]].
      - apply list_elem_of_singleton in Hc. subst c.
        destruct p; simpl in Ed; [by injection Ed as <- _ _|done].
      - destruct (Nat.eqb (length ss) 0); [|by apply elem_of_nil in Hc].
        apply list_elem_of_singleton in Hc. subst c.
        destruct p as [|[|k] [|l p]]; simpl in Ed; try done; by injection Ed as <- _ _.
      - apply list_elem_of_In, in_map_iff in Hc as (sh & <- & _).
        by destruct (shape_click _ _ _ _ _ _ _ Ed). }
    destruct (dispatch Click d p c) as [[[es0 st0] pr0]|] eqn:Ed; [|done].
    rewrite (H0 _ _ _ eq_refl) in Hd.
    destruct st0; simpl in Hd; [injection Hd as <- _ _; by left|].
    destruct (stops onClick); simpl in Hd; injection Hd as <- _ _; right; [done|by rewrite app_nil_r].
  - intros i Hi. unfold Canvas_view. rewrite !dispatch_cons. cbn [lookup list_lookup].
    destruct (Nat.eqb (length ss) 0) eqn:E0; [apply Nat.eqb_eq in E0; lia|].
    apply lookup_lt_is_Some_2 in Hi as [sh Hsh]. simpl.
    rewrite list_lookup_fmap, Hsh. simpl. by destruct sh as [? [] ? ?].
Qed.


(** C34. The [AuthModal]: a click closes the modal only on the
    overlay itself or on Cancel (and then once: the content stops the
    click before it reaches the overlay); a click anywhere else in the
    content, the form or its fields raises nothing.  Submitting the
    form runs [handleSubmit] once, with the default action (reloading
    the page) prevented. *)
Theorem modal_events m d p es st pr :
  (dispatch Click d p (AuthModal_view m EvCloseModal EvTypeUsername EvTypePassword EvSubmit)
     = Some (es, st, pr) ->
   es = if bool_decide (p = [] \/ p = [0; 2] \/ p = [0; 2; 0]) then [EvCloseModal] else []) /\
  dispatch Submit d [0; 1] (AuthModal_view m EvCloseModal EvTypeUsername EvTypePassword EvSubmit)
    = Some ([EvSubmit], false, true).
Proof.
  split; [|reflexivity]. intros Hd.
  repeat match type of Hd with
         | context [dispatch _ _ ?q _] =>
             is_var q; destruct q as [|[|[|[|?]]] q]; simpl in Hd; try discriminate
         end;
    injection Hd as <- _ _; reflexivity.
Qed.

(** C35. The [Footer] of a document of shapes shows, in order, the
    number of circles, squares and triangles. *)
Theorem footer_shows_counts {E} ss c :
  shapeCounts (map shape_obj ss) = Ok c ->
  texts (Footer (E := E) c) =
    [Z_to_dec (count_type circle ss); Z_to_dec (count_type square ss);
     Z_to_dec (count_type triangle ss)].
Proof.
  unfold shapeCounts. replace initial_counts with (counts3 0 0 0) by reflexivity.
  rewrite (js_reduce_counts ss 0 0 0). intros [= <-]. done.
Qed.

Lemma footer_shows_counts_witness :
  let ss := [mkShape "a" circle 1 2; mkShape "b" triangle 3 4; mkShape "c" circle 5 6] in
  texts (Footer (E := session_event) (counts3 2 0 1)) =
    [Z_to_dec (count_type circle ss); Z_to_dec (count_type square ss);
     Z_to_dec (count_type triangle ss)].
Proof. intros ss. apply footer_shows_counts. reflexivity. Defined.

(** One step of the reduce over a value that is not [null]. *)
Lemma count_step_key acc v k n :
  v <> JNull -> prop_lookup k acc = Some n ->
  exists acc', count_step acc v = Ok acc' /\
    prop_lookup k acc' = Some (if String.eqb (type_key v) k then n + 1 else n)%Z.
Proof.
  intros Hv Hk. unfold count_step.
  assert (Hg : get_prop v "type" = Ok (match v with JObj fs => prop_lookup "type" fs | _ => None end))
    by (destruct v; done).
  rewrite Hg. cbn [mbind res_bind].
  replace (js_to_string _) with (type_key v) by (destruct v; done).
  eexists; split; [reflexivity|]. rewrite prop_lookup_obj_set.
  destruct (String.eqb_spec k (type_key v)) as [<-|Hne].
  - rewrite String.eqb_refl, Hk. by destruct (Z.eqb_spec n 0) as [->|].
  - destruct (String.eqb_spec (type_key v) k); [congruence|done].
Qed.

Lemma js_reduce_count_key l acc k n :
  Forall (fun v => v <> JNull) l -> prop_lookup k acc = Some n ->
  exists acc', js_reduce count_step l acc = Ok acc' /\ prop_lookup k acc' = Some (n + count_key k l)%Z.
Proof.
  intros Hl. revert acc n. induction Hl as [|v l Hv _ IH]; intros acc n Hk.
  - exists acc. split; [done|]. by rewrite Z.add_0_r.
  - destruct (count_step_key acc v k n Hv Hk) as (acc1 & H1 & Hk1).
    destruct (IH _ _ Hk1) as (acc' & H2 & Hk2). exists acc'. cbn [js_reduce].
    rewrite H1. cbn [mbind res_bind]. split; [done|]. rewrite Hk2. f_equal.
    unfold count_key. cbn [List.filter]. destruct (String.eqb _ _); simpl length; lia.
Qed.

(** C36. The [Footer] of any document an import can install, whatever
    its shapes' types, shows the number of values whose [type] is
    exactly [circle], [square] and [triangle]: import does not check
    types, and a value of any other type (such as [hexagon]) is counted
    under its own key and shown nowhere.  Only [null] makes
    [shapeCounts] throw. *)
Theorem footer_counts_imported {E : Type} l :
  Forall (fun v => v <> JNull) l ->
  exists c, shapeCounts l = Ok c /\
    texts (Footer (E := E) c) =
      [Z_to_dec (count_key "circle" l); Z_to_dec (count_key "square" l);
       Z_to_dec (count_key "triangle" l)].
Proof.
  intros Hl. unfold shapeCounts.
  destruct (js_reduce_count_key l initial_counts "circle" 0 Hl eq_refl) as (c & Hc & H1).
  destruct (js_reduce_count_key l initial_counts "square" 0 Hl eq_refl) as (c2 & Hc2 & H2).
  destruct (js_reduce_count_key l initial_counts "triangle" 0 Hl eq_refl) as (c3 & Hc3 & H3).
  rewrite Hc in Hc2, Hc3. injection Hc2 as <-. injection Hc3 as <-. exists c. split; [done|].
  cbn [Footer texts map concat count_item]. unfold count_text. rewrite H1, H2, H3. done.
Qed.

Lemma footer_counts_imported_witness :
  let l := [JObj [("id", JStr "h"); ("type", JStr "hexagon")];
            JObj [("id", JStr "c"); ("type", JStr "circle")]] in
  Forall (fun v => v <> JNull) l /\
  exists c, shapeCounts l = Ok c /\
    texts (Footer (E := session_event) c) =
      [Z_to_dec (count_key "circle" l); Z_to_dec (count_key "square" l);
       Z_to_dec (count_key "triangle" l)].
Proof.
  intros l. assert (Hl : Forall (fun v => v <> JNull) l) by (repeat constructor; discriminate).
  split; [exact Hl|]. exact (footer_counts_imported l Hl).
Defined.

End Render.
