(* ===== verification/Page.v ===== *)
(** * The HW3 page: [App]'s markup and the events a user can cause

    [App_view] is what the HW3 [App] component returns, built from the
    components of [Render] with the session's state and handlers; the
    [AuthModal] is mounted while [authModal] is set.  [page_reachable]
    are the sessions a user reaches by dispatching DOM events on what is
    rendered (any event type, at any element, with any event data and a
    fresh [crypto.randomUUID()]), together with the browser's callbacks
    (a file read by [reader.onload], the response to a request).

    The main theorem is that every session the page reaches is a
    session of [Session.sreachable]: the theorems proved there for
    [sreachable] hold of the real page.  It rests on the fact that each
    DOM event runs at most one callback of [App], because [Shape] and
    the modal's content stop the propagation of clicks. *)

From S2P Require Import Prelude JsValue Canvas Json Transfer Session Render.
From Stdlib Require Import String Ascii ZArith Lia.
From stdpp Require Import base list.

Module Page.
Import Canvas Json Transfer Session Render.
#[local] Set Warnings "-register-all".
Local Open Scope string_scope.

(** ** App *)

(** [handleDragOver]: [event.preventDefault()], which makes the canvas
    a drop target. *)
Definition handleDragOver : handler session_event := mkHandler false true None.

(** [onClick={handleCanvasClick}] and [onDrop={handleDrop}]: both read
    the point of the event and call [crypto.randomUUID()];
    [handleDrop] first calls [event.preventDefault()]. *)
Definition canvas_click : handler session_event := call (fun d => EvCanvasClick (ev_uuid d) (ev_point d)).

Definition canvas_drop : handler session_event :=
  mkHandler false true (Some (fun d => EvDrop (ev_uuid d) (ev_point d))).

(** The hidden [<input type="file">] with [onChange={handleFileChange}]. *)
Definition file_input : vnode session_event :=
  VElem "input" [("type", "file"); ("className", "hidden"); ("accept", "application/json")]
    [(Change, call (fun d => EvFileChange (ev_file d)))] [].

(** What [App] renders.  [None] when rendering throws ([shapeCounts] on a
    [null] shape) or when a shape value does not have the type [Shape]
    (outside this model: [Shape] would render whatever props it has). *)
Definition App_view (s : Session) : option (vnode session_event) :=
  match mapM shape_of (shapes (app s)), hw3_shapeCounts s with
  | Some ss, Ok counts =>
      Some (VElem "div" [("className", "app-container")] []
        ([VElem "div" [("className", "main-wrapper")] []
            [render_header s;
             VElem "div" [("className", "content-wrapper")] []
               [VElem "main" [("className", "main-content")] []
                  [Canvas_view ss canvas_click canvas_drop handleDragOver
                     (fun id => EvDeleteShape (JStr id));
                   Footer counts];
                Toolbar (selectedShape (app s)) EvSelectShape EvDragStart]];
          file_input] ++
         match authModal s with
         | Some m => [AuthModal_view m EvCloseModal EvTypeUsername EvTypePassword EvSubmit]
         | None => []
         end)%list)
  | _, _ => None
  end.

(** The handlers of one dispatch, run in order on the session. *)
Fixpoint run_handlers (es : list session_event) (s : Session) : res (Session * list effect) :=
  match es with
  | [] => Ok (s, [])
  | e :: es' =>
      match session_step e s with
      | Ok (s1, f1) =>
          match run_handlers es' s1 with
          | Ok (s2, f2) => Ok (s2, (f1 ++ f2)%list)
          | Throw err => Throw err
          end
      | Throw err => Throw err
      end
  end.

(** The browser's callbacks: [reader.onload] and a settled [fetch]. *)
Definition async_event (e : session_event) : bool :=
  match e with
  | EvFileLoaded _ | EvRespond _ _ => true
  | _ => false
  end.

(** Sessions a user reaches on the page.  A [drop] happens only where
    the [dragover] before it was prevented. *)
Inductive page_reachable : Session -> Prop :=
| page_init : page_reachable initial_session
| page_dom s v ty d p es st pr s' effs :
    page_reachable s -> App_view s = Some v ->
    dispatch ty d p v = Some (es, st, pr) ->
    (ty = Drop -> exists es' st', dispatch DragOver d p v = Some (es', st', true)) ->
    ev_uuid d ∉ omap jval_id (shapes (app s)) ->
    run_handlers es s = Ok (s', effs) -> page_reachable s'
| page_async s e s' effs :
    page_reachable s -> async_event e = true -> session_step e s = Ok (s', effs) ->
    page_reachable s'.

(** ** Each DOM event runs at most one callback *)

(** At most one event, stopped or not. *)
Definition b1 (b : option nat * option nat) : Prop := ole b.1 (Some 1) /\ ole b.2 (Some 1).

(** What [sreachable] asks of a step: the event is enabled, and the
    identifier a placement uses is fresh when [crypto.randomUUID()]'s
    is. *)
Definition event_ok (s : Session) (d : dom_event) (e : session_event) : Prop :=
  enabled e s = true /\ (ev_uuid d ∉ omap jval_id (shapes (app s)) -> fresh_ev e s).

Lemma omax_idem a : omax a a = a.
Proof. destruct a; simpl; [by rewrite Nat.max_id|done]. Qed.

Lemma fold_bound_const {A} (f : A -> option nat * option nat) b (l : list A) :
  (forall x, f x = b) ->
  fold_right (fun b r => (omax b.1 r.1, omax b.2 r.2)) (None, None) (map f l) =
  match l with [] => (None, None) | _ => b end.
Proof.
  intros Hf. induction l as [|x l IH]; [done|]. simpl. rewrite IH, Hf.
  destruct l; simpl; [by destruct b as [[] []]|]. by rewrite !omax_idem, <- surjective_pairing.
Qed.

Lemma bound_shape {E} ty (onDelete : string -> E) sh :
  bound ty (Shape_view onDelete sh) =
  match ty with Click => (None, Some 0) | DblClick => (None, Some 1) | _ => (Some 0, None) end.
Proof. by destruct sh as [? [] ? ?], ty. Qed.

Lemma ole_omax_lub a b c : ole a c -> ole b c -> ole (omax a b) c.
Proof. destruct a, b, c; simpl; lia. Qed.

Lemma fold_b1 (l : list (option nat * option nat)) :
  Forall b1 l -> b1 (fold_right (fun b r => (omax b.1 r.1, omax b.2 r.2)) (None, None) l).
Proof.
  induction 1 as [|b l [H1 H2] _ [IH1 IH2]]; [done|]. simpl. split; by apply ole_omax_lub.
Qed.

(** An element without a handler for the event adds nothing to what its
    children raise. *)
Lemma bound_pass {E} ty tag attrs on (ch : list (vnode E)) :
  hlookup ty on = None -> Forall (fun c => b1 (bound ty c)) ch -> b1 (bound ty (VElem tag attrs on ch)).
Proof.
  intros Hn Hch. cbn [bound]. unfold hstops, hcount. rewrite Hn.
  assert (Hk : Forall b1 (map (bound ty) ch)) by (induction Hch; simpl; by constructor).
  apply fold_b1 in Hk. destruct (fold_right _ _ _) as [k1 k2]. destruct Hk as [H1 H2].
  split; [|done]. destruct k1; simpl in *; lia.
Qed.

Lemma bound_header s ty : b1 (bound ty (render_header s)).
Proof. unfold render_header, Header. destruct (isLoggedIn s), ty; split; vm_compute; lia. Qed.

Lemma bound_canvas ty ss :
  b1 (bound ty (Canvas_view ss canvas_click canvas_drop handleDragOver (fun id => EvDeleteShape (JStr id)))).
Proof.
  destruct ss as [|sh ss]; [destruct ty; split; vm_compute; lia|].
  unfold Canvas_view. simpl. rewrite map_map, (fold_bound_const _ _ _ (fun x => bound_shape ty _ x)).
  rewrite bound_shape. destruct ss, ty; split; vm_compute; lia.
Qed.

Lemma bound_toolbar ty t : b1 (bound ty (Toolbar t EvSelectShape EvDragStart)).
Proof. destruct ty; split; vm_compute; lia. Qed.

Lemma bound_footer ty c : b1 (bound ty (Footer (E := session_event) c)).
Proof.
  unfold Footer, count_item, count_text.
  destruct (prop_lookup "circle" c), (prop_lookup "square" c), (prop_lookup "triangle" c), ty;
    split; vm_compute; lia.
Qed.

Lemma bound_modal ty m : b1 (bound ty (AuthModal_view m EvCloseModal EvTypeUsername EvTypePassword EvSubmit)).
Proof. destruct ty; split; vm_compute; lia. Qed.






(** ** Each callback the page runs is a step the session allows *)

Ltac event_ok_tac :=
  repeat match goal with
  | |- Forall _ (handler_events _ _) => unfold handler_events; simpl
  | |- Forall _ [] => constructor
  | |- Forall _ (_ :: _) => constructor
  | |- event_ok _ _ _ => split; [unfold enabled; simpl; try done | unfold fresh_ev; simpl; auto]
  end.

Lemma Forall_events_pass (P : session_event -> Prop) ty d tag attrs (ch : list (vnode session_event)) :
  Forall (fun c => Forall P (events_of ty d c)) ch -> Forall P (events_of ty d (VElem tag attrs [] ch)).
Proof. intros H. simpl. induction H; simpl; [constructor|]. apply Forall_app. by split. Qed.

Lemma events_header s ty d : Forall (event_ok s d) (events_of ty d (render_header s)).
Proof. unfold render_header, Header. destruct (isLoggedIn s) eqn:Hl, ty; simpl; event_ok_tac; by rewrite ?Hl. Qed.

Lemma Forall_concat_map {A B} (P : B -> Prop) (f : A -> list B) (l : list A) :
  Forall (fun x => Forall P (f x)) l -> Forall P (concat (map f l)).
Proof. induction 1; simpl; [constructor|]. apply Forall_app. by split. Qed.

Lemma events_shape s d ty sh :
  Forall (event_ok s d) (events_of ty d (Shape_view (fun id => EvDeleteShape (JStr id)) sh)).
Proof. destruct sh as [? [] ? ?], ty; simpl; event_ok_tac. Qed.

Lemma events_canvas s d ty ss :
  Forall (event_ok s d)
    (events_of ty d (Canvas_view ss canvas_click canvas_drop handleDragOver (fun id => EvDeleteShape (JStr id)))).
Proof.
  unfold Canvas_view. apply Forall_events_pass. constructor; [|constructor].
  cbn [events_of]. apply Forall_app. split.
  { unfold canvas_click, canvas_drop, handleDragOver, call. destruct ty; simpl; event_ok_tac. }
  apply Forall_concat_map. apply Forall_app. split; [repeat constructor|].
  apply Forall_app. split; [destruct (Nat.eqb _ _); repeat constructor|].
  induction ss as [|sh ss IH]; simpl; constructor; [apply events_shape|exact IH].
Qed.

Lemma events_toolbar s d ty t : Forall (event_ok s d) (events_of ty d (Toolbar t EvSelectShape EvDragStart)).
Proof. destruct ty; simpl; event_ok_tac. Qed.

Lemma events_footer s d ty c : Forall (event_ok s d) (events_of ty d (Footer (E := session_event) c)).
Proof.
  unfold Footer, count_item, count_text.
  destruct (prop_lookup "circle" c), (prop_lookup "square" c), (prop_lookup "triangle" c), ty;
    simpl; event_ok_tac.
Qed.

Lemma events_modal s d ty m :
  authModal s = Some m ->
  Forall (event_ok s d) (events_of ty d (AuthModal_view m EvCloseModal EvTypeUsername EvTypePassword EvSubmit)).
Proof.
  intros Hm. destruct ty; simpl; event_ok_tac; rewrite Hm; by apply bool_decide_eq_true_2.
Qed.



(** ** A typed document is rendered *)

Lemma js_reduce_objs l acc :
  Forall (fun v => exists fs, v = JObj fs) l -> exists c, js_reduce count_step l acc = Ok c.
Proof.
  intros Hl. revert acc. induction Hl as [|x l [fs ->] _ IH]; intros acc; simpl; [by eexists|].
  apply IH.
Qed.

(** [App_view] renders every document that has its declared types, so
    the refinement below covers every state the canvas handlers alone
    reach. *)
Lemma page_renders_typed s : doc_typed (app s) = true -> exists v, App_view s = Some v.
Proof.
  unfold doc_typed, App_view, hw3_shapeCounts, shapeCounts. intros H.
  apply andb_prop in H as [_ H]. apply forallb_Forall in H.
  destruct (mapM shape_of (shapes (app s))) as [ss|] eqn:Hm.
  2:{ apply mapM_None_1, Exists_exists in Hm as (x & Hx & Hn).
      rewrite Forall_forall in H. specialize (H x Hx). by rewrite Hn in H. }
  destruct (js_reduce_objs (shapes (app s)) initial_counts) as [c ->]; [|by eexists].
  eapply Forall_impl; [exact H|]. intros [] Hx; simpl in Hx; try discriminate. by eexists.
Qed.

(** ** The page refines the session model *)

(** C31. Refinement: every session a user reaches on
    the rendered page, by any DOM event at any element of what [App]
    renders (with fresh identifiers from [crypto.randomUUID()]) and by
    the browser's callbacks, is a session of [sreachable].  So every
    theorem proved of [sreachable] holds of the page.  A DOM event runs
    at most one callback of [App] (the clicks on a shape and inside the
    modal stop), and that callback is enabled in the rendered state. *)
Theorem page_refines_session s : page_reachable s -> sreachable s.
Proof.
  (* What [App] renders raises at most one event per dispatch, and only
     events the session allows. *)
  assert (Hpage : forall s v ty d, App_view s = Some v ->
            b1 (bound ty v) /\ Forall (event_ok s d) (events_of ty d v)).
  { clear s. intros s v ty d. unfold App_view. destruct (mapM shape_of _) as [ss|]; [|done].
    destruct (hw3_shapeCounts s) as [c|]; [|done]. intros [= <-]. split.
    - apply bound_pass; [done|]. constructor.
      { apply bound_pass; [done|]. constructor; [apply bound_header|]. constructor; [|constructor].
        apply bound_pass; [done|]. constructor; [|constructor; [apply bound_toolbar|constructor]].
        apply bound_pass; [done|]. constructor; [apply bound_canvas|].
        constructor; [apply bound_footer|constructor]. }
      constructor; [destruct ty; split; vm_compute; lia|].
      destruct (authModal s); [constructor; [apply bound_modal|constructor]|constructor].
    - apply Forall_events_pass. constructor.
      { apply Forall_events_pass. constructor; [apply events_header|]. constructor; [|constructor].
        apply Forall_events_pass. constructor; [|constructor; [apply events_toolbar|constructor]].
        apply Forall_events_pass. constructor; [apply events_canvas|].
        constructor; [apply events_footer|constructor]. }
      constructor; [destruct ty; simpl; event_ok_tac|].
      destruct (authModal s) eqn:Hm; [constructor; [by apply events_modal|constructor]|constructor]. }
  induction 1 as [|s v ty d p es st pr s' effs _ IH Hv Hd _ Hu Hrun|s e s' effs _ IH Ha Hs].
  - constructor.
  - destruct (Hpage s v ty d Hv) as [[H1 H2] Hok].
    assert (Hl : length es <= 1).
    { pose proof (dispatch_bound _ _ _ _ _ _ _ Hd) as Hb.
      destruct st; eapply (le_opt_ole _ _ (Some 1)) in Hb; eauto. }
    destruct es as [|e [|e' es]]; simpl in Hl; [| |lia].
    + simpl in Hrun. injection Hrun as <- _. exact IH.
    + pose proof (dispatch_events_of _ _ _ _ _ _ _ Hd e (proj2 (list_elem_of_singleton _ _) eq_refl)) as He.
      rewrite Forall_forall in Hok. destruct (Hok e He) as [Hen Hfr].
      simpl in Hrun. destruct (session_step e s) as [[s1 f1]|] eqn:Hstep; [|done].
      injection Hrun as <- _. exact (sreach_step s e s1 f1 IH Hen (Hfr Hu) Hstep).
  - apply (sreach_step s e s' effs IH); [|by destruct e|exact Hs].
    by destruct e.
Qed.

Lemma page_refines_session_witness :
  page_reachable (handleLogin initial_session) /\ sreachable (handleLogin initial_session).
Proof.
  assert (H : page_reachable (handleLogin initial_session)).
  { eapply (page_dom initial_session _ Click (mkEvent "" (0, 0)%Z "u" None) [0; 0; 1; 3] [EvLogin]
             false false _ []); [constructor|reflexivity|reflexivity|discriminate| |reflexivity].
    simpl. apply not_elem_of_nil. }
  split; [exact H|]. apply (page_refines_session _ H).
Defined.

End Page.
